(** * Octra wallet extension: request lifecycle and wallet-access gate

    A shallow embedding of the wallet manager ([WalletManager], recorded in
    SDK-README.md), the popup and tab entry points ([PopupApp] and [App],
    src/PopupApp.tsx), the page-side SDK ([OctraSDK], octra-sdk.js), the
    name-service utilities ([ONS], recorded in SDK-README.md) and the faucet
    service ([Faucet]), together with the properties the design document
    states about them and further properties of the code. *)

From stdpp Require Import gmap strings list fin_maps.
From Stdlib Require Import ZArith QArith.

Local Open Scope string_scope.
Local Open Scope Z_scope.
Local Open Scope list_scope.

(** ** JavaScript values and errors *)

Module Js.

#[local] Set Warnings "-register-all".

(** The values that travel through the store, [JSON.parse] and component
    state.  Numbers are rationals: NaN, the infinities and rounding are left
    out, no function below does arithmetic.  Objects are association lists in
    insertion order. *)
Inductive JsVal : Type :=
| JUndefined
| JNull
| JBool (b : bool)
| JNum (q : Q)
| JStr (s : string)
| JArr (items : list JsVal)
| JObj (fields : list (string * JsVal)).

(** What a [throw] carries.  [Error] is what the code raises itself with
    [new Error(msg)]; [TypeError] and [SyntaxError] come from the language
    (property access on null, a call on a non-function, [JSON.parse]). *)
Inductive JsError : Type :=
| Error (message : string)
| TypeError (message : string)
| SyntaxError (message : string)
| URIError (message : string).

Definition message (e : JsError) : string :=
  match e with Error m | TypeError m | SyntaxError m | URIError m => m end.

(** ToBoolean: [if (v)], [!v], [!!v]. *)
Definition truthy (v : JsVal) : bool :=
  match v with
  | JUndefined | JNull => false
  | JBool b => b
  | JNum q => negb (Qeq_bool q 0)
  | JStr s => negb (String.eqb s "")
  | JArr _ | JObj _ => true
  end.

(** [a || b] *)
Definition or_else (a b : JsVal) : JsVal := if truthy a then a else b.

(** [v === 'lit'] against a string literal: only a string with the same
    characters is strictly equal. *)
Definition strict_eq_str (v : JsVal) (lit : string) : bool :=
  match v with JStr s => String.eqb s lit | _ => false end.

(** [a === b] between two values that were deserialised separately: primitives
    compare by type and value, objects and arrays by identity, which two
    separately built values never share. *)
Definition strict_eq (a b : JsVal) : bool :=
  match a, b with
  | JUndefined, JUndefined => true
  | JNull, JNull => true
  | JBool x, JBool y => Bool.eqb x y
  | JNum x, JNum y => Qeq_bool x y
  | JStr x, JStr y => String.eqb x y
  | _, _ => false
  end.

Fixpoint assoc (k : string) (fs : list (string * JsVal)) : option JsVal :=
  match fs with
  | [] => None
  | (k', v) :: rest => if String.eqb k k' then Some v else assoc k rest
  end.

(** Outcome of an evaluation that may throw. *)
Inductive Res (A : Type) : Type :=
| Ok (a : A)
| Throw (e : JsError).
Arguments Ok {A} a.
Arguments Throw {A} e.

(** [v.name] for the data properties the code reads ([address],
    [encryptedData], [message], ...): a TypeError on null and undefined, the
    field of an object, undefined on every other value. *)
Definition get_field (v : JsVal) (name : string) : Res JsVal :=
  match v with
  | JUndefined | JNull =>
      Throw (TypeError ("Cannot read properties of null or undefined (reading '" +:+ name +:+ "')"))
  | JObj fs => Ok (default JUndefined (assoc name fs))
  | _ => Ok JUndefined
  end.

(** The characters of a string as one-character strings, the way [for ... of]
    walks a string. *)
Fixpoint chars (s : string) : list JsVal :=
  match s with
  | EmptyString => []
  | String c rest => JStr (String c EmptyString) :: chars rest
  end.

(** The sequence [for (const x of v)] walks: the elements of an array, the
    characters of a string, a TypeError on anything else JSON can produce. *)
Definition iterate (v : JsVal) : Res (list JsVal) :=
  match v with
  | JArr items => Ok items
  | JStr s => Ok (chars s)
  | _ => Throw (TypeError "value is not iterable")
  end.

End Js.
Export Js.

(** ** Computations with state and exceptions *)

Module Eff.

(** A computation over a state [S] that returns or throws.  The state reached
    when it throws is kept: an assignment made before the [throw] is visible
    in the [catch] block and after it. *)
Definition M (S A : Type) : Type := S -> Res A * S.

Definition ret {S A} (a : A) : M S A := fun s => (Ok a, s).

Definition throw {S A} (e : JsError) : M S A := fun s => (Throw e, s).

Definition bind {S A B} (m : M S A) (k : A -> M S B) : M S B :=
  fun s =>
    match m s with
    | (Ok a, s') => k a s'
    | (Throw e, s') => (Throw e, s')
    end.

(** [try { body } catch (e) { handler e }] *)
Definition try_catch {S A} (body : M S A) (handler : JsError -> M S A) : M S A :=
  fun s =>
    match body s with
    | (Ok a, s') => (Ok a, s')
    | (Throw e, s') => handler e s'
    end.

(** [try { body } finally { final }], with a [final] that returns normally. *)
Definition try_finally {S A} (body : M S A) (final : S -> S) : M S A :=
  fun s => let '(r, s') := body s in (r, final s').

Definition gets {S A} (f : S -> A) : M S A := fun s => (Ok (f s), s).

Definition modify {S} (f : S -> S) : M S () := fun s => (Ok (), f s).

(** A value that may already be an exception, e.g. a property read. *)
Definition lift_res {S A} (r : Res A) : M S A := fun s => (r, s).

(** Run a computation on a component of a larger state. *)
Definition zoom {S T A} (proj : T -> S) (put : S -> T -> T) (m : M S A) : M T A :=
  fun t => let '(r, s') := m (proj t) in (r, put s' t).

End Eff.
Export Eff.

Declare Scope eff_scope.
Delimit Scope eff_scope with eff.
Notation "'let!' x ':=' m 'in' k" := (bind m (fun x => k))
  (at level 10, x name, m at level 100, k at level 200) : eff_scope.
Notation "m ;; k" := (bind m (fun _ => k))
  (at level 100, k at level 200, right associativity) : eff_scope.
Local Open Scope eff_scope.

(** ** The host: shared store and observable effects *)

(** The two user-facing surfaces. *)
Inductive Surface : Type := PopupSurface | TabSurface.

(** What a context does that another context, the user or the developer can
    observe: console output, [chrome.runtime.sendMessage(msg)],
    [chrome.tabs.create({url: chrome.runtime.getURL(page)})],
    [window.close()], and the window-creation primitive the Surface Policy
    invokes. *)
Inductive Effect : Type :=
| ConsoleError (label : string) (args : list JsVal) (err : option JsError)
| SendMessage (msg : JsVal)
| TabsCreate (page : string)
| WindowClose
| CreateWindow (surface : Surface).

(** Does this effect put a tab surface on screen? *)
Definition opens_tab (e : Effect) : bool :=
  match e with
  | TabsCreate _ | CreateWindow TabSurface => true
  | _ => false
  end.

Definition tabs_opened (t : list Effect) : list Effect := List.filter opens_tab t.

(** An extension context as its code sees it: the contents of the shared
    store, and what the context has done so far, oldest first. *)
Record World : Type := mkWorld {
  storage : gmap string JsVal;
  trace : list Effect
}.

Definition set_storage (f : gmap string JsVal -> gmap string JsVal) (w : World) : World :=
  mkWorld (f (storage w)) (trace w).

Definition emit (e : Effect) : M World () :=
  modify (fun w => mkWorld (storage w) (trace w ++ [e])).

(** What a read of [key] yields in [w]: the stored value, or undefined. *)
Definition read (w : World) (key : string) : JsVal :=
  default JUndefined (storage w !! key).

Module ExtensionStorageManager.

(** Modelled from the spec: [ExtensionStorageManager.get]
    (./utils/extensionStorage is not part of the sources).  Section 4.1:
    [get(key) -> value|absent]. *)
Definition get (key : string) : M World JsVal := gets (fun w => read w key).

(** Modelled from the spec: [ExtensionStorageManager.set], section 4.1:
    [set(key, value)], independent and immediately durable. *)
Definition set (key : string) (value : JsVal) : M World () :=
  modify (set_storage (insert key value)).

(** Modelled from the spec: [ExtensionStorageManager.remove], section 4.1:
    [remove(key)], independent and immediately durable. *)
Definition remove (key : string) : M World () :=
  modify (set_storage (delete key)).

End ExtensionStorageManager.

(** ** Wallet Access Manager (utils/walletManager.ts) *)

Module WalletManager.
Import ExtensionStorageManager.

Section WithCollaborators.

(** The collaborators the manager imports: password verification and payload
    decryption from ./password, and the JSON codec of the language. *)
Variable verifyPassword : string -> JsVal -> JsVal -> bool.
Variable decryptWalletData : JsVal -> string -> Res string.
Variable JSON_parse : string -> option JsVal.
Variable JSON_stringify : JsVal -> string.

Definition parse (s : string) : Res JsVal :=
  match JSON_parse s with
  | Some v => Ok v
  | None => Throw (SyntaxError "Unexpected token in JSON")
  end.

(** The frame of [unlockWallets]: the host and the local array
    [decryptedWallets], which keeps what was pushed when a later statement
    throws. *)
Record Frame : Type := mkFrame {
  world : World;
  decryptedWallets : list JsVal
}.

Definition in_world {A} (m : M World A) : M Frame A :=
  zoom world (fun w f => mkFrame w (decryptedWallets f)) m.

Definition push (wallet : JsVal) : M Frame () :=
  modify (fun f => mkFrame (world f) (decryptedWallets f ++ [wallet])).

(** The body of the [for ... of] loop: decrypt, parse and push one record; a
    failure is reported with the record's address. *)
Definition decrypt_one (password : string) (encryptedWallet : JsVal) : M Frame () :=
  try_catch
    (let! encryptedData := lift_res (get_field encryptedWallet "encryptedData") in
     let! decryptedData := lift_res (decryptWalletData encryptedData password) in
     let! wallet := lift_res (parse decryptedData) in
     push wallet)
    (fun error =>
       let! address := lift_res (get_field encryptedWallet "address") in
       in_world (emit (ConsoleError "Failed to decrypt wallet:" [address] (Some error)))).

Fixpoint decrypt_each (password : string) (records : list JsVal) : M Frame () :=
  match records with
  | [] => ret ()
  | encryptedWallet :: rest =>
      decrypt_one password encryptedWallet ;; decrypt_each password rest
  end.

(** The block guarded by [if (encryptedWallets)]. *)
Definition decrypt_stored (password : string) (encryptedWallets : JsVal) : M Frame () :=
  try_catch
    (let! parsedEncrypted :=
       match encryptedWallets with
       | JStr s => lift_res (parse s)
       | JArr _ => ret encryptedWallets
       | _ => throw (Error "Invalid encrypted wallets format")
       end in
     let! records := lift_res (iterate parsedEncrypted) in
     decrypt_each password records)
    (fun error =>
       in_world (emit (ConsoleError "Failed to parse encrypted wallets:" [] (Some error)))).

Definition unlock_body (password : string) : M Frame (list JsVal) :=
  let! hashedPassword := in_world (get "walletPasswordHash") in
  let! salt := in_world (get "walletPasswordSalt") in
  if negb (truthy hashedPassword) || negb (truthy salt) then
    throw (Error "No password set")
  else
    let isValid := verifyPassword password hashedPassword salt in
    if negb isValid then throw (Error "Invalid password")
    else
      let! encryptedWallets := in_world (get "encryptedWallets") in
      (if truthy encryptedWallets then decrypt_stored password encryptedWallets
       else ret ()) ;;
      let! wallets := gets decryptedWallets in
      in_world (set "wallets" (JStr (JSON_stringify (JArr wallets)))) ;;
      in_world (set "isWalletLocked" (JStr "false")) ;;
      (match wallets with
       | first :: _ =>
           let! activeWalletId := in_world (get "activeWalletId") in
           if negb (truthy activeWalletId) then
             let! address := lift_res (get_field first "address") in
             in_world (set "activeWalletId" address)
           else ret ()
       | [] => ret ()
       end) ;;
      ret wallets.

Definition unlockWallets (password : string) : M World (list JsVal) :=
  try_catch
    (zoom (fun w => mkFrame w []) (fun f _ => world f) (unlock_body password))
    (fun error =>
       emit (ConsoleError "WalletManager unlock error:" [] (Some error)) ;;
       throw error).

Definition lockWallets : M World () :=
  try_catch
    (remove "wallets" ;;
     remove "activeWalletId" ;;
     set "isWalletLocked" (JStr "true"))
    (fun error =>
       emit (ConsoleError "WalletManager lock error:" [] (Some error)) ;;
       throw error).

Definition isWalletSetup : M World bool :=
  try_catch
    (let! hasPassword := get "walletPasswordHash" in
     ret (truthy hasPassword))
    (fun error =>
       emit (ConsoleError "Failed to check wallet setup:" [] (Some error)) ;;
       ret false).

Definition shouldShowUnlockScreen : M World bool :=
  try_catch
    (let! hasPassword := get "walletPasswordHash" in
     let! isLocked := get "isWalletLocked" in
     let! hasWallets := get "wallets" in
     if negb (truthy hasPassword) then ret false
     else ret (negb (strict_eq_str isLocked "false") || negb (truthy hasWallets)))
    (fun error =>
       emit (ConsoleError "Failed to check unlock status:" [] (Some error)) ;;
       ret false).

Definition isWalletLocked : M World bool :=
  try_catch
    (let! hasPassword := get "walletPasswordHash" in
     let! isLocked := get "isWalletLocked" in
     if negb (truthy hasPassword) then ret false
     else ret (negb (strict_eq_str isLocked "false")))
    (fun error =>
       emit (ConsoleError "Failed to check lock status:" [] (Some error)) ;;
       ret false).

End WithCollaborators.

End WalletManager.

(** ** The screens a surface can render *)

(** One constructor per component returned by the [render] of [PopupApp] and
    [App], with the props that depend on state. *)
Inductive Screen : Type :=
| Loading
| DAppConnection (connectionRequest : JsVal) (wallets : JsVal) (selectedWallet : JsVal)
| DAppRequestHandler (contractRequest : JsVal) (wallets : JsVal) (selectedWallet : JsVal)
| ConnectionApproval (request : JsVal) (wallet : JsVal)
| UnlockWallet
| WelcomeScreen
| WalletDashboard (wallet : JsVal) (wallets : JsVal).

(** [ws.find(w => w.address === id)] on an array. *)
Fixpoint find_by_address (ws : list JsVal) (id : JsVal) : Res JsVal :=
  match ws with
  | [] => Ok JUndefined
  | w :: rest =>
      match get_field w "address" with
      | Throw e => Throw e
      | Ok a => if strict_eq a id then Ok w else find_by_address rest id
      end
  end.

(** ** The popup entry point (PopupApp.tsx, [PopupApp])

    The mount effect, the unlock handler, the four decision handlers, the
    expand-view action, [addWallet], [switchWallet], [disconnectWallet] and
    the render.  The keyboard effect and [removeWallet] are left out. *)

Module PopupApp.
Import ExtensionStorageManager.

(** What the component reads from its window. *)
Record Window : Type := mkWindow {
  pathname : string;
  innerWidth : Z;
  chrome_tabs : bool
}.

(** The [useState] cells. *)
Record State : Type := mkState {
  wallet : JsVal;
  wallets : list JsVal;
  isLocked : bool;
  isLoading : bool;
  isPopupMode : bool;
  connectionRequest : JsVal;
  contractRequest : JsVal
}.

Definition initial : State :=
  {| wallet := JNull; wallets := []; isLocked := false; isLoading := true;
     isPopupMode := true; connectionRequest := JNull; contractRequest := JNull |}.

Record Page : Type := mkPage {
  ui : State;
  host : World
}.

Definition in_host {A} (m : M World A) : M Page A :=
  zoom host (fun w p => mkPage (ui p) w) m.

Definition set_ui (f : State -> State) : M Page () :=
  modify (fun p => mkPage (f (ui p)) (host p)).

Definition setWallet (v : JsVal) : M Page () :=
  set_ui (fun s => mkState v (wallets s) (isLocked s) (isLoading s) (isPopupMode s)
                     (connectionRequest s) (contractRequest s)).
Definition setWallets (v : list JsVal) : M Page () :=
  set_ui (fun s => mkState (wallet s) v (isLocked s) (isLoading s) (isPopupMode s)
                     (connectionRequest s) (contractRequest s)).
Definition setIsLocked (v : bool) : M Page () :=
  set_ui (fun s => mkState (wallet s) (wallets s) v (isLoading s) (isPopupMode s)
                     (connectionRequest s) (contractRequest s)).
Definition with_isLoading (v : bool) (s : State) : State :=
  mkState (wallet s) (wallets s) (isLocked s) v (isPopupMode s)
    (connectionRequest s) (contractRequest s).
Definition setIsLoading (v : bool) : M Page () := set_ui (with_isLoading v).
Definition setIsPopupMode (v : bool) : M Page () :=
  set_ui (fun s => mkState (wallet s) (wallets s) (isLocked s) (isLoading s) v
                     (connectionRequest s) (contractRequest s)).
Definition setConnectionRequest (v : JsVal) : M Page () :=
  set_ui (fun s => mkState (wallet s) (wallets s) (isLocked s) (isLoading s) (isPopupMode s)
                     v (contractRequest s)).
Definition setContractRequest (v : JsVal) : M Page () :=
  set_ui (fun s => mkState (wallet s) (wallets s) (isLocked s) (isLoading s) (isPopupMode s)
                     (connectionRequest s) v).

Section WithCodec.

Variable JSON_parse : string -> option JsVal.

#[local] Abbreviation parse := (WalletManager.parse JSON_parse).

(** [typeof v === 'string' ? JSON.parse(v) : v] *)
Definition parse_if_string (v : JsVal) : Res JsVal :=
  match v with
  | JStr s => parse s
  | _ => Ok v
  end.

(** The locals [loadedWallets] and [activeWallet] of [loadInitialData]; an
    assignment made before a statement of the [try] block throws is kept. *)
Record Locals : Type := mkLocals {
  loadedWallets : list JsVal;
  activeWallet : JsVal
}.

(** The statements of the [try] block guarded by [if (storedWallets)]. *)
Definition select_wallets (storedWallets activeWalletId : JsVal) : M Locals () :=
  let! parsedWallets := lift_res (parse_if_string storedWallets) in
  match parsedWallets with
  | JArr items =>
      modify (fun l => mkLocals items (activeWallet l)) ;;
      match items with
      | first :: _ =>
          modify (fun l => mkLocals (loadedWallets l) first) ;;
          if truthy activeWalletId then
            let! foundWallet := lift_res (find_by_address items activeWalletId) in
            if truthy foundWallet then
              modify (fun l => mkLocals (loadedWallets l) foundWallet)
            else ret ()
          else ret ()
      | [] => ret ()
      end
  | _ => ret ()
  end.

(** Reading one pending request on mount: a stored string is parsed, any
    other truthy value is taken as it is; a string that does not parse is
    reported and its store entry removed. *)
Definition load_pending (key label : string) (setRequest : JsVal -> M Page ()) : M Page () :=
  let! pendingRequest := in_host (get key) in
  if truthy pendingRequest then
    try_catch
      (let! req := lift_res (parse_if_string pendingRequest) in
       setRequest req)
      (fun error =>
         in_host (emit (ConsoleError label [] (Some error))) ;;
         in_host (remove key))
  else ret ().

(** The second half of the mount effect: ask the wallet manager whether to
    gate, and load the wallets only if not. *)
Definition load_wallets : M Page () :=
  let! shouldShowUnlock := in_host WalletManager.shouldShowUnlockScreen in
  if shouldShowUnlock then
    setIsLocked true ;;
    setIsLoading false
  else
    let! storedWallets := in_host (get "wallets") in
    let! activeWalletId := in_host (get "activeWalletId") in
    let '(outcome, locals) :=
      if truthy storedWallets then
        select_wallets storedWallets activeWalletId (mkLocals [] JNull)
      else (Ok (), mkLocals [] JNull) in
    match outcome with
    | Throw error =>
        in_host (emit (ConsoleError "Failed to parse wallets:" [] (Some error)))
    | Ok _ => ret ()
    end ;;
    setWallets (loadedWallets locals) ;;
    setWallet (activeWallet locals) ;;
    setIsLocked false.

(** The mount effect, [loadInitialData].  [ExtensionStorageManager.init()] is
    taken to have completed. *)
Definition loadInitialData (win : Window) : M Page () :=
  try_finally
    (try_catch
       (let isPopup :=
          bool_decide (is_Some (String.index 0 "popup.html" (pathname win)))
          || (innerWidth win <=? 500) in
        setIsPopupMode isPopup ;;
        load_pending "pendingConnectionRequest" "Failed to parse connection request:"
          setConnectionRequest ;;
        load_pending "pendingContractRequest" "Failed to parse contract request:"
          setContractRequest ;;
        load_wallets)
       (fun error =>
          in_host (emit (ConsoleError "PopupApp: Failed to load wallet data:" [] (Some error)))))
    (fun p => mkPage (with_isLoading false (ui p)) (host p)).

End WithCodec.

Definition handleUnlock (unlockedWallets : list JsVal) : M Page () :=
  setWallets unlockedWallets ;;
  setIsLocked false ;;
  match unlockedWallets with
  | first :: _ => setWallet first
  | [] => ret ()
  end.

Definition openExpandedView (win : Window) : M Page () :=
  if chrome_tabs win then in_host (emit (TabsCreate "index.html")) else ret ().

Definition handleConnectionApprove (selectedWallet : JsVal) : M Page () :=
  let! request := gets (fun p => connectionRequest (ui p)) in
  if negb (truthy request) then ret ()
  else
    let! origin := lift_res (get_field request "origin") in
    let! address := lift_res (get_field selectedWallet "address") in
    in_host (emit (SendMessage (JObj [("type", JStr "CONNECTION_RESULT"); ("origin", origin);
                                      ("approved", JBool true); ("address", address)]))) ;;
    in_host (remove "pendingConnectionRequest") ;;
    in_host (emit WindowClose).

Definition handleConnectionReject : M Page () :=
  let! request := gets (fun p => connectionRequest (ui p)) in
  if negb (truthy request) then ret ()
  else
    let! origin := lift_res (get_field request "origin") in
    in_host (emit (SendMessage (JObj [("type", JStr "CONNECTION_RESULT"); ("origin", origin);
                                      ("approved", JBool false)]))) ;;
    in_host (remove "pendingConnectionRequest") ;;
    in_host (emit WindowClose).

Definition handleContractApprove (result : JsVal) : M Page () :=
  let! request := gets (fun p => contractRequest (ui p)) in
  if negb (truthy request) then ret ()
  else
    let! origin := lift_res (get_field request "origin") in
    in_host (emit (SendMessage (JObj [("type", JStr "CONTRACT_RESULT"); ("origin", origin);
                                      ("approved", JBool true); ("result", result)]))) ;;
    in_host (remove "pendingContractRequest") ;;
    in_host (emit WindowClose).

Definition handleContractReject (error : JsVal) : M Page () :=
  let! request := gets (fun p => contractRequest (ui p)) in
  if negb (truthy request) then ret ()
  else
    let! origin := lift_res (get_field request "origin") in
    in_host (emit (SendMessage (JObj [("type", JStr "CONTRACT_RESULT"); ("origin", origin);
                                      ("approved", JBool false); ("error", error)]))) ;;
    in_host (remove "pendingContractRequest") ;;
    in_host (emit WindowClose).

Section WithStringify.

Variable JSON_stringify : JsVal -> string.


End WithStringify.


(** [disconnectWallet]: lock through the wallet manager, then clear the
    component. *)
Definition disconnectWallet : M Page () :=
  try_catch
    (in_host WalletManager.lockWallets ;;
     setWallet JNull ;;
     setWallets [] ;;
     setIsLocked true)
    (fun error => in_host (emit (ConsoleError "Failed to lock wallet:" [] (Some error)))).

(** The component's return value. *)
Definition render (s : State) : Screen :=
  if isLoading s then Loading
  else if truthy (connectionRequest s) then
    DAppConnection (connectionRequest s) (JArr (wallets s)) (wallet s)
  else if truthy (contractRequest s) then
    DAppRequestHandler (contractRequest s) (JArr (wallets s)) (wallet s)
  else if isLocked s then UnlockWallet
  else if negb (truthy (wallet s)) then WelcomeScreen
  else WalletDashboard (wallet s) (JArr (wallets s)).

End PopupApp.

(** ** The tab entry point (PopupApp.tsx, second unit: [App])

    The effects of the first render, the unlock handler, [disconnectWallet]
    and the render.  The [storage] listener and the handlers that add, switch
    and remove wallets are left out. *)

Module App.

(** The tab page's host: [localStorage], the query string of its URL, and its
    observable effects. *)
Record Host : Type := mkHost {
  localStorage : gmap string string;
  search : gmap string string;
  effects : list Effect
}.

Record State : Type := mkState {
  wallet : JsVal;
  wallets : JsVal;
  isLocked : bool;
  connectionRequest : JsVal
}.

Definition initial : State :=
  {| wallet := JNull; wallets := JArr []; isLocked := false; connectionRequest := JNull |}.

Record Page : Type := mkPage {
  ui : State;
  host : Host
}.

Definition set_ui (f : State -> State) : M Page () :=
  modify (fun p => mkPage (f (ui p)) (host p)).

Definition setWallet (v : JsVal) : M Page () :=
  set_ui (fun s => mkState v (wallets s) (isLocked s) (connectionRequest s)).
Definition setWallets (v : JsVal) : M Page () :=
  set_ui (fun s => mkState (wallet s) v (isLocked s) (connectionRequest s)).
Definition setIsLocked (v : bool) : M Page () :=
  set_ui (fun s => mkState (wallet s) (wallets s) v (connectionRequest s)).
Definition setConnectionRequest (v : JsVal) : M Page () :=
  set_ui (fun s => mkState (wallet s) (wallets s) (isLocked s) v).

(** [localStorage.getItem(key)]: a string or null. *)
Definition getItem (key : string) : M Page JsVal :=
  gets (fun p => from_option JStr JNull (localStorage (host p) !! key)).

(** [urlParams.get(name)]: a string or null. *)
Definition urlParam (name : string) : M Page JsVal :=
  gets (fun p => from_option JStr JNull (search (host p) !! name)).

Definition console_error (label : string) (error : JsError) : M Page () :=
  modify (fun p => mkPage (ui p)
                     (mkHost (localStorage (host p)) (search (host p))
                        (effects (host p) ++ [ConsoleError label [] (Some error)]))).

Section WithBuiltins.

Variable JSON_parse : string -> option JsVal.
Variable decodeURIComponent : string -> option string.
(** [v > 0] for a JSON value [v] other than the length of an array or string. *)
Variable gt_zero : JsVal -> bool.

#[local] Abbreviation parse := (WalletManager.parse JSON_parse).

Definition decode (v : JsVal) : Res JsVal :=
  match v with
  | JStr s =>
      match decodeURIComponent s with
      | Some d => Ok (JStr d)
      | None => Throw (URIError "URI malformed")
      end
  | _ => Ok v
  end.

(** The first effect: a connection request carried by the URL. *)
Definition read_url_request : M Page () :=
  let! action := urlParam "action" in
  if strict_eq_str action "connect" then
    let! origin := urlParam "origin" in
    let! appName := urlParam "appName" in
    let! appIcon := urlParam "appIcon" in
    let! permissions := urlParam "permissions" in
    if truthy origin && truthy permissions then
      let! origin' := lift_res (decode origin) in
      let! appName' := lift_res (decode (or_else appName (JStr ""))) in
      let! appIcon' := lift_res (decode (or_else appIcon (JStr ""))) in
      let! decoded := lift_res (decode permissions) in
      let! permissions' :=
        lift_res (match decoded with JStr s => parse s | _ => Ok decoded end) in
      setConnectionRequest
        (JObj [("origin", origin'); ("appName", appName'); ("appIcon", appIcon');
               ("permissions", permissions')])
    else ret ()
  else ret ().

(** [v.length > 0] *)
Definition length_positive (v : JsVal) : Res bool :=
  match v with
  | JUndefined | JNull => Throw (TypeError "Cannot read properties of null (reading 'length')")
  | JArr items => Ok (bool_decide (items <> []))
  | JStr s => Ok (negb (String.eqb s ""))
  | JObj fs => Ok (gt_zero (default JUndefined (assoc "length" fs)))
  | JBool _ | JNum _ => Ok false
  end.

(** [v[0]] on a value whose [length] was read. *)
Definition first_of (v : JsVal) : JsVal :=
  match v with
  | JArr (first :: _) => first
  | JStr (String c _) => JStr (String c EmptyString)
  | JObj fs => default JUndefined (assoc "0" fs)
  | _ => JUndefined
  end.

(** [v.find(w => w.address === id)]: only an array has [find]. *)
Definition find_wallet (v id : JsVal) : Res JsVal :=
  match v with
  | JArr items => find_by_address items id
  | _ => Throw (TypeError "find is not a function")
  end.

(** [let activeWallet = ws[0]; if (id) { found = ws.find(..); if (found)
    activeWallet = found } setWallet(activeWallet)], shared by
    [checkWalletStatus] and [handleUnlock]. *)
Definition select_active (ws : JsVal) (activeWalletId : JsVal) : M Page () :=
  let! activeWallet :=
    (if truthy activeWalletId then
       let! foundWallet := lift_res (find_wallet ws activeWalletId) in
       ret (if truthy foundWallet then foundWallet else first_of ws)
     else ret (first_of ws)) in
  setWallet activeWallet.

(** The third effect. *)
Definition checkWalletStatus : M Page () :=
  try_catch
    (let! walletLocked := getItem "isWalletLocked" in
     let! hasPassword := getItem "walletPasswordHash" in
     if truthy hasPassword && negb (strict_eq_str walletLocked "false") then
       setIsLocked true
     else
       let! storedWallets := getItem "wallets" in
       let! activeWalletId := getItem "activeWalletId" in
       match storedWallets with
       | JStr s =>
           if truthy storedWallets then
             let! parsedWallets := lift_res (parse s) in
             setWallets parsedWallets ;;
             let! nonempty := lift_res (length_positive parsedWallets) in
             if nonempty then select_active parsedWallets activeWalletId else ret ()
           else ret ()
       | _ => ret ()
       end)
    (fun error => console_error "Failed to check wallet status:" error).

(** The effects of the first render, in declaration order.  The second one
    only registers the [storage] listener.  An exception that escapes an effect
    is returned: React then unmounts the tree, so the state beside a [Throw]
    is not one the tab renders (see [shown]). *)
Definition mount : M Page () :=
  read_url_request ;;
  checkWalletStatus.

Definition handleUnlock (unlockedWallets : list JsVal) : M Page () :=
  setWallets (JArr unlockedWallets) ;;
  setIsLocked false ;;
  match unlockedWallets with
  | _ :: _ =>
      let! activeWalletId := getItem "activeWalletId" in
      select_active (JArr unlockedWallets) activeWalletId
  | [] => ret ()
  end.

End WithBuiltins.

Definition render (s : State) : Screen :=
  if truthy (connectionRequest s) && truthy (wallet s) && negb (isLocked s) then
    ConnectionApproval (connectionRequest s) (wallet s)
  else if isLocked s then UnlockWallet
  else if negb (truthy (wallet s)) then WelcomeScreen
  else WalletDashboard (wallet s) (wallets s).

(** What the tab has on screen once the effects of its first render have run:
    the screen of the state they leave, or nothing when one of them threw and
    the tree was unmounted. *)
Definition shown (mounted : Res () * Page) : option Screen :=
  match fst mounted with
  | Ok _ => Some (render (ui (snd mounted)))
  | Throw _ => None
  end.

(** [localStorage.setItem(key, value)] with a string value, and
    [localStorage.removeItem(key)]. *)
Definition setItem (key value : string) : M Page () :=
  modify (fun p => mkPage (ui p)
                     (mkHost (<[key := value]> (localStorage (host p))) (search (host p))
                        (effects (host p)))).

Definition removeItem (key : string) : M Page () :=
  modify (fun p => mkPage (ui p)
                     (mkHost (delete key (localStorage (host p))) (search (host p))
                        (effects (host p)))).

Definition disconnectWallet : M Page () :=
  setItem "isWalletLocked" "true" ;;
  removeItem "wallets" ;;
  removeItem "activeWalletId" ;;
  setWallet JNull ;;
  setWallets (JArr []) ;;
  setIsLocked true.

End App.

(** ** The page-side SDK (octra-sdk.js, class [OctraSDK]) *)

Module OctraSDK.

(** A request made of the provider [window.octra]. *)
Inductive ProviderCall : Type :=
| CallContractMethod (contractAddress methodName : JsVal) (kind : string)
    (params options : JsVal)
| SendTransaction (tx : JsVal)
| GetBalance (address : JsVal)
| SignMessage (message : JsVal)
| GetNetwork.

(** The provider is the wallet's injected object: all the SDK knows of it is
    what each request resolves to or rejects with. *)
Definition Provider : Type := ProviderCall -> Res JsVal.

Inductive Event : Type :=
| Request (call : ProviderCall)
| Warn (label : string) (error : JsError).

(** The fields of the instance, and what it has done so far. *)
Record Sdk : Type := mkSdk {
  connectedAddress : JsVal;
  isConnected : bool;
  provider : option Provider;
  events : list Event
}.

Definition record (e : Event) : M Sdk () :=
  modify (fun s => mkSdk (connectedAddress s) (isConnected s) (provider s) (events s ++ [e])).

(** [await this.provider.method(args)] *)
Definition request (call : ProviderCall) : M Sdk JsVal :=
  let! p := gets provider in
  match p with
  | None => throw (TypeError "Cannot read properties of null")
  | Some answer => record (Request call) ;; lift_res (answer call)
  end.

(** [const { name = dflt } = options] *)
Definition field_or (options : JsVal) (name : string) (dflt : JsVal) : Res JsVal :=
  match get_field options name with
  | Ok JUndefined => Ok dflt
  | r => r
  end.

(** [new Error(error.message || fallback)] *)
Definition rethrow {A} (fallback : string) (error : JsError) : M Sdk A :=
  throw (Error (if String.eqb (message error) "" then fallback else message error)).

Definition not_connected : string := "Not connected to wallet. Please connect first.".

Definition viewCall (options : JsVal) : M Sdk JsVal :=
  let! connected := gets isConnected in
  if negb connected then throw (Error not_connected)
  else
    let! contractAddress := lift_res (get_field options "contractAddress") in
    let! methodName := lift_res (get_field options "methodName") in
    let! params := lift_res (field_or options "params" (JArr [])) in
    let! description := lift_res (field_or options "description" JNull) in
    if negb (truthy contractAddress) || negb (truthy methodName) then
      throw (Error "contractAddress and methodName are required")
    else
      try_catch
        (let! result :=
           request (CallContractMethod contractAddress methodName "view" params
                      (JObj [("description", description)])) in
         ret (JObj [("success", JBool true); ("result", result); ("type", JStr "view")]))
        (rethrow "View call failed").

Definition callContract (options : JsVal) : M Sdk JsVal :=
  let! connected := gets isConnected in
  if negb connected then throw (Error not_connected)
  else
    let! contractAddress := lift_res (get_field options "contractAddress") in
    let! methodName := lift_res (get_field options "methodName") in
    let! params := lift_res (field_or options "params" (JArr [])) in
    let! value := lift_res (field_or options "value" (JStr "0")) in
    let! gasLimit := lift_res (field_or options "gasLimit" (JNum 100000)) in
    let! gasPrice := lift_res (field_or options "gasPrice" (JNum (1 # 1000))) in
    let! description := lift_res (field_or options "description" JNull) in
    if negb (truthy contractAddress) || negb (truthy methodName) then
      throw (Error "contractAddress and methodName are required")
    else
      try_catch
        (let! result :=
           request (CallContractMethod contractAddress methodName "call" params
                      (JObj [("value", value); ("gasLimit", gasLimit);
                             ("gasPrice", gasPrice); ("description", description)])) in
         let! txHash := lift_res (get_field result "txHash") in
         let! hash := (if truthy txHash then ret txHash
                       else lift_res (get_field result "hash")) in
         ret (JObj [("success", JBool true); ("txHash", hash); ("type", JStr "call")]))
        (rethrow "Contract call failed").

Definition sendTransaction (options : JsVal) : M Sdk JsVal :=
  let! connected := gets isConnected in
  if negb connected then throw (Error not_connected)
  else
    let! to := lift_res (get_field options "to") in
    let! amount := lift_res (get_field options "amount") in
    let! msg := lift_res (field_or options "message" JNull) in
    if negb (truthy to) || negb (truthy amount) then
      throw (Error "to and amount are required")
    else
      try_catch
        (let! result :=
           request (SendTransaction (JObj [("to", to); ("amount", amount); ("message", msg)])) in
         let! hash := lift_res (get_field result "hash") in
         let! txHash := (if truthy hash then ret hash
                         else lift_res (get_field result "txHash")) in
         ret (JObj [("success", JBool true); ("txHash", txHash)]))
        (rethrow "Transaction failed").

Definition getBalance (address : JsVal) : M Sdk JsVal :=
  let! connected := gets isConnected in
  if negb connected then throw (Error not_connected)
  else
    try_catch
      (let! own := gets connectedAddress in
       let! result := request (GetBalance (or_else address own)) in
       let! balance := lift_res (get_field result "balance") in
       ret (or_else balance result))
      (rethrow "Failed to get balance").

Definition signMessage (msg : JsVal) : M Sdk JsVal :=
  let! connected := gets isConnected in
  if negb connected then throw (Error not_connected)
  else
    try_catch
      (let! result := request (SignMessage msg) in
       let! signature := lift_res (get_field result "signature") in
       ret (or_else signature result))
      (rethrow "Failed to sign message").

Definition default_network : JsVal :=
  JObj [("chainId", JStr "0x1"); ("networkId", JStr "octra-mainnet");
        ("name", JStr "Octra Network")].

Definition getNetwork : M Sdk JsVal :=
  let! p := gets provider in
  let! answered :=
    match p with
    | Some _ =>
        try_catch
          (let! network := request GetNetwork in ret (Some network))
          (fun error => record (Warn "Failed to get network info:" error) ;; ret None)
    | None => ret None
    end in
  match answered with
  | Some network => ret network
  | None => ret default_network
  end.

(** The provider's session methods, [connect(permissions)] and
    [disconnect()]: what each resolves to or rejects with.  Calls to them are
    not entered in [events], which keeps the data requests. *)
Record Handshake : Type := mkHandshake {
  connect_answer : JsVal -> Res JsVal;
  disconnect_answer : Res JsVal
}.

(** The instance the constructor leaves once provider detection has settled:
    not connected, with the provider that was found, if any. *)
Definition fresh (detected : option Provider) : Sdk := mkSdk JNull false detected [].

(** [isAvailable()], once provider detection has settled. *)
Definition isAvailable : M Sdk bool := gets (fun s => bool_decide (is_Some (provider s))).

Definition getConnectedAddress : M Sdk JsVal := gets connectedAddress.

Definition isWalletConnected : M Sdk bool := gets isConnected.

Definition getWalletInfo : M Sdk JsVal :=
  gets (fun s => JObj [("isConnected", JBool (isConnected s));
                       ("address", connectedAddress s);
                       ("isAvailable", JBool (bool_decide (is_Some (provider s))))]).

Definition set_connected (b : bool) : M Sdk () :=
  modify (fun s => mkSdk (connectedAddress s) b (provider s) (events s)).

Definition set_address (a : JsVal) : M Sdk () :=
  modify (fun s => mkSdk a (isConnected s) (provider s) (events s)).

Section WithHandshake.

Variable octra : Handshake.
(** [window.location.hostname] *)
Variable hostname : string.
(** [v > 0] for a JSON value [v] other than the length of an array or string. *)
Variable gt_zero : JsVal -> bool.

(** [connect(options = {})] *)
Definition connect (options : JsVal) : M Sdk JsVal :=
  let! extensionAvailable := isAvailable in
  if negb extensionAvailable then
    throw (Error "Octra wallet extension is not installed or not available")
  else
    let given := match options with JUndefined => JObj [] | _ => options end in
    let! appName := lift_res (field_or given "appName" (JStr hostname)) in
    let! appIcon := lift_res (field_or given "appIcon" JNull) in
    let! permissions := lift_res (field_or given "permissions" (JArr [JStr "view_address"])) in
    try_catch
      (let! result := lift_res (connect_answer octra permissions) in
       set_connected true ;;
       let! address := lift_res (get_field result "address") in
       set_address address ;;
       ret (JObj [("success", JBool true); ("address", address); ("appName", appName)]))
      (rethrow "Connection failed").

(** [disconnect()] *)
Definition disconnect : M Sdk () :=
  let! p := gets provider in
  match p with
  | Some _ =>
      try_catch
        (lift_res (disconnect_answer octra) ;; ret ())
        (fun error => record (Warn "Disconnect error:" error))
  | None => ret ()
  end ;;
  set_connected false ;;
  set_address JNull.

(** The listeners [setupProviderListeners] registers. *)
Definition on_connect (data : JsVal) : M Sdk () :=
  set_connected true ;;
  let! address := lift_res (get_field data "address") in
  set_address address.

Definition on_disconnect : M Sdk () :=
  set_connected false ;;
  set_address JNull.

Definition on_accountsChanged (accounts : JsVal) : M Sdk () :=
  let! nonempty := lift_res (App.length_positive gt_zero accounts) in
  if nonempty then
    set_address (App.first_of accounts) ;;
    set_connected true
  else
    set_address JNull ;;
    set_connected false.

(** Everything that can happen to an instance: a call of one of its methods
    or an event from the provider. *)
Inductive Action : Type :=
| CallConnect (options : JsVal)
| CallDisconnect
| CallViewCall (options : JsVal)
| CallCallContract (options : JsVal)
| CallSendTransaction (options : JsVal)
| CallGetBalance (address : JsVal)
| CallSignMessage (msg : JsVal)
| CallGetNetwork
| EventConnect (data : JsVal)
| EventDisconnect
| EventAccountsChanged (accounts : JsVal).

(** The instance after an action, whether the action returned or threw. *)
Definition after (s : Sdk) (a : Action) : Sdk :=
  match a with
  | CallConnect options => snd (connect options s)
  | CallDisconnect => snd (disconnect s)
  | CallViewCall options => snd (viewCall options s)
  | CallCallContract options => snd (callContract options s)
  | CallSendTransaction options => snd (sendTransaction options s)
  | CallGetBalance address => snd (getBalance address s)
  | CallSignMessage msg => snd (signMessage msg s)
  | CallGetNetwork => snd (getNetwork s)
  | EventConnect data => snd (on_connect data s)
  | EventDisconnect => snd (on_disconnect s)
  | EventAccountsChanged accounts => snd (on_accountsChanged accounts s)
  end.

End WithHandshake.

End OctraSDK.

(** ** Regular expressions

    The two patterns of the name-service utilities are anchored at both ends
    and use character classes, literals, [+] and [{n}] only.  They are kept
    as regular expressions and run by a matcher on derivatives; a string is a
    sequence of code units, of which the classes below accept ASCII ones
    only. *)

Module Regex.

Inductive Re : Type :=
| Never
| Eps
| Class (p : Ascii.ascii -> bool)
| Seq (r1 r2 : Re)
| Alt (r1 r2 : Re)
| Star (r : Re).

Fixpoint nullable (r : Re) : bool :=
  match r with
  | Never => false
  | Eps => true
  | Class _ => false
  | Seq r1 r2 => nullable r1 && nullable r2
  | Alt r1 r2 => nullable r1 || nullable r2
  | Star _ => true
  end.

Fixpoint deriv (c : Ascii.ascii) (r : Re) : Re :=
  match r with
  | Never | Eps => Never
  | Class p => if p c then Eps else Never
  | Seq r1 r2 =>
      if nullable r1 then Alt (Seq (deriv c r1) r2) (deriv c r2)
      else Seq (deriv c r1) r2
  | Alt r1 r2 => Alt (deriv c r1) (deriv c r2)
  | Star r1 => Seq (deriv c r1) (Star r1)
  end.

(** [/^r$/.test(input)] *)
Fixpoint test (r : Re) (input : string) : bool :=
  match input with
  | EmptyString => nullable r
  | String c rest => test (deriv c r) rest
  end.

(** [r+] *)
Definition plus (r : Re) : Re := Seq r (Star r).

(** [r{n}] *)
Fixpoint times (n : nat) (r : Re) : Re :=
  match n with
  | O => Eps
  | S n' => Seq r (times n' r)
  end.

(** A literal, each character standing for itself. *)
Fixpoint lit (s : string) : Re :=
  match s with
  | EmptyString => Eps
  | String c rest => Seq (Class (Ascii.eqb c)) (lit rest)
  end.

(** [lo-hi] inside a class. *)
Definition range (lo hi c : Ascii.ascii) : bool :=
  ((Ascii.nat_of_ascii lo <=? Ascii.nat_of_ascii c) && (Ascii.nat_of_ascii c <=? Ascii.nat_of_ascii hi))%nat.

(** A class that lists its members. *)
Fixpoint one_of (members : string) (c : Ascii.ascii) : bool :=
  match members with
  | EmptyString => false
  | String m rest => Ascii.eqb m c || one_of rest c
  end.

(** The strings a pattern denotes. *)
Inductive Matches : Re -> string -> Prop :=
| MEps : Matches Eps ""
| MClass p c : p c = true -> Matches (Class p) (String c "")
| MSeq r1 r2 s1 s2 : Matches r1 s1 -> Matches r2 s2 -> Matches (Seq r1 r2) (s1 +:+ s2)
| MAltL r1 r2 s : Matches r1 s -> Matches (Alt r1 r2) s
| MAltR r1 r2 s : Matches r2 s -> Matches (Alt r1 r2) s
| MStar0 r : Matches (Star r) ""
| MStarS r s1 s2 : Matches r s1 -> Matches (Star r) s2 -> Matches (Star r) (s1 +:+ s2).

(** Every character of the string is in the class. *)
Fixpoint all_chars (p : Ascii.ascii -> bool) (s : string) : bool :=
  match s with
  | EmptyString => true
  | String c rest => p c && all_chars p rest
  end.

End Regex.

(** ** ONS utilities *)

Module ONS.

Import Stdlib.Strings.Ascii Regex.

(** What the resolver, the console and the network see. *)
Inductive NetEvent : Type :=
| Fetch (url : string)
| ConsoleErr (label : string) (error : JsError).

Definition Net : Type := list NetEvent.

Definition log (e : NetEvent) : M Net () := modify (fun n => n ++ [e]).

(** A [Response]: [ok], [status], and what [json()] resolves to or rejects
    with. *)
Record Response : Type := mkResponse {
  ok : bool;
  status : Z;
  json : Res JsVal
}.

Definition quote : string :=
  String (Ascii.Ascii false true false false false true false false) EmptyString.

(** [[a-zA-Z0-9.-]] *)
Definition domain_char (c : Ascii.ascii) : bool :=
  (range "a" "z" c || range "A" "Z" c || range "0" "9" c
   || Ascii.eqb "." c || Ascii.eqb "-" c)%char.

(** [[123456789ABCDEFGHJKLMNPQRSTUVWXYZabcdefghijkmnopqrstuvwxyz]] *)
Definition base58 : Ascii.ascii -> bool :=
  one_of "123456789ABCDEFGHJKLMNPQRSTUVWXYZabcdefghijkmnopqrstuvwxyz".

(** [/^[a-zA-Z0-9.-]+\.oct$/] *)
Definition onsRegex : Re := Seq (plus (Class domain_char)) (lit ".oct").

(** [/^oct[1-9A-HJ-NP-Za-km-z]{44}$/], the class written out as in the
    source. *)
Definition addressRegex : Re := Seq (lit "oct") (times 44 (Class base58)).

Definition isONSDomain (input : string) : bool := test onsRegex input.

Definition isOctraAddress (input : string) : bool := test addressRegex input.

Inductive Kind : Type := address | ons | invalid.

Record Validation : Type := mkValidation {
  isValid : bool;
  type : Kind;
  error : option string
}.

Record Resolution : Type := mkResolution {
  resolved : JsVal;
  resolved_type : Kind;
  resolved_error : option string
}.

(** [s.endsWith(suffix)] *)
Definition endsWith (s suffix : string) : bool :=
  let n := String.length s in
  let m := String.length suffix in
  (m <=? n)%nat && String.eqb (String.substring (n - m) m s) suffix.

(** [s.slice(0, -k)] *)
Definition slice_off (s : string) (k : nat) : string :=
  String.substring 0 (String.length s - k) s.

Section WithPlatform.

(** [String.prototype.trim] *)
Variable trim : string -> string.
(** [fetch(url, {method: 'GET', ...})]: the response, or a rejection. *)
Variable fetch : string -> Res Response.
(** [import.meta.env.VITE_ONS_RESOLVER_URL || 'http://localhost:3001'] *)
Variable ONS_RESOLVER_URL : string.
(** A number in a template literal. *)
Variable show : Z -> string.

Definition validateRecipientInput (input : string) : Validation :=
  if String.eqb input "" || (String.length (trim input) =? 0)%nat then
    mkValidation false invalid (Some "Input is required")
  else
    let trimmedInput := trim input in
    if isOctraAddress trimmedInput then mkValidation true address None
    else if isONSDomain trimmedInput then mkValidation true ons None
    else
      mkValidation false invalid
        (Some ("Invalid address format. Must be exactly 47 characters starting with "
               +:+ quote +:+ "oct" +:+ quote +:+ " or ONS domain ending with "
               +:+ quote +:+ ".oct" +:+ quote)).

Definition resolve_url (domain : string) : string :=
  let cleanDomain := if endsWith domain ".oct" then slice_off domain 4 else domain in
  ONS_RESOLVER_URL +:+ "/api/domains/resolve/" +:+ cleanDomain.

Definition resolveONSDomain (domain : string) : M Net JsVal :=
  try_catch
    (let url := resolve_url domain in
     log (Fetch url) ;;
     let! response := lift_res (fetch url) in
     if negb (ok response) then
       if status response =? 404 then ret JNull
       else throw (Error ("ONS resolution failed: " +:+ show (status response)))
     else
       let! data := lift_res (json response) in
       let! verified := lift_res (get_field data "verified") in
       let! active :=
         (if truthy verified then
            let! state := lift_res (get_field data "status") in
            ret (strict_eq_str state "active")
          else ret false) in
       if active then lift_res (get_field data "address") else ret JNull)
    (fun error => log (ConsoleErr "Error resolving ONS domain:" error) ;; ret JNull).

Definition resolveRecipientAddress (input : string) : M Net Resolution :=
  let validation := validateRecipientInput input in
  if negb (isValid validation) then ret (mkResolution JNull invalid (error validation))
  else
    match type validation with
    | address => ret (mkResolution (JStr (trim input)) address None)
    | ons =>
        try_catch
          (let! resolvedAddress := resolveONSDomain (trim input) in
           if truthy resolvedAddress then ret (mkResolution resolvedAddress ons None)
           else ret (mkResolution JNull ons (Some "ONS domain not found or not verified")))
          (fun _ => ret (mkResolution JNull ons (Some "Failed to resolve ONS domain")))
    | invalid => ret (mkResolution JNull invalid (Some "Unknown validation error"))
    end.

End WithPlatform.

End ONS.

(** ** Faucet service

    The five requests of the faucet service.  [formatTimeRemaining] computes
    on floating-point numbers and is left out. *)

Module Faucet.

Import ONS.

Section WithPlatform.

(** [fetch(url)] and [fetch(url, {method: 'POST', ..., body})]: the response,
    or a rejection. *)
Variable fetch : string -> option string -> Res Response.
(** [import.meta.env.VITE_API_URL || 'http://localhost:3001'] *)
Variable API_BASE_URL : string.
Variable JSON_stringify : JsVal -> string.

(** The body shared by [sendFaucetTransaction] and
    [sendPrivateFaucetTransaction], which differ in the path, the fallback
    error text and the console label. *)
Definition claim (path fallback label : string)
    (recipientAddress recaptchaToken : string) : M Net JsVal :=
  try_catch
    (let url := API_BASE_URL +:+ path in
     let body := JSON_stringify (JObj [("address", JStr recipientAddress);
                                       ("recaptchaToken", JStr recaptchaToken)]) in
     log (Fetch url) ;;
     let! response := lift_res (fetch url (Some body)) in
     let! data := lift_res (json response) in
     if ok response then
       let! txHash := lift_res (get_field data "txHash") in
       ret (JObj [("success", JBool true); ("txHash", txHash)])
     else
       let! error := lift_res (get_field data "error") in
       let! nextClaimTime := lift_res (get_field data "nextClaimTime") in
       ret (JObj [("success", JBool false); ("error", or_else error (JStr fallback));
                  ("nextClaimTime", nextClaimTime)]))
    (fun error =>
       log (ConsoleErr label error) ;;
       ret (JObj [("success", JBool false);
                  ("error", JStr "Network error. Please try again later.")])).

Definition sendFaucetTransaction : string -> string -> M Net JsVal :=
  claim "/api/faucet/claim" "Claim failed" "Faucet claim error:".

Definition sendPrivateFaucetTransaction : string -> string -> M Net JsVal :=
  claim "/api/faucet/claim-private" "Private claim failed" "Private faucet claim error:".

(** The body shared by [getFaucetStats], [getPrivateFaucetStats] and
    [checkEligibility]. *)
Definition query (path failure label : string) (fallback : JsVal) : M Net JsVal :=
  try_catch
    (let url := API_BASE_URL +:+ path in
     log (Fetch url) ;;
     let! response := lift_res (fetch url None) in
     if ok response then lift_res (json response)
     else throw (Error failure))
    (fun error => log (ConsoleErr label error) ;; ret fallback).

Definition no_stats (faucetBalance : JsVal) : JsVal :=
  JObj [("totalClaimed", JNum 0); ("totalUsers", JNum 0); ("totalTransactions", JNum 0);
        ("faucetBalance", faucetBalance); ("lastClaim", JNull)].

Definition getFaucetStats : M Net JsVal :=
  query "/api/faucet/stats" "Failed to fetch stats" "Failed to fetch faucet stats:"
    (no_stats (JNum 0)).

Definition getPrivateFaucetStats : M Net JsVal :=
  query "/api/faucet/stats-private" "Failed to fetch private stats"
    "Failed to fetch private faucet stats:" (no_stats (JStr "Private OCT")).

Definition not_eligible : JsVal :=
  JObj [("eligible", JBool false); ("reason", JStr "Unable to check eligibility")].

Definition checkEligibility (address : string) : M Net JsVal :=
  query ("/api/faucet/eligibility/" +:+ address) "Failed to check eligibility"
    "Failed to check eligibility:" not_eligible.

End WithPlatform.

End Faucet.

(** ** Request Registry *)

Module Registry.

Inductive Kind : Type := Connection | Contract.

#[global] Instance Kind_eq_dec : EqDecision Kind.
Proof. solve_decision. Defined.

Definition store_key (k : Kind) : string :=
  match k with
  | Connection => "pendingConnectionRequest"
  | Contract => "pendingContractRequest"
  end.

Record PendingRequest : Type := mkRequest {
  id : nat;
  createdAt : Z;
  kind : Kind;
  payload : JsVal
}.

Inductive Outcome : Type := Approved | Rejected | Abandoned.

Inductive SubmitResult : Type :=
| Submitted (id : nat)
| RequestConflict.

(** Modelled from the spec: the Request Registry (section 4.3; the background
    coordinator that owns it is not part of the sources).  Requests are
    persisted keyed by kind under the store keys of section 6; ids are handed
    out in sequence. *)
Record Registry : Type := mkRegistry {
  pending : gmap string PendingRequest;
  next_id : nat
}.

Definition empty : Registry := mkRegistry ∅ 0.

(** Modelled from the spec: [peek(kind)], a pure read. *)
Definition peek (k : Kind) (r : Registry) : option PendingRequest :=
  pending r !! store_key k.

(** Modelled from the spec: [submit(kind, payload) -> id] fails with
    [RequestConflict] if a request of [kind] is already pending, and otherwise
    persists the new request keyed by kind. *)
Definition submit (k : Kind) (p : JsVal) (now : Z) (r : Registry) : SubmitResult * Registry :=
  match peek k r with
  | Some _ => (RequestConflict, r)
  | None =>
      (Submitted (next_id r),
       mkRegistry (<[store_key k := mkRequest (next_id r) now k p]> (pending r))
         (S (next_id r)))
  end.

(** Modelled from the spec: [resolve(id, outcome)] clears the entry and is a
    no-op if it is already cleared. *)
Definition resolve (i : nat) (o : Outcome) (r : Registry) : Registry :=
  mkRegistry (filter (fun kv => id kv.2 <> i) (pending r)) (next_id r).

(** The operations Background issues, and the requests that are unresolved
    after a run of them: accepted by [submit], not yet named by a [resolve]. *)
Inductive Op : Type :=
| Submit (k : Kind) (p : JsVal) (now : Z)
| Resolve (i : nat) (o : Outcome).

Definition step (st : Registry * list PendingRequest) (op : Op)
  : Registry * list PendingRequest :=
  let '(r, unresolved) := st in
  match op with
  | Submit k p now =>
      match submit k p now r with
      | (Submitted i, r') => (r', unresolved ++ [mkRequest i now k p])
      | (RequestConflict, r') => (r', unresolved)
      end
  | Resolve i o => (resolve i o r, filter (fun q => id q <> i) unresolved)
  end.

Definition run (ops : list Op) : Registry * list PendingRequest :=
  foldl step (empty, []) ops.

Definition of_kind (k : Kind) (l : list PendingRequest) : list PendingRequest :=
  filter (fun q => kind q = k) l.

End Registry.

(** ** Surface Policy *)

Module SurfacePolicy.

Inductive RequestKind : Type := Connection | ViewCall | StateChangingCall.

#[global] Instance RequestKind_eq_dec : EqDecision RequestKind.
Proof. solve_decision. Defined.

(** What [openSurface] is handed: a kind it knows, or anything else. *)
Inductive KindTag : Type :=
| Known (k : RequestKind)
| Unrecognized (tag : string).

(** Modelled from the spec: the static table of section 4.4 (the background
    coordinator that opens surfaces is not part of the sources): every request
    kind opens the popup surface. *)
Definition table : list (RequestKind * Surface) :=
  [(Connection, PopupSurface); (ViewCall, PopupSurface); (StateChangingCall, PopupSurface)].

Definition lookup (k : RequestKind) : option Surface :=
  snd <$> List.find (fun row => bool_decide (fst row = k)) table.

Inductive OpenResult : Type :=
| Opened (s : Surface)
| PolicyError.

(** Modelled from the spec: [openSurface(kind)] looks up the table and invokes
    the host's window-creation primitive; an unrecognized kind is a
    [PolicyError], not a fallback to the tab surface. *)
Definition openSurface (tag : KindTag) (w : World) : OpenResult * World :=
  match tag with
  | Known k =>
      match lookup k with
      | Some s => (Opened s, mkWorld (storage w) (trace w ++ [CreateWindow s]))
      | None => (PolicyError, w)
      end
  | Unrecognized _ => (PolicyError, w)
  end.

End SurfacePolicy.

(** ** Sample collaborators

    Small stand-ins for the external collaborators, used to run the model on
    concrete stores: a verifier that compares the password with the recorded
    hash, a cipher that is the identity on strings (as the placeholder of
    [App.addWallet] stores them), and a JSON codec for the texts that occur
    below. *)

Module Sample.

Definition dq : string :=
  String (Ascii.Ascii false true false false false true false false) EmptyString.

Definition wallet (address : string) : JsVal := JObj [("address", JStr address)].

Definition wallet_json (address : string) : string :=
  "{" +:+ dq +:+ "address" +:+ dq +:+ ":" +:+ dq +:+ address +:+ dq +:+ "}".

Definition verifyPassword (password : string) (hash salt : JsVal) : bool :=
  strict_eq_str hash password.

Definition decryptWalletData (data : JsVal) (password : string) : Res string :=
  match data with
  | JStr s => Ok s
  | _ => Throw (Error "Decryption failed")
  end.

Definition JSON_parse (s : string) : option JsVal :=
  if String.eqb s "[]" then Some (JArr [])
  else if String.eqb s "null" then Some JNull
  else if String.eqb s (wallet_json "oct1alice") then Some (wallet "oct1alice")
  else if String.eqb s (wallet_json "oct1bob") then Some (wallet "oct1bob")
  else None.

Definition text_of (v : JsVal) : string :=
  match v with
  | JObj [(_, JStr a)] => wallet_json a
  | _ => "null"
  end.

Definition JSON_stringify (v : JsVal) : string :=
  match v with
  | JArr items => "[" +:+ String.concat "," (map text_of items) +:+ "]"
  | _ => text_of v
  end.

Definition decodeURIComponent (s : string) : option string := Some s.

Definition gt_zero (v : JsVal) : bool :=
  match v with
  | JNum q => Qle_bool 1 q
  | _ => false
  end.

(** A stored encrypted record, as [addWallet] writes it. *)
Definition record (address : string) (encryptedData : JsVal) : JsVal :=
  JObj [("address", JStr address); ("encryptedData", encryptedData)].

(** A set-up wallet with password "hunter2": one record that decrypts, one
    whose payload is damaged, one more that decrypts. *)
Definition locked_store : World :=
  mkWorld
    (<["encryptedWallets" :=
         JArr [record "oct1alice" (JStr (wallet_json "oct1alice"));
               record "oct1carol" (JNum 7);
               record "oct1bob" (JStr (wallet_json "oct1bob"))]]>
       (<["isWalletLocked" := JStr "true"]>
          (<["walletPasswordSalt" := JStr "c2FsdA"]>
             (<["walletPasswordHash" := JStr "hunter2"]> ∅))))
    [].

(** A provider that is installed but cannot reach the network, and an SDK
    instance that has not connected to it. *)
Definition provider : OctraSDK.Provider :=
  fun call =>
    match call with
    | OctraSDK.GetNetwork => Throw (Error "Extension context invalidated")
    | OctraSDK.GetBalance _ => Ok (JObj [("balance", JStr "12.5")])
    | _ => Ok (JObj [("txHash", JStr "abc123")])
    end.

Definition fresh_sdk : OctraSDK.Sdk :=
  OctraSDK.mkSdk JNull false (Some provider) [].

End Sample.

(** ** Sample platform

    Stand-ins for the platform of the utilities and of the SDK, used to run
    the model on concrete inputs: a codec that also reads the one-wallet list
    [addWallet] writes, a [trim] for blanks, a name resolver that knows one
    domain, a provider that rejects every request and a wallet whose
    [connect] resolves with nothing. *)

Module SamplePlatform.

Definition JSON_parse (s : string) : option JsVal :=
  if String.eqb s (Sample.JSON_stringify (JArr [Sample.wallet "oct1alice"]))
  then Some (JArr [Sample.wallet "oct1alice"])
  else Sample.JSON_parse s.

Fixpoint trim_start (s : string) : string :=
  match s with
  | String c rest => if Ascii.eqb c (Ascii.ascii_of_nat 32) then trim_start rest else s
  | EmptyString => EmptyString
  end.

Definition trim (s : string) : string :=
  String.rev (trim_start (String.rev (trim_start s))).

Definition show (z : Z) : string := pretty.pretty z.

Definition alice_address : string := "oct7Gh2mK9pQ4rS6tU8vW1xY3zA5bC7dE9fG2hJ4kL6mN8p".

Definition alice_record : JsVal :=
  JObj [("domain", JStr "alice.oct"); ("address", JStr alice_address);
        ("verified", JBool true); ("status", JStr "active")].

Definition fetch (url : string) : Res ONS.Response :=
  if String.eqb url "http://localhost:3001/api/domains/resolve/alice"
  then Ok (ONS.mkResponse true 200 (Ok alice_record))
  else Ok (ONS.mkResponse false 404 (Throw (SyntaxError "Unexpected end of JSON input"))).

Definition offline : OctraSDK.Provider := fun _ => Throw (Error "").

Definition connected_sdk : OctraSDK.Sdk :=
  OctraSDK.mkSdk (JStr "oct1alice") true (Some offline) [].

Definition silent_wallet : OctraSDK.Handshake :=
  OctraSDK.mkHandshake (fun _ => Ok JNull) (Ok JUndefined).

(** A locked tab opened on a connection request of a dapp. *)
Definition tab_with_url_request : App.Host :=
  App.mkHost
    (<["isWalletLocked" := "true"]> (<["walletPasswordHash" := "hunter2"]> ∅))
    (<["permissions" := "[]"]>
       (<["origin" := "https://dapp.example"]> (<["action" := "connect"]> ∅)))
    [].


(** The sample store with an encrypted-wallets entry that is not JSON. *)
Definition store_with_damaged_list : World :=
  mkWorld (<["encryptedWallets" := JStr "{oops"]> (storage Sample.locked_store)) [].

(** The sample store with a null element between two records that decrypt. *)
Definition store_with_null_record : World :=
  mkWorld
    (<["encryptedWallets" :=
         JArr [Sample.record "oct1alice" (JStr (Sample.wallet_json "oct1alice"));
               JNull;
               Sample.record "oct1bob" (JStr (Sample.wallet_json "oct1bob"))]]>
       (storage Sample.locked_store))
    [].

(** The sample store with one record, whose payload decrypts to the text
    [null]. *)
Definition store_with_null_wallet : World :=
  mkWorld
    (<["encryptedWallets" := JArr [Sample.record "oct1dave" (JStr "null")]]>
       (storage Sample.locked_store))
    [].


End SamplePlatform.

(** ** Vocabulary of the properties *)

(** [AuthError]: the two rejections of [unlockWallets] for an absent or a
    wrong password. *)
Definition AuthError (e : JsError) : Prop :=
  e = Error "No password set" \/ e = Error "Invalid password".

(** [NotConnectedError] *)
Definition NotConnectedError (e : JsError) : Prop :=
  e = Error "Not connected to wallet. Please connect first.".

(** A reader of the lock state is safe when, on every store with a recorded
    password whose decrypted wallet list is missing, it answers locked. *)
Definition locked_when_wallets_missing (reader : M World bool) : Prop :=
  forall w : World,
    truthy (read w "walletPasswordHash") = true ->
    storage w !! "wallets" = None ->
    fst (reader w) = Ok true.

(** A store caught between the two writes of an unlock, were the flag to land
    first: password recorded, flag already "false", no wallet list yet. *)
Definition partial_unlock : World :=
  mkWorld (<["isWalletLocked" := JStr "false"]>
             (<["walletPasswordHash" := JStr "5e884898"]> ∅)) [].

(** Null and undefined: the values a property read throws on. *)
Definition nullish (v : JsVal) : bool :=
  match v with JUndefined | JNull => true | _ => false end.

Section UnlockVocabulary.

Variable decryptWalletData : JsVal -> string -> Res string.
Variable JSON_parse : string -> option JsVal.

(** What one stored record decrypts to, on its own. *)
Definition decrypted (password : string) (record : JsVal) : Res JsVal :=
  match get_field record "encryptedData" with
  | Throw e => Throw e
  | Ok data =>
      match decryptWalletData data password with
      | Throw e => Throw e
      | Ok text => WalletManager.parse JSON_parse text
      end
  end.

(** The wallets of the records that decrypt, in stored order. *)
Definition survivors (password : string) (records : list JsVal) : list JsVal :=
  omap (fun r => match decrypted password r with Ok v => Some v | Throw _ => None end)
    records.

(** One console line per record that does not decrypt, in stored order. *)
Definition failure_log (password : string) (records : list JsVal) : list Effect :=
  omap (fun r =>
          match decrypted password r with
          | Ok _ => None
          | Throw e =>
              Some (ConsoleError "Failed to decrypt wallet:"
                      [match get_field r "address" with Ok a => a | Throw _ => JUndefined end]
                      (Some e))
          end)
    records.

(** The encrypted records the store holds: an array, or a non-empty string
    that parses to one. *)
Definition stored_records (w : World) : option (list JsVal) :=
  match read w "encryptedWallets" with
  | JArr records => Some records
  | JStr s =>
      if String.eqb s "" then None
      else match JSON_parse s with
           | Some (JArr records) => Some records
           | _ => None
           end
  | _ => None
  end.

End UnlockVocabulary.

(** Two popup pages that show the same thing over stores that agree
    everywhere except possibly under [key]; they may also differ in what they
    have logged or sent. *)
Definition alike (key : string) (p q : PopupApp.Page) : Prop :=
  PopupApp.ui p = PopupApp.ui q /\
  delete key (storage (PopupApp.host p)) = delete key (storage (PopupApp.host q)).

(** A computation whose result, state updates and store updates depend
    neither on the entry under [key] nor on what was logged or sent before. *)
Definition blind_to (key : string) {A} (m : M PopupApp.Page A) : Prop :=
  forall p q, alike key p q -> fst (m p) = fst (m q) /\ alike key (snd (m p)) (snd (m q)).

(** A computation that leaves the entry under [key] as it found it. *)
Definition keeps (key : string) {A} (m : M PopupApp.Page A) : Prop :=
  forall p, storage (PopupApp.host (snd (m p))) !! key = storage (PopupApp.host p) !! key.

(** The page [p] over a store with no entry under [key]. *)
Definition without (key : string) (p : PopupApp.Page) : PopupApp.Page :=
  PopupApp.mkPage (PopupApp.ui p) (set_storage (delete key) (PopupApp.host p)).

Definition is_pending_key (key : string) : Prop :=
  key = "pendingConnectionRequest" \/ key = "pendingContractRequest".

(** The removal of corrupted requests in its unrestricted form: whenever the
    entry under a pending-request key is a string that does not parse, the
    entry is gone after the mount effect. *)
Definition corrupted_request_removed (JSON_parse : string -> option JsVal) : Prop :=
  forall (win : PopupApp.Window) (p : PopupApp.Page) (key s : string),
    is_pending_key key ->
    storage (PopupApp.host p) !! key = Some (JStr s) ->
    JSON_parse s = None ->
    storage (PopupApp.host (snd (PopupApp.loadInitialData JSON_parse win p))) !! key = None.

(** A popup window, and a freshly mounted popup over a store whose pending
    contract request is the empty string. *)
Definition popup_window : PopupApp.Window := PopupApp.mkWindow "/popup.html" 400 true.

Definition empty_request_page : PopupApp.Page :=
  PopupApp.mkPage PopupApp.initial (mkWorld {["pendingContractRequest" := JStr ""]} []).

(** A freshly mounted popup over a store whose pending contract request was
    cut short. *)
Definition corrupt_request_page : PopupApp.Page :=
  PopupApp.mkPage PopupApp.initial
    (mkWorld {["pendingContractRequest" := JStr "{origin:"]} []).

(** The scenario of the issue report: the wallet is set up and locked, and a
    page has asked for the state-changing call [claimToken]. *)
Definition claim_request : JsVal :=
  JObj [("origin", JStr "https://dapp.example");
        ("contractAddress", JStr "octBUHw585BrAMPMLQvGuWx4vqEsybYH9N7a3WNj1WBwrDn");
        ("methodName", JStr "claimToken");
        ("kind", JStr "call");
        ("params", JArr [])].

Definition locked_with_request : World :=
  mkWorld
    (<["pendingContractRequest" := claim_request]>
       (<["isWalletLocked" := JStr "true"]>
          (<["walletPasswordHash" := JStr "hunter2"]> ∅)))
    [].

Definition popup_on_request : PopupApp.Page :=
  PopupApp.mkPage PopupApp.initial locked_with_request.

(** The same for the tab page, whose store is [localStorage]. *)
Definition tab_on_request : App.Page :=
  App.mkPage App.initial
    (App.mkHost
       (<["pendingContractRequest" :=
            "{" +:+ Sample.dq +:+ "methodName" +:+ Sample.dq +:+ ":"
            +:+ Sample.dq +:+ "claimToken" +:+ Sample.dq +:+ "}"]>
          (<["isWalletLocked" := "true"]>
             (<["walletPasswordHash" := "hunter2"]> ∅)))
       ∅ []).

Definition unlocked_wallets : list JsVal := [Sample.wallet "oct1alice"].

(** What every reachable state of the Registry satisfies: the unresolved
    requests are exactly the stored entries, each under the key of its kind,
    none of them twice, all with ids already handed out. *)
Definition registry_inv (st : Registry.Registry * list Registry.PendingRequest) : Prop :=
  let '(r, unresolved) := st in
  NoDup unresolved /\
  (forall q, q ∈ unresolved <->
             Registry.pending r !! Registry.store_key (Registry.kind q) = Some q) /\
  (forall key q, Registry.pending r !! key = Some q ->
                 key = Registry.store_key (Registry.kind q)) /\
  (forall q, q ∈ unresolved -> (Registry.id q < Registry.next_id r)%nat).

(** A popup computation during which no tab surface is put on screen. *)
Definition opens_no_tab {A} (m : M PopupApp.Page A) : Prop :=
  forall p,
    tabs_opened (trace (PopupApp.host (snd (m p))))
    = tabs_opened (trace (PopupApp.host p)).

(** The request the popup holds after mount for a store entry [stored]:
    the entry itself, or what it parses to if it is a string; nothing if the
    entry is missing or does not parse. *)
Definition pending_value (JSON_parse : string -> option JsVal) (stored : JsVal) : JsVal :=
  if truthy stored then
    match PopupApp.parse_if_string JSON_parse stored with
    | Ok v => v
    | Throw _ => JNull
    end
  else JNull.

(** What [shouldShowUnlockScreen] answers on a store. *)
Definition gate (w : World) : bool :=
  truthy (read w "walletPasswordHash")
  && (negb (strict_eq_str (read w "isWalletLocked") "false")
      || negb (truthy (read w "wallets"))).

(** An [encryptedWallets] entry from which no record can be taken: missing or
    falsy, a string that does not parse or parses to something that cannot be
    walked, or any other value that is not an array. *)
Definition unusable_records (JSON_parse : string -> option JsVal) (v : JsVal) : Prop :=
  match v with
  | JArr _ => False
  | JStr s =>
      s = "" \/
      match JSON_parse s with
      | None => True
      | Some parsed => match iterate parsed with Throw _ => True | Ok _ => False end
      end
  | _ => True
  end.

(** The wallets the popup loads from a [wallets] entry and a pointer: the
    locals of [loadInitialData] when its [try] block has run. *)
Definition selection (JSON_parse : string -> option JsVal) (stored pointer : JsVal)
  : PopupApp.Locals :=
  if truthy stored then
    snd (PopupApp.select_wallets JSON_parse stored pointer (PopupApp.mkLocals [] JNull))
  else PopupApp.mkLocals [] JNull.

(** Console output, as opposed to what reaches Background or the window. *)
Definition is_log (e : Effect) : bool :=
  match e with ConsoleError _ _ _ => true | _ => false end.

(** A popup computation that does nothing observable but write to the
    console. *)
Definition only_logs {A} (m : M PopupApp.Page A) : Prop :=
  forall p, exists log,
    trace (PopupApp.host (snd (m p))) = trace (PopupApp.host p) ++ log /\
    Forall (fun e => is_log e = true) log.

(** A popup computation that writes nothing to the store and removes nothing
    but pending-request entries. *)
Definition only_drops_requests {A} (m : M PopupApp.Page A) : Prop :=
  forall p key,
    storage (PopupApp.host (snd (m p))) !! key = storage (PopupApp.host p) !! key \/
    (is_pending_key key /\ storage (PopupApp.host (snd (m p))) !! key = None).

(** The connection state of an SDK instance: what [connect], [disconnect] and
    the provider's events change, and the data operations leave alone. *)
Definition session (s : OctraSDK.Sdk) : JsVal * bool * option OctraSDK.Provider :=
  (OctraSDK.connectedAddress s, OctraSDK.isConnected s, OctraSDK.provider s).

Definition keeps_session {A} (m : M OctraSDK.Sdk A) : Prop :=
  forall s, session (snd (m s)) = session s.

(** An instance that says it is not connected holds no address. *)
Definition no_stale_address (s : OctraSDK.Sdk) : Prop :=
  OctraSDK.isConnected s = false -> OctraSDK.connectedAddress s = JNull.

(** [new Error(error.message || fallback)] as a value. *)
Definition wrapped (fallback : string) (error : JsError) : JsError :=
  Error (if String.eqb (message error) "" then fallback else message error).

(** The field of an object literal, as destructuring reads it. *)
Definition given (fs : list (string * JsVal)) (name : string) : JsVal :=
  default JUndefined (assoc name fs).

(** The resolver answered the request for [url] with the record of a verified,
    active domain whose address is [v]. *)
Definition answered_by (fetch : string -> Res ONS.Response) (url : string) (v : JsVal) : Prop :=
  exists response data verified,
    fetch url = Ok response /\ ONS.ok response = true /\ ONS.json response = Ok data
    /\ get_field data "verified" = Ok verified /\ truthy verified = true
    /\ get_field data "status" = Ok (JStr "active")
    /\ get_field data "address" = Ok v.

Definition is_console_err (e : ONS.NetEvent) : bool :=
  match e with ONS.ConsoleErr _ _ => true | ONS.Fetch _ => false end.

(** ** Stepping through a computation *)

Lemma bind_ok {S A B} (m : M S A) (k : A -> M S B) (s : S) (a : A) :
  fst (m s) = Ok a -> bind m k s = k a (snd (m s)).
Proof. unfold bind. destruct (m s) as [r s']. simpl. by intros ->. Qed.

(** ** Properties of the Wallet Access Manager *)

Section WalletManagerFacts.

Variable verifyPassword : string -> JsVal -> JsVal -> bool.
Variable decryptWalletData : JsVal -> string -> Res string.
Variable JSON_parse : string -> option JsVal.
Variable JSON_stringify : JsVal -> string.

#[local] Abbreviation unlockWallets :=
  (WalletManager.unlockWallets verifyPassword decryptWalletData JSON_parse JSON_stringify).

Lemma isWalletSetup_eval (w : World) :
  WalletManager.isWalletSetup w = (Ok (truthy (read w "walletPasswordHash")), w).
Proof. reflexivity. Qed.

Lemma shouldShowUnlockScreen_eval (w : World) :
  WalletManager.shouldShowUnlockScreen w =
  (Ok (truthy (read w "walletPasswordHash")
       && (negb (strict_eq_str (read w "isWalletLocked") "false")
           || negb (truthy (read w "wallets")))), w).
Proof.
  unfold WalletManager.shouldShowUnlockScreen, try_catch, bind,
    ExtensionStorageManager.get, gets, ret.
  destruct (truthy (read w "walletPasswordHash")); reflexivity.
Qed.

Lemma isWalletLocked_eval (w : World) :
  WalletManager.isWalletLocked w =
  (Ok (truthy (read w "walletPasswordHash")
       && negb (strict_eq_str (read w "isWalletLocked") "false")), w).
Proof.
  unfold WalletManager.isWalletLocked, try_catch, bind,
    ExtensionStorageManager.get, gets, ret.
  destruct (truthy (read w "walletPasswordHash")); reflexivity.
Qed.

Lemma strict_eq_str_true (v : JsVal) (lit : string) :
  strict_eq_str v lit = true <-> v = JStr lit.
Proof.
  destruct v; simpl; try (split; [discriminate | intros [=]]).
  rewrite String.eqb_eq. split; [intros -> | intros [=]]; done.
Qed.

Lemma strict_eq_str_false (v : JsVal) (lit : string) :
  strict_eq_str v lit = false <-> v <> JStr lit.
Proof.
  rewrite <- strict_eq_str_true. destruct (strict_eq_str v lit); split; intros; done.
Qed.

(** C4. [shouldShowUnlockScreen] (the spec's [shouldGate]) answers true exactly
    when setup is complete, as [isWalletSetup] reports it from the recorded
    password hash, and either the lock flag is not the explicit "false" or the
    store holds no decrypted wallet list; with no recorded password it answers
    false. Neither call changes the store. *)
Theorem shouldShowUnlockScreen_spec (w : World) :
  exists gate setup : bool,
    WalletManager.shouldShowUnlockScreen w = (Ok gate, w) /\
    WalletManager.isWalletSetup w = (Ok setup, w) /\
    setup = truthy (read w "walletPasswordHash") /\
    (gate = true <->
       setup = true /\
       (read w "isWalletLocked" <> JStr "false" \/ truthy (read w "wallets") = false)) /\
    (setup = false -> gate = false).
Proof.
  eexists _, _. split; [apply shouldShowUnlockScreen_eval |].
  split; [apply isWalletSetup_eval |]. split; [reflexivity |].
  rewrite andb_true_iff, orb_true_iff, !negb_true_iff, strict_eq_str_false.
  split; [reflexivity |]. intros ->. reflexivity.
Qed.

(** C7, as amended. [shouldShowUnlockScreen], the reader that gates the
    surface, answers locked on every store with a recorded password whose
    wallet list is missing or whose flag is not the explicit "false", so a
    flag written before the list is read as still locked; it answers unlocked
    only while the flag is "false" and a wallets entry is present.
    [isWalletLocked] derives its answer from the password and the flag alone.
    With no recorded password neither of them answers locked. *)
Theorem lock_readers_default :
  locked_when_wallets_missing WalletManager.shouldShowUnlockScreen /\
  (forall w : World,
     truthy (read w "walletPasswordHash") = true ->
     read w "isWalletLocked" <> JStr "false" ->
     fst (WalletManager.shouldShowUnlockScreen w) = Ok true /\
     fst (WalletManager.isWalletLocked w) = Ok true) /\
  (forall w : World,
     fst (WalletManager.shouldShowUnlockScreen w) = Ok false ->
     truthy (read w "walletPasswordHash") = false \/
     (read w "isWalletLocked" = JStr "false" /\ truthy (read w "wallets") = true)) /\
  (forall w : World,
     fst (WalletManager.isWalletLocked w) = Ok false <->
     truthy (read w "walletPasswordHash") = false \/ read w "isWalletLocked" = JStr "false") /\
  (forall w : World,
     truthy (read w "walletPasswordHash") = false ->
     fst (WalletManager.shouldShowUnlockScreen w) = Ok false).
Proof.
  split; [| split; [| split; [| split]]].
  - intros w Hpw Hnone. rewrite shouldShowUnlockScreen_eval. simpl.
    rewrite Hpw. unfold read at 2. rewrite Hnone. simpl.
    by rewrite orb_true_r.
  - intros w Hpw Hflag. apply strict_eq_str_false in Hflag.
    rewrite shouldShowUnlockScreen_eval, isWalletLocked_eval. simpl.
    by rewrite Hpw, Hflag.
  - intros w. rewrite shouldShowUnlockScreen_eval. simpl. intros [= Hgate].
    apply andb_false_iff in Hgate as [Hpw | Hrest]; [by left | right].
    apply orb_false_iff in Hrest as [Hflag Hws].
    apply negb_false_iff in Hflag, Hws.
    by apply strict_eq_str_true in Hflag.
  - intros w. rewrite isWalletLocked_eval. simpl. split.
    + intros [= Hlocked].
      apply andb_false_iff in Hlocked as [Hpw | Hflag]; [by left | right].
      apply negb_false_iff in Hflag. by apply strict_eq_str_true in Hflag.
    + intros [Hpw | Hflag].
      * by rewrite Hpw.
      * apply strict_eq_str_true in Hflag. rewrite Hflag. simpl.
        by rewrite andb_false_r.
  - intros w Hpw. rewrite shouldShowUnlockScreen_eval. simpl. by rewrite Hpw.
Qed.

(** The checks [unlockWallets] makes before it touches anything. *)
Lemma unlock_body_rejected (password : string) (f : WalletManager.Frame) :
  let w := WalletManager.world f in
  let hash := read w "walletPasswordHash" in
  let salt := read w "walletPasswordSalt" in
  truthy hash && truthy salt && verifyPassword password hash salt = false ->
  WalletManager.unlock_body verifyPassword decryptWalletData JSON_parse JSON_stringify
    password f =
  (Throw (if truthy hash && truthy salt then Error "Invalid password"
          else Error "No password set"), f).
Proof.
  destruct f as [w ds]. simpl. intros Hrej.
  unfold WalletManager.unlock_body, bind, WalletManager.in_world, zoom,
    ExtensionStorageManager.get, gets, throw. simpl.
  destruct (truthy (read w "walletPasswordHash")); simpl; [| done].
  destruct (truthy (read w "walletPasswordSalt")); simpl; [| done].
  simpl in Hrej. by rewrite Hrej.
Qed.

(** The loop body on a record that can be read: it never throws; it pushes
    the wallet or logs the failure. *)
Lemma decrypt_one_eval (password : string) (r : JsVal) (f : WalletManager.Frame) :
  nullish r = false ->
  WalletManager.decrypt_one decryptWalletData JSON_parse password r f =
  (Ok (),
   WalletManager.mkFrame
     (mkWorld (storage (WalletManager.world f))
        (trace (WalletManager.world f) ++ failure_log decryptWalletData JSON_parse password [r]))
     (WalletManager.decryptedWallets f ++ survivors decryptWalletData JSON_parse password [r])).
Proof.
  intros Hr. destruct f as [[st tr] ds].
  assert (exists data, get_field r "encryptedData" = Ok data) as [data Hdata]
    by (destruct r; try discriminate; eexists; reflexivity).
  assert (exists a, get_field r "address" = Ok a) as [a Ha]
    by (destruct r; try discriminate; eexists; reflexivity).
  unfold WalletManager.decrypt_one, survivors, failure_log, decrypted, try_catch, bind,
    lift_res, WalletManager.push, WalletManager.in_world, zoom, emit, modify.
  simpl. rewrite Hdata, Ha.
  destruct (decryptWalletData data password) as [text | e]; simpl.
  - destruct (WalletManager.parse JSON_parse text) as [v | e]; simpl;
      by rewrite ?app_nil_r.
  - by rewrite app_nil_r.
Qed.

Lemma survivors_cons (password : string) (r : JsVal) (rs : list JsVal) :
  survivors decryptWalletData JSON_parse password (r :: rs) =
  survivors decryptWalletData JSON_parse password [r]
  ++ survivors decryptWalletData JSON_parse password rs.
Proof.
  unfold survivors. simpl.
  by destruct (decrypted decryptWalletData JSON_parse password r).
Qed.

Lemma failure_log_cons (password : string) (r : JsVal) (rs : list JsVal) :
  failure_log decryptWalletData JSON_parse password (r :: rs) =
  failure_log decryptWalletData JSON_parse password [r]
  ++ failure_log decryptWalletData JSON_parse password rs.
Proof.
  unfold failure_log. simpl.
  by destruct (decrypted decryptWalletData JSON_parse password r).
Qed.

(** The whole loop: every record is visited, whatever happened to the ones
    before it. *)
Lemma decrypt_each_eval (password : string) (rs : list JsVal) :
  Forall (fun r => nullish r = false) rs ->
  forall f : WalletManager.Frame,
    WalletManager.decrypt_each decryptWalletData JSON_parse password rs f =
    (Ok (),
     WalletManager.mkFrame
       (mkWorld (storage (WalletManager.world f))
          (trace (WalletManager.world f) ++ failure_log decryptWalletData JSON_parse password rs))
       (WalletManager.decryptedWallets f ++ survivors decryptWalletData JSON_parse password rs)).
Proof.
  induction 1 as [| r rs Hr _ IH]; intros f.
  - destruct f as [[st tr] ds]. simpl. unfold ret. by rewrite !app_nil_r.
  - rewrite (survivors_cons password r rs), (failure_log_cons password r rs).
    cbn [WalletManager.decrypt_each]. unfold bind at 1.
    rewrite decrypt_one_eval by done. rewrite IH.
    cbn [WalletManager.world WalletManager.decryptedWallets storage trace].
    by rewrite <- !app_assoc.
Qed.

Lemma decrypt_stored_eval (password : string) (w : World) (rs : list JsVal) :
  stored_records JSON_parse w = Some rs ->
  Forall (fun r => nullish r = false) rs ->
  truthy (read w "encryptedWallets") = true /\
  WalletManager.decrypt_stored decryptWalletData JSON_parse password
    (read w "encryptedWallets") (WalletManager.mkFrame w []) =
  (Ok (),
   WalletManager.mkFrame
     (mkWorld (storage w) (trace w ++ failure_log decryptWalletData JSON_parse password rs))
     (survivors decryptWalletData JSON_parse password rs)).
Proof.
  intros Hstored Hrs. unfold stored_records in Hstored.
  unfold WalletManager.decrypt_stored, try_catch, bind, lift_res, ret.
  destruct (read w "encryptedWallets") as [| | | | s | items |]; try discriminate.
  - destruct (String.eqb s "") eqn:Hs; [discriminate |].
    unfold WalletManager.parse. simpl. rewrite Hs.
    destruct (JSON_parse s) as [[| | | | | items |] |]; try discriminate.
    injection Hstored as ->. simpl. by rewrite decrypt_each_eval.
  - injection Hstored as ->. simpl. by rewrite decrypt_each_eval.
Qed.

(** The store after the two writes of a successful unlock. *)
Lemma read_after_unlock_writes (st : gmap string JsVal) (tr : list Effect) (a b : JsVal) :
  read (mkWorld (<["isWalletLocked" := b]> (<["wallets" := a]> st)) tr) "activeWalletId"
  = read (mkWorld st tr) "activeWalletId".
Proof. unfold read. simpl. by rewrite !lookup_insert_ne. Qed.

(** What a call with a verified password returns and leaves behind. *)
Lemma unlockWallets_eval (password : string) (w : World) (rs : list JsVal) :
  truthy (read w "walletPasswordHash") = true ->
  truthy (read w "walletPasswordSalt") = true ->
  verifyPassword password (read w "walletPasswordHash") (read w "walletPasswordSalt") = true ->
  stored_records JSON_parse w = Some rs ->
  Forall (fun r => nullish r = false) rs ->
  let kept := survivors decryptWalletData JSON_parse password rs in
  let base := <["isWalletLocked" := JStr "false"]>
                (<["wallets" := JStr (JSON_stringify (JArr kept))]> (storage w)) in
  let tr := trace w ++ failure_log decryptWalletData JSON_parse password rs in
  unlockWallets password w =
  match kept with
  | first :: _ =>
      if truthy (read w "activeWalletId") then (Ok kept, mkWorld base tr)
      else match get_field first "address" with
           | Ok a => (Ok kept, mkWorld (<["activeWalletId" := a]> base) tr)
           | Throw e =>
               (Throw e,
                mkWorld base (tr ++ [ConsoleError "WalletManager unlock error:" [] (Some e)]))
           end
  | [] => (Ok kept, mkWorld base tr)
  end.
Proof.
  intros Hhash Hsalt Hvalid Hstored Hrs kept base tr.
  destruct (decrypt_stored_eval password w rs Hstored Hrs) as [Htruthy Hloop].
  unfold WalletManager.unlockWallets, WalletManager.unlock_body, try_catch, zoom, bind,
    WalletManager.in_world, zoom, ExtensionStorageManager.get, ExtensionStorageManager.set,
    gets, modify, set_storage, throw, ret, lift_res.
  simpl.
  rewrite Hhash, Hsalt, Hvalid. simpl. rewrite Htruthy, Hloop. simpl.
  fold kept. fold tr.
  destruct kept as [| first rest]; [reflexivity |].
  simpl. rewrite read_after_unlock_writes.
  change (read (mkWorld (storage w) tr) "activeWalletId") with (read w "activeWalletId").
  fold base.
  destruct (truthy (read w "activeWalletId")); simpl; [reflexivity |].
  destruct (get_field first "address") as [a | e]; reflexivity.
Qed.

(** X30. With a password that verifies, over stored records none of which is
    null, every record is decrypted on its own: the wallets of all records
    that decrypt survive, in stored order, whatever happened to the records
    around them, and each record that does not decrypt leaves one console
    line and nothing else.  The surviving list and the flag "false" are written to the store;
    if there was no active-wallet pointer and the list is non-empty, the
    pointer becomes the address of its first entry, when that entry is not
    null; no other key changes. *)
Theorem unlockWallets_success (password : string) (w : World) (rs : list JsVal) :
  truthy (read w "walletPasswordHash") = true ->
  truthy (read w "walletPasswordSalt") = true ->
  verifyPassword password (read w "walletPasswordHash") (read w "walletPasswordSalt") = true ->
  stored_records JSON_parse w = Some rs ->
  Forall (fun r => nullish r = false) rs ->
  let kept := survivors decryptWalletData JSON_parse password rs in
  exists (outcome : Res (list JsVal)) (w' : World),
    unlockWallets password w = (outcome, w') /\
    (forall r v, r ∈ rs -> decrypted decryptWalletData JSON_parse password r = Ok v -> v ∈ kept) /\
    (forall before r after, rs = before ++ r :: after ->
       kept = survivors decryptWalletData JSON_parse password before
              ++ survivors decryptWalletData JSON_parse password [r]
              ++ survivors decryptWalletData JSON_parse password after) /\
    (exists tail, trace w' =
       trace w ++ failure_log decryptWalletData JSON_parse password rs ++ tail) /\
    read w' "wallets" = JStr (JSON_stringify (JArr kept)) /\
    read w' "isWalletLocked" = JStr "false" /\
    (forall first rest a,
       kept = first :: rest ->
       truthy (read w "activeWalletId") = false ->
       get_field first "address" = Ok a ->
       read w' "activeWalletId" = a /\ outcome = Ok kept) /\
    (kept = [] \/ truthy (read w "activeWalletId") = true ->
       read w' "activeWalletId" = read w "activeWalletId" /\ outcome = Ok kept) /\
    (forall key, key <> "wallets" -> key <> "isWalletLocked" -> key <> "activeWalletId" ->
       storage w' !! key = storage w !! key).
Proof.
  intros Hhash Hsalt Hvalid Hstored Hrs. cbv zeta.
  pose proof (unlockWallets_eval password w rs Hhash Hsalt Hvalid Hstored Hrs) as Heval.
  cbv zeta in Heval.
  assert (Hindep : forall before r after, rs = before ++ r :: after ->
    survivors decryptWalletData JSON_parse password rs
    = survivors decryptWalletData JSON_parse password before
      ++ survivors decryptWalletData JSON_parse password [r]
      ++ survivors decryptWalletData JSON_parse password after).
  { intros before r after ->. unfold survivors.
    by rewrite omap_app, (omap_app _ [r] after). }
  assert (Hall : forall r v, r ∈ rs ->
    decrypted decryptWalletData JSON_parse password r = Ok v ->
    v ∈ survivors decryptWalletData JSON_parse password rs).
  { intros r v Hin Hdec. apply list_elem_of_omap. exists r. by rewrite Hdec. }
  remember (survivors decryptWalletData JSON_parse password rs) as kept eqn:Hk.
  clear Hk.
  set (base := <["isWalletLocked" := JStr "false"]>
                 (<["wallets" := JStr (JSON_stringify (JArr kept))]> (storage w))) in *.
  assert (Hwallets : forall tr, read (mkWorld base tr) "wallets"
                                = JStr (JSON_stringify (JArr kept))).
  { intros tr. unfold read, base. simpl.
    by rewrite lookup_insert_ne, lookup_insert_eq. }
  assert (Hflag : forall tr, read (mkWorld base tr) "isWalletLocked" = JStr "false").
  { intros tr. unfold read, base. simpl. by rewrite lookup_insert_eq. }
  assert (Hptr : forall tr, read (mkWorld base tr) "activeWalletId" = read w "activeWalletId").
  { intros tr. unfold read, base. simpl. by rewrite !lookup_insert_ne. }
  assert (Hother : forall key, key <> "wallets" -> key <> "isWalletLocked" ->
                               base !! key = storage w !! key).
  { intros key H1 H2. unfold base. by rewrite !lookup_insert_ne. }
  clearbody base.
  destruct kept as [| first rest].
  - eexists _, _. split; [exact Heval |].
    split; [exact Hall |]. split; [exact Hindep |].
    split; [exists []; by rewrite app_nil_r |].
    split; [apply Hwallets |]. split; [apply Hflag |].
    split; [by intros ? ? ? [=] |].
    split; [intros _; split; [apply Hptr | done] |].
    simpl. intros. by apply Hother.
  - destruct (truthy (read w "activeWalletId")) eqn:Hactive.
    + eexists _, _. split; [exact Heval |].
      split; [exact Hall |]. split; [exact Hindep |].
      split; [exists []; by rewrite app_nil_r |].
      split; [apply Hwallets |]. split; [apply Hflag |].
      split; [by intros ? ? ? _ [=] |].
      split; [intros _; split; [apply Hptr | done] |].
      simpl. intros. by apply Hother.
    + destruct (get_field first "address") as [a | e] eqn:Haddr.
      * eexists _, _. split; [exact Heval |].
        split; [exact Hall |]. split; [exact Hindep |].
        split; [exists []; by rewrite app_nil_r |].
        split.
        { unfold read. simpl. rewrite lookup_insert_ne by done. apply (Hwallets []). }
        split.
        { unfold read. simpl. rewrite lookup_insert_ne by done. apply (Hflag []). }
        split.
        { intros first' rest' a' [= <- <-] _ Ha'. rewrite Haddr in Ha'.
          injection Ha' as <-. unfold read. simpl. by rewrite lookup_insert_eq. }
        split; [by intros [? | ?] |].
        simpl. intros key H1 H2 H3. rewrite lookup_insert_ne by done. by apply Hother.
      * eexists _, _. split; [exact Heval |].
        split; [exact Hall |]. split; [exact Hindep |].
        split; [eexists; by rewrite <- app_assoc |].
        split; [apply Hwallets |]. split; [apply Hflag |].
        split; [intros first' rest' a' [= <- <-] _ Ha'; congruence |].
        split; [by intros [? | ?] |].
        simpl. intros. by apply Hother.
Qed.

(** C5. When no password hash or no salt is recorded, or the password does
    not verify, [unlockWallets] rejects with an [AuthError] ("No password set"
    in the first case, "Invalid password" in the second) and the store is what
    it was: the lock flag and the wallet list in particular. *)
Theorem unlockWallets_auth_error (password : string) (w : World) :
  truthy (read w "walletPasswordHash") = false \/
  truthy (read w "walletPasswordSalt") = false \/
  verifyPassword password (read w "walletPasswordHash") (read w "walletPasswordSalt") = false ->
  exists (e : JsError) (w' : World),
    unlockWallets password w = (Throw e, w') /\
    AuthError e /\
    e = (if truthy (read w "walletPasswordHash") && truthy (read w "walletPasswordSalt")
         then Error "Invalid password" else Error "No password set") /\
    storage w' = storage w /\
    read w' "isWalletLocked" = read w "isWalletLocked" /\
    read w' "wallets" = read w "wallets".
Proof.
  intros Hrej.
  assert (Hand : truthy (read w "walletPasswordHash") && truthy (read w "walletPasswordSalt")
                 && verifyPassword password (read w "walletPasswordHash")
                      (read w "walletPasswordSalt") = false).
  { destruct Hrej as [-> | [-> | ->]]; [done | by rewrite andb_false_r | by rewrite andb_false_r]. }
  pose proof (unlock_body_rejected password (WalletManager.mkFrame w []) Hand) as Hbody.
  simpl in Hbody.
  unfold WalletManager.unlockWallets, try_catch, zoom. rewrite Hbody. simpl.
  eexists _, _. split; [reflexivity |]. split.
  - unfold AuthError.
    destruct (truthy (read w "walletPasswordHash") && truthy (read w "walletPasswordSalt"));
      [by right | by left].
  - done.
Qed.

End WalletManagerFacts.

(** On the sample store, a wrong password is rejected and nothing is written. *)
Lemma unlockWallets_auth_error_witness :
  exists (e : JsError) (w' : World),
    WalletManager.unlockWallets Sample.verifyPassword Sample.decryptWalletData
      Sample.JSON_parse Sample.JSON_stringify "letmein" Sample.locked_store = (Throw e, w') /\
    AuthError e /\
    storage w' = storage Sample.locked_store.
Proof.
  destruct (unlockWallets_auth_error Sample.verifyPassword Sample.decryptWalletData
              Sample.JSON_parse Sample.JSON_stringify "letmein" Sample.locked_store)
    as (e & w' & Hrun & Hauth & _ & Hstore & _).
  - right. right. reflexivity.
  - exists e, w'. split; [exact Hrun |]. split; [exact Hauth | exact Hstore].
Defined.

(** On the sample store, the right password brings back the two wallets whose
    records decrypt, skips the damaged one between them, and selects the
    first. *)
Lemma unlockWallets_success_witness :
  exists (outcome : Res (list JsVal)) (w' : World),
    WalletManager.unlockWallets Sample.verifyPassword Sample.decryptWalletData
      Sample.JSON_parse Sample.JSON_stringify "hunter2" Sample.locked_store = (outcome, w') /\
    outcome = Ok [Sample.wallet "oct1alice"; Sample.wallet "oct1bob"] /\
    read w' "isWalletLocked" = JStr "false" /\
    read w' "activeWalletId" = JStr "oct1alice".
Proof.
  destruct (unlockWallets_success Sample.verifyPassword Sample.decryptWalletData
              Sample.JSON_parse Sample.JSON_stringify "hunter2" Sample.locked_store
              [Sample.record "oct1alice" (JStr (Sample.wallet_json "oct1alice"));
               Sample.record "oct1carol" (JNum 7);
               Sample.record "oct1bob" (JStr (Sample.wallet_json "oct1bob"))])
    as (outcome & w' & Hrun & _ & _ & _ & _ & Hflag & Hptr & _).
  - reflexivity.
  - reflexivity.
  - reflexivity.
  - reflexivity.
  - repeat constructor.
  - destruct (Hptr (Sample.wallet "oct1alice") [Sample.wallet "oct1bob"] (JStr "oct1alice"))
      as [Hactive Hout]; [reflexivity | reflexivity | reflexivity |].
    exists outcome, w'. split; [exact Hrun |]. split; [exact Hout |].
    split; [exact Hflag | exact Hactive].
Defined.

(** Where the hypothesis on the records matters: on a null array element the
    [catch] block itself throws while reading [.address], the outer [catch]
    takes over, and the record after it is never visited. *)
Example null_record_ends_the_batch :
  WalletManager.decrypt_stored Sample.decryptWalletData Sample.JSON_parse "hunter2"
    (JArr [JNull; Sample.record "oct1bob" (JStr (Sample.wallet_json "oct1bob"))])
    (WalletManager.mkFrame (mkWorld ∅ []) [])
  = (Ok (),
     WalletManager.mkFrame
       (mkWorld ∅
          [ConsoleError "Failed to parse encrypted wallets:" []
             (Some (TypeError
                      "Cannot read properties of null or undefined (reading 'address')"))])
       []).
Proof. reflexivity. Qed.

(** C6. The batch is not safe from a single record.  On the sample store with
    a null element between two records that decrypt, the password verifies
    and the third record decrypts on its own, yet [unlockWallets] resolves
    with the first wallet only and writes that list: the null element is not
    logged and dropped as a record that failed to decrypt, the [catch] block
    of the loop throws while reading its [.address], and the one line on the
    console is the outer block's. *)
Theorem null_record_aborts_the_batch :
  let bob := Sample.record "oct1bob" (JStr (Sample.wallet_json "oct1bob")) in
  let run :=
    WalletManager.unlockWallets Sample.verifyPassword Sample.decryptWalletData
      Sample.JSON_parse Sample.JSON_stringify "hunter2"
      SamplePlatform.store_with_null_record in
  stored_records Sample.JSON_parse SamplePlatform.store_with_null_record
  = Some [Sample.record "oct1alice" (JStr (Sample.wallet_json "oct1alice")); JNull; bob]
  /\ decrypted Sample.decryptWalletData Sample.JSON_parse "hunter2" bob
     = Ok (Sample.wallet "oct1bob")
  /\ fst run = Ok [Sample.wallet "oct1alice"]
  /\ read (snd run) "wallets"
     = JStr (Sample.JSON_stringify (JArr [Sample.wallet "oct1alice"]))
  /\ read (snd run) "isWalletLocked" = JStr "false"
  /\ trace (snd run)
     = [ConsoleError "Failed to parse encrypted wallets:" []
          (Some (TypeError
                   "Cannot read properties of null or undefined (reading 'address')"))].
Proof. cbv zeta. split_and!; reflexivity. Qed.

(** A wallet that decrypts to [null] is kept in the list, and the unlock then
    rejects while reading the address of the first entry, after the list and
    the flag "false" have been written. *)
Example null_wallet_rejects_after_unlocking :
  let run :=
    WalletManager.unlockWallets Sample.verifyPassword Sample.decryptWalletData
      Sample.JSON_parse Sample.JSON_stringify "hunter2"
      SamplePlatform.store_with_null_wallet in
  fst run = Throw (TypeError "Cannot read properties of null or undefined (reading 'address')")
  /\ read (snd run) "isWalletLocked" = JStr "false"
  /\ read (snd run) "activeWalletId" = JUndefined.
Proof. cbv zeta. split_and!; reflexivity. Qed.

(** C7. The claim as stated fails for [isWalletLocked]: on the store caught
    between the two writes of an unlock it answers unlocked although no wallet
    list is there. *)
Lemma isWalletLocked_ignores_missing_wallets :
  ~ locked_when_wallets_missing WalletManager.isWalletLocked.
Proof.
  intros Hsafe. specialize (Hsafe partial_unlock).
  assert (Hpw : truthy (read partial_unlock "walletPasswordHash") = true) by reflexivity.
  assert (Hnone : storage partial_unlock !! "wallets" = None) by reflexivity.
  specialize (Hsafe Hpw Hnone). vm_compute in Hsafe. discriminate.
Qed.

(** ** Properties of the SDK *)

Section SdkFacts.
Import OctraSDK.

(** C8. While the instance is not connected, [viewCall], [callContract],
    [sendTransaction], [getBalance] and [signMessage] each reject with the
    [NotConnectedError] "Not connected to wallet. Please connect first." and
    leave the instance as it was: no request has been made of the provider. *)
Theorem not_connected_fails_fast (s : Sdk) (options address msg : JsVal) :
  isConnected s = false ->
  exists e : JsError,
    NotConnectedError e /\
    viewCall options s = (Throw e, s) /\
    callContract options s = (Throw e, s) /\
    sendTransaction options s = (Throw e, s) /\
    getBalance address s = (Throw e, s) /\
    signMessage msg s = (Throw e, s).
Proof.
  intros Hoff. exists (Error not_connected). split; [reflexivity |].
  unfold viewCall, callContract, sendTransaction, getBalance, signMessage, bind, gets, throw.
  rewrite Hoff. simpl. done.
Qed.

(** C10. [getNetwork] always resolves.  With no provider, or with a provider
    whose [getNetwork] throws, it resolves with the built-in description of
    the Octra network; otherwise with the provider's answer. *)
Theorem getNetwork_never_rejects (s : Sdk) :
  exists (network : JsVal) (s' : Sdk),
    getNetwork s = (Ok network, s') /\
    (provider s = None -> network = default_network /\ s' = s) /\
    (forall answer e,
       provider s = Some answer -> answer GetNetwork = Throw e ->
       network = JObj [("chainId", JStr "0x1"); ("networkId", JStr "octra-mainnet");
                       ("name", JStr "Octra Network")]) /\
    (forall answer v,
       provider s = Some answer -> answer GetNetwork = Ok v -> network = v).
Proof.
  destruct s as [addr conn [answer |] evs].
  - destruct (answer GetNetwork) as [v | e] eqn:Hanswer.
    + exists v. eexists. split.
      * unfold getNetwork, bind, gets, try_catch, request, record, modify, lift_res, ret.
        simpl. rewrite Hanswer. reflexivity.
      * split; [discriminate |]. split; simpl; intros ? ? [= <-]; congruence.
    + exists default_network. eexists. split.
      * unfold getNetwork, bind, gets, try_catch, request, record, modify, lift_res, ret.
        simpl. rewrite Hanswer. reflexivity.
      * split; [discriminate |]. split; simpl; intros ? ? [= <-]; [done | congruence].
  - exists default_network. eexists. split; [reflexivity |].
    split; [done |]. split; discriminate.
Qed.

End SdkFacts.

(** A page that calls before connecting gets the error back from each of the
    five operations, with the provider untouched. *)
Lemma not_connected_fails_fast_witness :
  exists e : JsError,
    NotConnectedError e /\
    OctraSDK.viewCall (JObj [("contractAddress", JStr "oct1c"); ("methodName", JStr "getCredits")])
      Sample.fresh_sdk = (Throw e, Sample.fresh_sdk) /\
    OctraSDK.getBalance JNull Sample.fresh_sdk = (Throw e, Sample.fresh_sdk).
Proof.
  destruct (not_connected_fails_fast Sample.fresh_sdk
              (JObj [("contractAddress", JStr "oct1c"); ("methodName", JStr "getCredits")])
              JNull (JStr "hello"))
    as (e & Herr & Hview & _ & _ & Hbal & _).
  - reflexivity.
  - exists e. split; [exact Herr |]. split; [exact Hview | exact Hbal].
Defined.

(** ** Properties of the popup entry point *)

Section PopupFacts.
Import PopupApp.

Variable JSON_parse : string -> option JsVal.

Lemma alike_lookup (key k : string) (p q : Page) :
  alike key p q -> k <> key -> read (host p) k = read (host q) k.
Proof.
  intros [_ Hst] Hk. unfold read.
  by rewrite <- (lookup_delete_ne (storage (host p)) key k),
             <- (lookup_delete_ne (storage (host q)) key k), Hst.
Qed.

Lemma blind_ret (key : string) {A} (a : A) : blind_to key (ret a : M Page A).
Proof. intros p q H. by split. Qed.

Lemma blind_lift_res (key : string) {A} (r : Res A) : blind_to key (lift_res r : M Page A).
Proof. intros p q H. by split. Qed.

Lemma blind_bind (key : string) {A B} (m : M Page A) (k : A -> M Page B) :
  blind_to key m -> (forall a, blind_to key (k a)) -> blind_to key (bind m k).
Proof.
  intros Hm Hk p q Hpq. unfold bind.
  destruct (Hm p q Hpq) as [Hres Hview].
  destruct (m p) as [[a | e] p'], (m q) as [[a' | e'] q']; simpl in *; try discriminate.
  - injection Hres as <-. by apply Hk.
  - injection Hres as <-. by split.
Qed.

Lemma blind_try_catch (key : string) {A} (m : M Page A) (h : JsError -> M Page A) :
  blind_to key m -> (forall e, blind_to key (h e)) -> blind_to key (try_catch m h).
Proof.
  intros Hm Hh p q Hpq. unfold try_catch.
  destruct (Hm p q Hpq) as [Hres Hview].
  destruct (m p) as [[a | e] p'], (m q) as [[a' | e'] q']; simpl in *; try discriminate.
  - by split.
  - injection Hres as <-. by apply Hh.
Qed.

Lemma blind_set_ui (key : string) (f : State -> State) : blind_to key (set_ui f).
Proof.
  intros [u [st tr]] [u' [st' tr']] [Hu Hst]. simpl in *. subst. by split.
Qed.

Lemma blind_emit (key : string) (e : Effect) : blind_to key (in_host (emit e)).
Proof.
  intros [u [st tr]] [u' [st' tr']] [Hu Hst]. simpl in *. subst. by split.
Qed.

Lemma blind_get (key k : string) :
  k <> key -> blind_to key (in_host (ExtensionStorageManager.get k)).
Proof.
  intros Hk p q Hpq. split; [| exact Hpq].
  unfold in_host, zoom, ExtensionStorageManager.get, gets. simpl.
  by rewrite (alike_lookup key k p q).
Qed.

Lemma blind_remove (key k : string) :
  blind_to key (in_host (ExtensionStorageManager.remove k)).
Proof.
  intros [u [st tr]] [u' [st' tr']] [Hu Hst]. simpl in *. subst. split; [done |].
  split; [done |]. simpl. by rewrite !(delete_delete _ key k), Hst.
Qed.

Lemma blind_shouldShowUnlockScreen (key : string) :
  is_pending_key key -> blind_to key (in_host WalletManager.shouldShowUnlockScreen).
Proof.
  intros Hkey p q Hpq. unfold in_host, zoom. rewrite !shouldShowUnlockScreen_eval. simpl.
  assert (Hne : forall k, k = "walletPasswordHash" \/ k = "isWalletLocked" \/ k = "wallets" ->
                          k <> key)
    by (intros k [-> | [-> | ->]]; destruct Hkey as [-> | ->]; done).
  rewrite !(alike_lookup key _ p q) by (done || (apply Hne; auto)).
  split; [done |]. destruct Hpq, p, q. by split.
Qed.

Lemma blind_load_pending (key k label : string) (f : JsVal -> State -> State) :
  k <> key -> blind_to key (load_pending JSON_parse k label (fun v => set_ui (f v))).
Proof.
  intros Hk. unfold load_pending.
  apply blind_bind; [by apply blind_get |]. intros v.
  destruct (truthy v); [| apply blind_ret].
  apply blind_try_catch.
  - apply blind_bind; [apply blind_lift_res | intros; apply blind_set_ui].
  - intros e. apply blind_bind; [apply blind_emit | intros; apply blind_remove].
Qed.

Lemma blind_load_wallets (key : string) :
  is_pending_key key -> blind_to key (load_wallets JSON_parse).
Proof.
  intros Hkey. unfold load_wallets.
  apply blind_bind; [by apply blind_shouldShowUnlockScreen |]. intros gate.
  destruct gate.
  - apply blind_bind; [apply blind_set_ui | intros; apply blind_set_ui].
  - apply blind_bind; [apply blind_get; destruct Hkey as [-> | ->]; done |]. intros ws.
    apply blind_bind; [apply blind_get; destruct Hkey as [-> | ->]; done |]. intros active.
    destruct (if truthy ws then _ else _) as [outcome locals].
    apply blind_bind.
    { destruct outcome; [apply blind_ret | apply blind_emit]. }
    intros _. apply blind_bind; [apply blind_set_ui |]. intros _.
    apply blind_bind; [apply blind_set_ui |]. intros _. apply blind_set_ui.
Qed.

(** Reading a pending request never throws, and touches no other entry. *)
Lemma load_pending_ok (k label : string) (f : JsVal -> State -> State) (p : Page) :
  fst (load_pending JSON_parse k label (fun v => set_ui (f v)) p) = Ok ().
Proof.
  destruct p as [u [st tr]].
  unfold load_pending, bind, in_host, zoom, ExtensionStorageManager.get, gets, try_catch,
    lift_res, set_ui, modify, emit, ExtensionStorageManager.remove. simpl.
  destruct (truthy (read (mkWorld st tr) k)); [| done].
  by destruct (parse_if_string JSON_parse (read (mkWorld st tr) k)).
Qed.

Lemma load_pending_lookup_other (key k label : string) (f : JsVal -> State -> State) (p : Page) :
  k <> key ->
  storage (host (snd (load_pending JSON_parse k label (fun v => set_ui (f v)) p))) !! key
  = storage (host p) !! key.
Proof.
  intros Hk. destruct p as [u [st tr]].
  unfold load_pending, bind, in_host, zoom, ExtensionStorageManager.get, gets, try_catch,
    lift_res, set_ui, modify, emit, ExtensionStorageManager.remove. simpl.
  destruct (truthy (read (mkWorld st tr) k)); [| done].
  destruct (parse_if_string JSON_parse (read (mkWorld st tr) k)); simpl; [done |].
  by rewrite lookup_delete_ne.
Qed.

(** The wallet-loading half never throws and writes nothing to the store. *)
Lemma load_wallets_ok (p : Page) :
  fst (load_wallets JSON_parse p) = Ok () /\
  storage (host (snd (load_wallets JSON_parse p))) = storage (host p).
Proof.
  destruct p as [u [st tr]].
  unfold load_wallets, bind, in_host, zoom. rewrite shouldShowUnlockScreen_eval.
  cbn [fst snd host ui].
  destruct (truthy (read (mkWorld st tr) "walletPasswordHash") && _); [done |].
  unfold ExtensionStorageManager.get, gets. cbn [fst snd host ui].
  destruct (if truthy (read (mkWorld st tr) "wallets") then _ else _) as [[[] | e] locals];
    done.
Qed.

Lemma load_pending_ok_connection (p : Page) :
  fst (load_pending JSON_parse "pendingConnectionRequest"
         "Failed to parse connection request:" setConnectionRequest p) = Ok ().
Proof.
  apply (load_pending_ok _ _
           (fun v s => mkState (wallet s) (wallets s) (isLocked s) (isLoading s)
                         (isPopupMode s) v (contractRequest s))).
Qed.

Lemma load_pending_ok_contract (p : Page) :
  fst (load_pending JSON_parse "pendingContractRequest"
         "Failed to parse contract request:" setContractRequest p) = Ok ().
Proof.
  apply (load_pending_ok _ _
           (fun v s => mkState (wallet s) (wallets s) (isLocked s) (isLoading s)
                         (isPopupMode s) (connectionRequest s) v)).
Qed.

(** The statements of the mount effect, one after the other: none of them
    throws, so the [catch] block never runs. *)
Lemma loadInitialData_steps (win : Window) (p : Page) :
  loadInitialData JSON_parse win p =
  (Ok (),
   let p1 := snd (setIsPopupMode
                    (bool_decide (is_Some (String.index 0 "popup.html" (pathname win)))
                     || (innerWidth win <=? 500)) p) in
   let p2 := snd (load_pending JSON_parse "pendingConnectionRequest"
                    "Failed to parse connection request:" setConnectionRequest p1) in
   let p3 := snd (load_pending JSON_parse "pendingContractRequest"
                    "Failed to parse contract request:" setContractRequest p2) in
   let p4 := snd (load_wallets JSON_parse p3) in
   mkPage (with_isLoading false (ui p4)) (host p4)).
Proof.
  cbv zeta. unfold loadInitialData, try_finally, try_catch.
  rewrite (bind_ok _ _ p ()) by reflexivity.
  rewrite (bind_ok _ _ _ ()) by apply load_pending_ok_connection.
  rewrite (bind_ok _ _ _ ()) by apply load_pending_ok_contract.
  destruct (load_wallets_ok
              (snd (load_pending JSON_parse "pendingContractRequest"
                      "Failed to parse contract request:" setContractRequest
                      (snd (load_pending JSON_parse "pendingConnectionRequest"
                              "Failed to parse connection request:" setConnectionRequest
                              (snd (setIsPopupMode
                                      (bool_decide
                                         (is_Some (String.index 0 "popup.html" (pathname win)))
                                       || (innerWidth win <=? 500)) p)))))))
    as [Hok _].
  destruct (load_wallets JSON_parse _) as [r p4]. simpl in Hok. by subst r.
Qed.

(** The statement that reads the entry under [key], on a page whose entry is
    a string that does not parse and on a page with no entry. *)
Lemma load_pending_at (key label s : string) (f : JsVal -> State -> State) (p q : Page) :
  alike key p q ->
  storage (host p) !! key = Some (JStr s) ->
  JSON_parse s = None ->
  storage (host q) !! key = None ->
  let m := load_pending JSON_parse key label (fun v => set_ui (f v)) in
  alike key (snd (m p)) (snd (m q)) /\
  storage (host (snd (m q))) !! key = None /\
  (s <> "" -> storage (host (snd (m p))) !! key = None).
Proof.
  destruct p as [u [st tr]], q as [u' [st' tr']]. simpl.
  intros [Hu Hst] Hp Hparse Hq. simpl in Hu, Hst. subst u'.
  unfold load_pending, bind, in_host, zoom, ExtensionStorageManager.get, gets, try_catch,
    lift_res, set_ui, modify, emit, ExtensionStorageManager.remove, read. simpl.
  rewrite Hp, Hq. simpl.
  destruct (String.eqb s "") eqn:Hs; simpl.
  - apply String.eqb_eq in Hs. by repeat split.
  - unfold WalletManager.parse. rewrite Hparse. simpl.
    split; [split; [done |] |].
    + simpl. by rewrite delete_delete_eq.
    + split; [done |]. intros _. apply lookup_delete_eq.
Qed.

#[local] Abbreviation connection_cell :=
  (fun (v : JsVal) (s : State) =>
     mkState (wallet s) (wallets s) (isLocked s) (isLoading s) (isPopupMode s)
       v (contractRequest s)).
#[local] Abbreviation contract_cell :=
  (fun (v : JsVal) (s : State) =>
     mkState (wallet s) (wallets s) (isLocked s) (isLoading s) (isPopupMode s)
       (connectionRequest s) v).

(** A statement that is blind to [key] and keeps its entry carries a pair of
    alike pages, one with and one without the entry, to such a pair. *)
Lemma blind_step (key : string) {A} (m : M Page A) (p q : Page) (entry : option JsVal) :
  blind_to key m -> keeps key m ->
  alike key p q ->
  storage (host p) !! key = entry ->
  storage (host q) !! key = None ->
  alike key (snd (m p)) (snd (m q)) /\
  storage (host (snd (m p))) !! key = entry /\
  storage (host (snd (m q))) !! key = None.
Proof.
  intros Hblind Hkeeps Hpq Hp Hq.
  split; [by apply Hblind |]. by rewrite !Hkeeps.
Qed.

Lemma keeps_setIsPopupMode (key : string) (b : bool) : keeps key (setIsPopupMode b).
Proof. by intros [u [st tr]]. Qed.

Lemma keeps_load_wallets (key : string) : keeps key (load_wallets JSON_parse).
Proof. intros p. by destruct (load_wallets_ok p) as [_ ->]. Qed.

(** C9, as amended. If on mount the entry under [pendingConnectionRequest] or
    [pendingContractRequest] is a string that does not parse, the popup ends
    up showing exactly what it would show had there been no such entry, over
    the same store without it; and if the string is not empty, the entry has
    been removed from the store. *)
Theorem corrupted_pending_request_dropped (win : Window) (p : Page) (key s : string) :
  is_pending_key key ->
  storage (host p) !! key = Some (JStr s) ->
  JSON_parse s = None ->
  let p' := snd (loadInitialData JSON_parse win p) in
  let q' := snd (loadInitialData JSON_parse win (without key p)) in
  (s <> "" -> storage (host p') !! key = None) /\
  ui p' = ui q' /\
  render (ui p') = render (ui q') /\
  delete key (storage (host p')) = storage (host q').
Proof.
  intros Hkey Hp Hparse. cbv zeta. rewrite !loadInitialData_steps. cbv zeta.
  cbn [snd ui host].
  set (b := bool_decide (is_Some (String.index 0 "popup.html" (pathname win)))
            || (innerWidth win <=? 500)).
  assert (H0 : alike key p (without key p)).
  { split; [done |]. destruct p as [u [st tr]]. simpl. by rewrite delete_delete_eq. }
  assert (Hq0 : storage (host (without key p)) !! key = None).
  { destruct p as [u [st tr]]. simpl. apply lookup_delete_eq. }
  destruct (blind_step key (setIsPopupMode b) p (without key p) (Some (JStr s))
              (blind_set_ui key _) (keeps_setIsPopupMode key b) H0 Hp Hq0)
    as (H1 & Hp1 & Hq1).
  set (p1 := snd (setIsPopupMode b p)) in *.
  set (q1 := snd (setIsPopupMode b (without key p))) in *.
  assert (Hend : forall p4 q4 : Page,
            alike key p4 q4 ->
            storage (host q4) !! key = None ->
            (s <> "" -> storage (host p4) !! key = None) ->
            (s <> "" -> storage (host p4) !! key = None) /\
            with_isLoading false (ui p4) = with_isLoading false (ui q4) /\
            render (with_isLoading false (ui p4)) = render (with_isLoading false (ui q4)) /\
            delete key (storage (host p4)) = storage (host q4)).
  { intros p4 q4 [Hu Hst] Hq4 Hp4. split; [done |]. rewrite Hu.
    split; [done |]. split; [done |]. rewrite Hst. by apply delete_id. }
  destruct Hkey as [-> | ->].
  - destruct (load_pending_at "pendingConnectionRequest" "Failed to parse connection request:"
                s connection_cell p1 q1 H1 Hp1 Hparse Hq1) as (H2 & Hq2 & Hp2).
    change (fun v => set_ui (connection_cell v)) with setConnectionRequest in *.
    set (p2 := snd (load_pending JSON_parse "pendingConnectionRequest" _ _ p1)) in *.
    set (q2 := snd (load_pending JSON_parse "pendingConnectionRequest" _ _ q1)) in *.
    assert (H3 : alike "pendingConnectionRequest"
                   (snd (load_pending JSON_parse "pendingContractRequest"
                           "Failed to parse contract request:" setContractRequest p2))
                   (snd (load_pending JSON_parse "pendingContractRequest"
                           "Failed to parse contract request:" setContractRequest q2))).
    { by apply (blind_load_pending "pendingConnectionRequest" "pendingContractRequest" _
                  contract_cell). }
    pose proof (load_pending_lookup_other "pendingConnectionRequest" "pendingContractRequest"
                  "Failed to parse contract request:" contract_cell) as Hkeep.
    change (fun v => set_ui (contract_cell v)) with setContractRequest in Hkeep.
    apply Hend.
    + by apply blind_load_wallets; [left |].
    + by rewrite keeps_load_wallets, Hkeep.
    + intros Hs. rewrite keeps_load_wallets, Hkeep by done. by apply Hp2.
  - assert (H2 : alike "pendingContractRequest"
                   (snd (load_pending JSON_parse "pendingConnectionRequest"
                           "Failed to parse connection request:" setConnectionRequest p1))
                   (snd (load_pending JSON_parse "pendingConnectionRequest"
                           "Failed to parse connection request:" setConnectionRequest q1))).
    { by apply (blind_load_pending "pendingContractRequest" "pendingConnectionRequest" _
                  connection_cell). }
    pose proof (load_pending_lookup_other "pendingContractRequest" "pendingConnectionRequest"
                  "Failed to parse connection request:" connection_cell) as Hkeep.
    change (fun v => set_ui (connection_cell v)) with setConnectionRequest in Hkeep.
    set (p2 := snd (load_pending JSON_parse "pendingConnectionRequest" _ _ p1)) in *.
    set (q2 := snd (load_pending JSON_parse "pendingConnectionRequest" _ _ q1)) in *.
    assert (Hp2 : storage (host p2) !! "pendingContractRequest" = Some (JStr s))
      by (unfold p2; by rewrite Hkeep).
    assert (Hq2 : storage (host q2) !! "pendingContractRequest" = None)
      by (unfold q2; by rewrite Hkeep).
    destruct (load_pending_at "pendingContractRequest" "Failed to parse contract request:"
                s contract_cell p2 q2 H2 Hp2 Hparse Hq2) as (H3 & Hq3 & Hp3).
    change (fun v => set_ui (contract_cell v)) with setContractRequest in *.
    apply Hend.
    + by apply blind_load_wallets; [right |].
    + by rewrite keeps_load_wallets.
    + intros Hs. rewrite keeps_load_wallets. by apply Hp3.
Qed.

(** What reading a pending request does to the state cells. *)
Lemma load_pending_ui (key label : string) (f : JsVal -> State -> State) (p : Page) :
  ui (snd (load_pending JSON_parse key label (fun v => set_ui (f v)) p))
  = if truthy (read (host p) key) then
      match parse_if_string JSON_parse (read (host p) key) with
      | Ok v => f v (ui p)
      | Throw _ => ui p
      end
    else ui p.
Proof.
  destruct p as [u [st tr]].
  unfold load_pending, bind, in_host, zoom, ExtensionStorageManager.get, gets, try_catch,
    lift_res, set_ui, modify, emit, ExtensionStorageManager.remove. simpl.
  destruct (truthy (read (mkWorld st tr) key)); [| done].
  by destruct (parse_if_string JSON_parse (read (mkWorld st tr) key)).
Qed.

(** What the wallet-loading half does to the state cells the render looks
    at first. *)
Lemma load_wallets_ui (p : Page) :
  let s' := ui (snd (load_wallets JSON_parse p)) in
  connectionRequest s' = connectionRequest (ui p) /\
  contractRequest s' = contractRequest (ui p) /\
  isLocked s' = gate (host p).
Proof.
  destruct p as [u [st tr]]. cbv zeta.
  unfold load_wallets, bind, in_host, zoom. rewrite shouldShowUnlockScreen_eval.
  cbn [fst snd host ui]. fold (gate (mkWorld st tr)).
  destruct (gate (mkWorld st tr)); [done |].
  unfold ExtensionStorageManager.get, gets. cbn [fst snd host ui].
  destruct (if truthy (read (mkWorld st tr) "wallets") then _ else _) as [[[] | e] locals];
    done.
Qed.

(** The order in which a freshly mounted popup picks its screen, in terms of
    the store it was mounted over: a pending connection request first, then a
    pending contract request, both whatever the lock state; then the unlock
    screen if the gate is closed; then the welcome screen if no wallet is
    active; else the dashboard. *)
Lemma popup_screen_order (win : Window) (w : World) :
  let s' := ui (snd (loadInitialData JSON_parse win (mkPage initial w))) in
  let connection := pending_value JSON_parse (read w "pendingConnectionRequest") in
  let contract := pending_value JSON_parse (read w "pendingContractRequest") in
  render s' =
  if truthy connection then DAppConnection connection (JArr (wallets s')) (wallet s')
  else if truthy contract then DAppRequestHandler contract (JArr (wallets s')) (wallet s')
  else if gate w then UnlockWallet
  else if negb (truthy (wallet s')) then WelcomeScreen
  else WalletDashboard (wallet s') (JArr (wallets s')).
Proof.
  cbv zeta. rewrite loadInitialData_steps. cbv zeta. cbn [snd ui].
  set (b := bool_decide (is_Some (String.index 0 "popup.html" (pathname win)))
            || (innerWidth win <=? 500)).
  set (p1 := snd (setIsPopupMode b (mkPage initial w))).
  set (p2 := snd (load_pending JSON_parse "pendingConnectionRequest" _ setConnectionRequest p1)).
  set (p3 := snd (load_pending JSON_parse "pendingContractRequest" _ setContractRequest p2)).
  destruct (load_wallets_ui p3) as (Hconn & Hcontract & Hlocked). cbv zeta in *.
  assert (H2 : ui p2 = connection_cell
                         (pending_value JSON_parse (read w "pendingConnectionRequest")) (ui p1)).
  { unfold p2. rewrite (load_pending_ui _ _ connection_cell).
    unfold pending_value. change (read (host p1) "pendingConnectionRequest")
      with (read w "pendingConnectionRequest").
    destruct (truthy (read w "pendingConnectionRequest")); [| done].
    by destruct (parse_if_string JSON_parse (read w "pendingConnectionRequest")). }
  assert (Hread : forall k, k <> "pendingConnectionRequest" -> read (host p2) k = read w k).
  { intros k Hk. unfold read, p2.
    by rewrite (load_pending_lookup_other k "pendingConnectionRequest" _ connection_cell). }
  assert (H3 : ui p3 = contract_cell
                         (pending_value JSON_parse (read w "pendingContractRequest")) (ui p2)).
  { unfold p3. rewrite (load_pending_ui _ _ contract_cell).
    unfold pending_value. rewrite Hread by done.
    destruct (truthy (read w "pendingContractRequest")); [| by rewrite H2].
    destruct (parse_if_string JSON_parse (read w "pendingContractRequest")); [done |].
    by rewrite H2. }
  assert (Hgate : gate (host p3) = gate w).
  { unfold gate, read, p3.
    rewrite !(load_pending_lookup_other _ "pendingContractRequest" _ contract_cell) by done.
    fold (read (host p2) "walletPasswordHash") (read (host p2) "isWalletLocked")
      (read (host p2) "wallets").
    by rewrite !Hread. }
  unfold render. cbn [isLoading with_isLoading connectionRequest contractRequest isLocked
                      wallet wallets].
  rewrite Hconn, Hcontract, Hlocked, Hgate, H3, H2. reflexivity.
Qed.

End PopupFacts.

(** C9. The claim as stated fails on the empty string: it does not parse, the
    guard [if (pendingRequest)] skips it, and its entry stays in the store. *)
Lemma empty_pending_request_not_removed :
  ~ corrupted_request_removed Sample.JSON_parse.
Proof.
  intros Hremoved.
  specialize (Hremoved popup_window empty_request_page "pendingContractRequest" "").
  assert (Hkey : is_pending_key "pendingContractRequest") by (by right).
  assert (Hentry : storage (PopupApp.host empty_request_page) !! "pendingContractRequest"
                   = Some (JStr "")) by reflexivity.
  assert (Hparse : Sample.JSON_parse "" = None) by reflexivity.
  specialize (Hremoved Hkey Hentry Hparse). vm_compute in Hremoved. discriminate.
Qed.

(** A pending contract request that was cut short is removed on mount, and
    the popup of a fresh install shows the welcome screen. *)
Lemma corrupted_pending_request_dropped_witness :
  let p' := snd (PopupApp.loadInitialData Sample.JSON_parse popup_window corrupt_request_page) in
  storage (PopupApp.host p') !! "pendingContractRequest" = None /\
  PopupApp.render (PopupApp.ui p') = WelcomeScreen.
Proof.
  destruct (corrupted_pending_request_dropped Sample.JSON_parse popup_window
              corrupt_request_page "pendingContractRequest" "{origin:")
    as (Hgone & _ & Hrender & _).
  - by right.
  - reflexivity.
  - reflexivity.
  - split; [by apply Hgone |]. cbv zeta. rewrite Hrender. reflexivity.
Defined.

(** ** The popup and the tab on a pending contract request *)

(** The tab page has no contract-approval screen at all. *)
Lemma tab_never_renders_contract_screen (s : App.State) (r ws w : JsVal) :
  App.render s <> DAppRequestHandler r ws w.
Proof. unfold App.render. by repeat case_match. Qed.

(** In the popup a pending contract request holds the screen whether the
    wallet is locked or not, and through an unlock. *)
Lemma popup_contract_screen_survives_unlock (s : PopupApp.State) (h : World) (ws : list JsVal) :
  PopupApp.isLoading s = false ->
  truthy (PopupApp.connectionRequest s) = false ->
  truthy (PopupApp.contractRequest s) = true ->
  exists ws' w',
    PopupApp.render s = DAppRequestHandler (PopupApp.contractRequest s) ws' w' /\
  exists ws' w',
    PopupApp.render (PopupApp.ui (snd (PopupApp.handleUnlock ws (PopupApp.mkPage s h))))
    = DAppRequestHandler (PopupApp.contractRequest s) ws' w'.
Proof.
  intros Hload Hconn Hcontract. eexists _, _. split.
  - unfold PopupApp.render. by rewrite Hload, Hconn, Hcontract.
  - destruct s as [w0 ws0 locked loading popup conn contract]. simpl in *. subst loading.
    destruct ws as [| first rest]; eexists _, _; unfold PopupApp.render; simpl;
      by rewrite Hconn, Hcontract.
Qed.

(** C2, where the code departs from it.  The wallet is set up and locked and
    a [claimToken] request is pending.  The popup shows the contract screen,
    and still shows it after the unlock.  The tab shows the plain unlock screen
    and, after the unlock, the dashboard: it never reads the pending contract
    request. *)
Theorem tab_shows_dashboard_for_pending_contract :
  PopupApp.render
    (PopupApp.ui (snd (PopupApp.loadInitialData Sample.JSON_parse popup_window popup_on_request)))
  = DAppRequestHandler claim_request (JArr []) JNull /\
  PopupApp.render
    (PopupApp.ui
       (snd (PopupApp.handleUnlock unlocked_wallets
               (snd (PopupApp.loadInitialData Sample.JSON_parse popup_window
                       popup_on_request)))))
  = DAppRequestHandler claim_request (JArr unlocked_wallets) (Sample.wallet "oct1alice") /\
  App.mount Sample.JSON_parse Sample.decodeURIComponent Sample.gt_zero tab_on_request
  = (Ok (), App.mkPage (App.mkState JNull (JArr []) true JNull) (App.host tab_on_request)) /\
  App.render
    (App.ui (snd (App.mount Sample.JSON_parse Sample.decodeURIComponent Sample.gt_zero
                    tab_on_request)))
  = UnlockWallet /\
  App.render
    (App.ui
       (snd (App.handleUnlock unlocked_wallets
               (snd (App.mount Sample.JSON_parse Sample.decodeURIComponent Sample.gt_zero
                       tab_on_request)))))
  = WalletDashboard (Sample.wallet "oct1alice") (JArr unlocked_wallets).
Proof. repeat split; vm_compute; reflexivity. Qed.

(** ** Properties of the Request Registry *)

Section RegistryFacts.
Import Registry.

Lemma store_key_inj (k k' : Kind) : store_key k = store_key k' -> k = k'.
Proof. by destruct k, k'. Qed.

Lemma registry_inv_empty : registry_inv (empty, []).
Proof.
  split; [constructor |]. simpl. split; [| split].
  - intros q. rewrite lookup_empty. split; [by intros ?%elem_of_nil | done].
  - intros key q. by rewrite lookup_empty.
  - by intros q ?%elem_of_nil.
Qed.

Lemma registry_inv_step (st : Registry * list PendingRequest) (op : Op) :
  registry_inv st -> registry_inv (step st op).
Proof.
  destruct st as [r unresolved]. intros (Hnodup & Hmem & Hkey & Hid).
  destruct op as [k p now | i o]; simpl.
  - unfold submit, peek. destruct (pending r !! store_key k) as [old |] eqn:Hpeek.
    + exact (conj Hnodup (conj Hmem (conj Hkey Hid))).
    + split; [| split; [| split]]; simpl.
      * apply NoDup_app. split; [done |]. split; [| apply NoDup_singleton].
        intros q Hq ->%list_elem_of_singleton. apply Hid in Hq. simpl in Hq. lia.
      * intros q. rewrite elem_of_app, list_elem_of_singleton.
        destruct (decide (kind q = k)) as [<- | Hne].
        -- rewrite lookup_insert_eq. split.
           ++ intros [Hq | ->]; [| done]. apply Hmem in Hq. congruence.
           ++ intros [= <-]. by right.
        -- rewrite lookup_insert_ne by (intros Heq; by apply store_key_inj in Heq).
           rewrite Hmem. split; [intros [? | ->]; [done | by simpl in Hne] | by left].
      * intros key q. destruct (decide (key = store_key k)) as [-> | Hne].
        -- rewrite lookup_insert_eq. by intros [= <-].
        -- rewrite lookup_insert_ne by done. apply Hkey.
      * intros q [Hq | ->%list_elem_of_singleton]%elem_of_app.
        -- apply Hid in Hq. lia.
        -- simpl. lia.
  - split; [| split; [| split]]; simpl.
    + by apply NoDup_filter.
    + intros q. rewrite list_elem_of_filter, map_lookup_filter_Some, Hmem. simpl. tauto.
    + intros key q [Hq _]%map_lookup_filter_Some. by apply Hkey.
    + intros q [_ Hq]%list_elem_of_filter. by apply Hid.
Qed.

Lemma registry_inv_run (ops : list Op) : registry_inv (run ops).
Proof.
  unfold run. induction ops as [| op ops IH] using rev_ind.
  - apply registry_inv_empty.
  - rewrite foldl_app. simpl. by apply registry_inv_step.
Qed.

(** C3. After any run of submissions and resolutions, at most one unresolved
    request of each kind exists, and it is the one [peek] returns; submitting
    a kind that is already pending fails with [RequestConflict] and returns the
    Registry as it was, the pending request included. *)
Theorem one_pending_request_per_kind (ops : list Op) (k : Kind) :
  (length (of_kind k (snd (run ops))) <= 1)%nat /\
  (forall q, q ∈ of_kind k (snd (run ops)) <-> peek k (fst (run ops)) = Some q) /\
  (forall (q : PendingRequest) (p : JsVal) (now : Z),
     peek k (fst (run ops)) = Some q ->
     submit k p now (fst (run ops)) = (RequestConflict, fst (run ops)) /\
     peek k (snd (submit k p now (fst (run ops)))) = Some q /\
     step (run ops) (Submit k p now) = run ops).
Proof.
  pose proof (registry_inv_run ops) as Hinv.
  destruct (run ops) as [r unresolved]. destruct Hinv as (Hnodup & Hmem & Hkey & Hid).
  simpl.
  assert (Hof : forall q, q ∈ of_kind k unresolved <-> peek k r = Some q).
  { intros q. unfold of_kind, peek. rewrite list_elem_of_filter, Hmem. split.
    - by intros [<- ?].
    - intros Hq. pose proof (Hkey _ _ Hq) as Heq%store_key_inj. subst k. by split. }
  split; [| split; [exact Hof |]].
  - assert (Hnd : NoDup (of_kind k unresolved)) by (by apply NoDup_filter).
    destruct (of_kind k unresolved) as [| a [| b rest]] eqn:Hl; simpl; [lia | lia |].
    exfalso. assert (Ha : peek k r = Some a) by (apply Hof; left).
    assert (Hb : peek k r = Some b) by (apply Hof; right; left).
    rewrite Ha in Hb. injection Hb as ->.
    apply NoDup_cons in Hnd as [Hnotin _]. apply Hnotin. left.
  - intros q p now Hq. unfold submit. rewrite Hq. simpl. by rewrite Hq.
Qed.

End RegistryFacts.

(** ** Properties of the Surface Policy and of the popup's handlers *)

Section SurfaceFacts.
Import PopupApp SurfacePolicy.

Lemma no_tab_ret {A} (a : A) : opens_no_tab (ret a : M Page A).
Proof. by intros p. Qed.

Lemma no_tab_lift_res {A} (r : Res A) : opens_no_tab (lift_res r : M Page A).
Proof. by intros p. Qed.

Lemma no_tab_gets {A} (f : Page -> A) : opens_no_tab (gets f).
Proof. by intros p. Qed.

Lemma no_tab_bind {A B} (m : M Page A) (k : A -> M Page B) :
  opens_no_tab m -> (forall a, opens_no_tab (k a)) -> opens_no_tab (bind m k).
Proof.
  intros Hm Hk p. unfold bind. specialize (Hm p).
  destruct (m p) as [[a | e] p']; simpl in *; [| done]. by rewrite Hk.
Qed.

Lemma no_tab_try_catch {A} (m : M Page A) (h : JsError -> M Page A) :
  opens_no_tab m -> (forall e, opens_no_tab (h e)) -> opens_no_tab (try_catch m h).
Proof.
  intros Hm Hh p. unfold try_catch. specialize (Hm p).
  destruct (m p) as [[a | e] p']; simpl in *; [done |]. by rewrite Hh.
Qed.

Lemma no_tab_set_ui (f : State -> State) : opens_no_tab (set_ui f).
Proof. by intros [u [st tr]]. Qed.

Lemma no_tab_get (key : string) : opens_no_tab (in_host (ExtensionStorageManager.get key)).
Proof. by intros [u [st tr]]. Qed.

Lemma no_tab_remove (key : string) :
  opens_no_tab (in_host (ExtensionStorageManager.remove key)).
Proof. by intros [u [st tr]]. Qed.

Lemma no_tab_emit (e : Effect) : opens_tab e = false -> opens_no_tab (in_host (emit e)).
Proof.
  intros He [u [st tr]]. simpl. unfold tabs_opened.
  rewrite List.filter_app. simpl. rewrite He. by rewrite app_nil_r.
Qed.

Lemma no_tab_shouldShowUnlockScreen :
  opens_no_tab (in_host WalletManager.shouldShowUnlockScreen).
Proof.
  intros [u [st tr]]. unfold in_host, zoom. by rewrite shouldShowUnlockScreen_eval.
Qed.

Lemma no_tab_load_pending (JSON_parse : string -> option JsVal) (key label : string)
    (f : JsVal -> State -> State) :
  opens_no_tab (load_pending JSON_parse key label (fun v => set_ui (f v))).
Proof.
  unfold load_pending. apply no_tab_bind; [apply no_tab_get |]. intros v.
  destruct (truthy v); [| apply no_tab_ret].
  apply no_tab_try_catch.
  - apply no_tab_bind; [apply no_tab_lift_res | intros; apply no_tab_set_ui].
  - intros e. apply no_tab_bind; [by apply no_tab_emit | intros; apply no_tab_remove].
Qed.

Lemma no_tab_load_wallets (JSON_parse : string -> option JsVal) :
  opens_no_tab (load_wallets JSON_parse).
Proof.
  unfold load_wallets. apply no_tab_bind; [apply no_tab_shouldShowUnlockScreen |].
  intros gate. destruct gate.
  - apply no_tab_bind; [apply no_tab_set_ui | intros; apply no_tab_set_ui].
  - apply no_tab_bind; [apply no_tab_get |]. intros ws.
    apply no_tab_bind; [apply no_tab_get |]. intros active.
    destruct (if truthy ws then _ else _) as [outcome locals].
    apply no_tab_bind.
    { destruct outcome; [apply no_tab_ret | by apply no_tab_emit]. }
    intros _. apply no_tab_bind; [apply no_tab_set_ui |]. intros _.
    apply no_tab_bind; [apply no_tab_set_ui |]. intros _. apply no_tab_set_ui.
Qed.

Lemma no_tab_loadInitialData (JSON_parse : string -> option JsVal) (win : Window) :
  opens_no_tab (loadInitialData JSON_parse win).
Proof.
  intros p. rewrite loadInitialData_steps. cbv zeta. cbn [snd host].
  rewrite no_tab_load_wallets.
  rewrite (no_tab_load_pending JSON_parse _ _
             (fun v s => mkState (wallet s) (wallets s) (isLocked s) (isLoading s)
                           (isPopupMode s) (connectionRequest s) v)).
  rewrite (no_tab_load_pending JSON_parse _ _
             (fun v s => mkState (wallet s) (wallets s) (isLocked s) (isLoading s)
                           (isPopupMode s) v (contractRequest s))).
  by destruct p as [u [st tr]].
Qed.

(** Discharges [opens_no_tab] for a computation built from the popup's
    primitives. *)
Ltac no_tab :=
  repeat first
    [ apply no_tab_ret | apply no_tab_lift_res | apply no_tab_gets
    | apply no_tab_set_ui | apply no_tab_get | apply no_tab_remove
    | apply no_tab_emit; reflexivity
    | apply no_tab_bind; [| intros ?]
    | apply no_tab_try_catch; [| intros ?]
    | match goal with |- opens_no_tab (if ?b then _ else _) => destruct b end
    | match goal with |- opens_no_tab (match ?l with [] => _ | _ :: _ => _ end) =>
        destruct l
      end ].

(** C1. The Surface Policy opens the popup surface for each of the three
    request kinds, and opens no tab whatever it is handed.  In the popup, the
    mount effect, the unlock handler and the four decision handlers open no
    tab either; the one place that does is [openExpandedView], the user's
    "expand view" action, which opens [index.html] in a tab and nothing
    else. *)
Theorem requests_open_the_popup :
  (forall (k : RequestKind) (w : World),
     openSurface (Known k) w =
     (Opened PopupSurface, mkWorld (storage w) (trace w ++ [CreateWindow PopupSurface]))) /\
  (forall (tag : KindTag) (w : World),
     tabs_opened (trace (snd (openSurface tag w))) = tabs_opened (trace w)) /\
  (forall tag w, openSurface (Unrecognized tag) w = (PolicyError, w)) /\
  (forall JSON_parse win, opens_no_tab (loadInitialData JSON_parse win)) /\
  (forall ws, opens_no_tab (handleUnlock ws)) /\
  (forall selected, opens_no_tab (handleConnectionApprove selected)) /\
  opens_no_tab handleConnectionReject /\
  (forall result, opens_no_tab (handleContractApprove result)) /\
  (forall error, opens_no_tab (handleContractReject error)) /\
  (forall win p,
     snd (openExpandedView win p) =
     mkPage (ui p)
       (mkWorld (storage (host p))
          (trace (host p) ++ (if chrome_tabs win then [TabsCreate "index.html"] else [])))).
Proof.
  split; [by intros [] w |].
  split.
  { intros [[] | tag] w; simpl; try done;
      unfold tabs_opened; rewrite List.filter_app; simpl; by rewrite app_nil_r. }
  split; [done |].
  split; [apply no_tab_loadInitialData |].
  split; [intros ws; unfold handleUnlock, setWallets, setIsLocked, setWallet; no_tab |].
  split; [intros selected; unfold handleConnectionApprove; no_tab |].
  split; [unfold handleConnectionReject; no_tab |].
  split; [intros result; unfold handleContractApprove; no_tab |].
  split; [intros error; unfold handleContractReject; no_tab |].
  intros win [u [st tr]]. unfold openExpandedView.
  destruct (chrome_tabs win); simpl; [done |]. by rewrite app_nil_r.
Qed.

End SurfaceFacts.

(** Rewrites a lookup through inserts and deletes at literal keys. *)
Ltac store_lookup :=
  repeat first
    [ rewrite lookup_insert_eq
    | rewrite lookup_insert_ne by done
    | rewrite lookup_delete_eq
    | rewrite lookup_delete_ne by done ].

(** ** More on the Wallet Access Manager: locking, and what unlock leaves alone *)

Section WalletManagerCycle.

Variable verifyPassword : string -> JsVal -> JsVal -> bool.
Variable decryptWalletData : JsVal -> string -> Res string.
Variable JSON_parse : string -> option JsVal.
Variable JSON_stringify : JsVal -> string.

#[local] Abbreviation unlockWallets :=
  (WalletManager.unlockWallets verifyPassword decryptWalletData JSON_parse JSON_stringify).

Lemma lockWallets_eval (w : World) :
  WalletManager.lockWallets w =
  (Ok (),
   mkWorld (<["isWalletLocked" := JStr "true"]>
              (delete "activeWalletId" (delete "wallets" (storage w))))
     (trace w)).
Proof. by destruct w. Qed.

(** X1. [lockWallets] always succeeds.  Afterwards the store holds no
    decrypted wallet list and no active-wallet pointer, the flag is "true",
    every other entry (the password hash, the salt, the encrypted wallets) is
    what it was, and no error was reported on the console.  Locking again
    changes nothing. *)
Theorem lockWallets_clears_session (w : World) :
  exists w' : World,
    WalletManager.lockWallets w = (Ok (), w') /\
    storage w' !! "wallets" = None /\
    storage w' !! "activeWalletId" = None /\
    storage w' !! "isWalletLocked" = Some (JStr "true") /\
    (forall key, key <> "wallets" -> key <> "activeWalletId" -> key <> "isWalletLocked" ->
       storage w' !! key = storage w !! key) /\
    trace w' = trace w /\
    WalletManager.lockWallets w' = (Ok (), w').
Proof.
  eexists. split; [apply lockWallets_eval |]. simpl.
  split; [by rewrite lookup_insert_ne, lookup_delete_ne, lookup_delete_eq |].
  split; [by rewrite lookup_insert_ne, lookup_delete_eq |].
  split; [by rewrite lookup_insert_eq |].
  split; [intros key H1 H2 H3; by rewrite lookup_insert_ne, !lookup_delete_ne |].
  split; [done |].
  rewrite lockWallets_eval. simpl. f_equal. f_equal.
  apply map_eq. intros key.
  destruct (decide (key = "isWalletLocked")) as [-> | Hflag];
    [by rewrite !lookup_insert_eq |].
  rewrite !lookup_insert_ne by done.
  destruct (decide (key = "activeWalletId")) as [-> | Hptr];
    [by rewrite !lookup_delete_eq |].
  rewrite !(lookup_delete_ne _ "activeWalletId") by done.
  destruct (decide (key = "wallets")) as [-> | Hws];
    [by rewrite !lookup_delete_eq |].
  rewrite !(lookup_delete_ne _ "wallets") by done.
  by rewrite lookup_insert_ne, !lookup_delete_ne.
Qed.

(** X2. After [lockWallets] the gate is closed exactly when a password is
    recorded: [shouldShowUnlockScreen] and [isWalletLocked] both answer what
    [isWalletSetup] answers.  On a store without a password the wallets are
    gone all the same, and nothing asks for an unlock. *)
Theorem lock_closes_the_gate (w : World) :
  let w' := snd (WalletManager.lockWallets w) in
  fst (WalletManager.shouldShowUnlockScreen w') = Ok (truthy (read w "walletPasswordHash")) /\
  fst (WalletManager.isWalletLocked w') = Ok (truthy (read w "walletPasswordHash")) /\
  fst (WalletManager.isWalletSetup w') = Ok (truthy (read w "walletPasswordHash")) /\
  read w' "wallets" = JUndefined.
Proof.
  cbv zeta. rewrite lockWallets_eval. cbn [snd].
  rewrite shouldShowUnlockScreen_eval, isWalletLocked_eval, isWalletSetup_eval.
  unfold read. simpl.
  rewrite lookup_insert_eq.
  rewrite !(lookup_insert_ne _ "isWalletLocked") by done.
  rewrite !(lookup_delete_ne _ "activeWalletId") by done.
  rewrite lookup_delete_eq, lookup_delete_ne by done. simpl.
  by rewrite !andb_true_r.
Qed.

Lemma decrypt_one_storage (password : string) (r : JsVal) (f : WalletManager.Frame) :
  storage (WalletManager.world
             (snd (WalletManager.decrypt_one decryptWalletData JSON_parse password r f)))
  = storage (WalletManager.world f).
Proof.
  destruct f as [[st tr] ds].
  unfold WalletManager.decrypt_one, try_catch, bind, lift_res, WalletManager.push,
    WalletManager.in_world, zoom, emit, modify.
  destruct (get_field r "encryptedData") as [data | e]; simpl.
  - destruct (decryptWalletData data password) as [text | e]; simpl.
    + destruct (WalletManager.parse JSON_parse text); simpl; [done |].
      by destruct (get_field r "address").
    + by destruct (get_field r "address").
  - by destruct (get_field r "address").
Qed.

Lemma decrypt_each_storage (password : string) (rs : list JsVal) (f : WalletManager.Frame) :
  storage (WalletManager.world
             (snd (WalletManager.decrypt_each decryptWalletData JSON_parse password rs f)))
  = storage (WalletManager.world f).
Proof.
  revert f. induction rs as [| r rs IH]; intros f; [done |].
  cbn [WalletManager.decrypt_each]. unfold bind.
  pose proof (decrypt_one_storage password r f) as Hone.
  destruct (WalletManager.decrypt_one decryptWalletData JSON_parse password r f)
    as [[[] | e] f']; simpl in *; [| done].
  by rewrite IH.
Qed.

Lemma decrypt_stored_storage (password : string) (v : JsVal) (f : WalletManager.Frame) :
  storage (WalletManager.world
             (snd (WalletManager.decrypt_stored decryptWalletData JSON_parse password v f)))
  = storage (WalletManager.world f).
Proof.
  unfold WalletManager.decrypt_stored, try_catch.
  match goal with |- context [bind ?m ?k f] => set (body := bind m k) end.
  assert (Hbody : storage (WalletManager.world (snd (body f)))
                  = storage (WalletManager.world f)).
  { unfold body, bind.
    assert (Hloop : forall parsed,
              storage (WalletManager.world
                 (snd (match lift_res (iterate parsed) f with
                       | (Ok records, f') =>
                           WalletManager.decrypt_each decryptWalletData JSON_parse
                             password records f'
                       | (Throw e, f') => (Throw e, f')
                       end))) = storage (WalletManager.world f)).
    { intros parsed. unfold lift_res. destruct (iterate parsed); [| done].
      apply decrypt_each_storage. }
    destruct v; try done.
    - unfold lift_res at 1.
      destruct (WalletManager.parse JSON_parse s); [apply Hloop | done].
    - unfold ret. apply Hloop. }
  destruct (body f) as [[[] | e] f']; simpl in *; [done |].
  by destruct f' as [[st tr] ds].
Qed.

Lemma unlockWallets_other_keys (password : string) (w : World) (key : string) :
  key <> "wallets" -> key <> "isWalletLocked" -> key <> "activeWalletId" ->
  storage (snd (unlockWallets password w)) !! key = storage w !! key.
Proof.
  intros Hws Hflag Hptr.
  unfold WalletManager.unlockWallets, try_catch, zoom.
  assert (Hbody : storage (WalletManager.world
                    (snd (WalletManager.unlock_body verifyPassword decryptWalletData
                            JSON_parse JSON_stringify password (WalletManager.mkFrame w []))))
                  !! key = storage w !! key).
  { unfold WalletManager.unlock_body.
    unfold bind at 1. unfold WalletManager.in_world at 1, zoom, ExtensionStorageManager.get,
      gets. cbn [fst snd WalletManager.world WalletManager.decryptedWallets].
    unfold bind at 1. unfold WalletManager.in_world at 1, zoom.
    cbn [fst snd WalletManager.world WalletManager.decryptedWallets].
    destruct (negb _ || negb _); [done |].
    destruct (negb _); [done |].
    unfold bind at 1. unfold WalletManager.in_world at 1, zoom.
    cbn [fst snd WalletManager.world WalletManager.decryptedWallets].
    unfold bind at 1.
    set (m := if truthy (read w "encryptedWallets") then _ else _).
    assert (Hm : storage (WalletManager.world (snd (m (WalletManager.mkFrame w []))))
                 = storage w).
    { unfold m. destruct (truthy (read w "encryptedWallets")); [| done].
      by rewrite decrypt_stored_storage. }
    destruct (m (WalletManager.mkFrame w [])) as [[[] | e] [[st tr] ds]];
      simpl in Hm; subst st; [| done].
    unfold bind, gets, WalletManager.in_world, zoom, ExtensionStorageManager.set,
      ExtensionStorageManager.get, gets, modify, set_storage, lift_res, ret.
    cbn [fst snd WalletManager.world WalletManager.decryptedWallets storage trace].
    destruct ds as [| first rest];
      cbn [fst snd WalletManager.world WalletManager.decryptedWallets storage trace].
    - by rewrite !lookup_insert_ne.
    - destruct (negb _);
        cbn [fst snd WalletManager.world WalletManager.decryptedWallets storage trace].
      + destruct (get_field first "address");
          cbn [fst snd WalletManager.world WalletManager.decryptedWallets storage trace];
          by rewrite !lookup_insert_ne.
      + by rewrite !lookup_insert_ne. }
  destruct (WalletManager.unlock_body _ _ _ _ _ _) as [[a | e] [w' ds]]; simpl in *; done.
Qed.

(** X3. Whatever the store holds and whatever the password, [unlockWallets]
    changes no entry other than [wallets], [isWalletLocked] and
    [activeWalletId]: the password hash, the salt and the encrypted wallets
    come out as they went in. *)
Theorem unlockWallets_frame (password : string) (w : World) (key : string) :
  key <> "wallets" -> key <> "isWalletLocked" -> key <> "activeWalletId" ->
  storage (snd (unlockWallets password w)) !! key = storage w !! key.
Proof. apply unlockWallets_other_keys. Qed.

(** The store a successful unlock leaves behind. *)
Lemma unlock_store_shape (password : string) (w : World) (rs : list JsVal) :
  truthy (read w "walletPasswordHash") = true ->
  truthy (read w "walletPasswordSalt") = true ->
  verifyPassword password (read w "walletPasswordHash") (read w "walletPasswordSalt") = true ->
  stored_records JSON_parse w = Some rs ->
  Forall (fun r => nullish r = false) rs ->
  let kept := survivors decryptWalletData JSON_parse password rs in
  let base := <["isWalletLocked" := JStr "false"]>
                (<["wallets" := JStr (JSON_stringify (JArr kept))]> (storage w)) in
  storage (snd (unlockWallets password w)) =
  match kept with
  | first :: _ =>
      if truthy (read w "activeWalletId") then base
      else match get_field first "address" with
           | Ok a => <["activeWalletId" := a]> base
           | Throw _ => base
           end
  | [] => base
  end.
Proof.
  intros Hhash Hsalt Hvalid Hstored Hrs. cbv zeta.
  rewrite (unlockWallets_eval verifyPassword decryptWalletData JSON_parse JSON_stringify
             password w rs Hhash Hsalt Hvalid Hstored Hrs).
  destruct (survivors decryptWalletData JSON_parse password rs) as [| first rest]; [done |].
  destruct (truthy (read w "activeWalletId")); [done |].
  by destruct (get_field first "address").
Qed.

(** X4. After an unlock with a password that verifies, over records that
    can be read, the gate is open as long as the serialised wallet list is not
    the empty text: [shouldShowUnlockScreen] and [isWalletLocked] both answer
    false on the store the unlock leaves behind. *)
Theorem unlock_opens_the_gate (password : string) (w : World) (rs : list JsVal) :
  truthy (read w "walletPasswordHash") = true ->
  truthy (read w "walletPasswordSalt") = true ->
  verifyPassword password (read w "walletPasswordHash") (read w "walletPasswordSalt") = true ->
  stored_records JSON_parse w = Some rs ->
  Forall (fun r => nullish r = false) rs ->
  JSON_stringify (JArr (survivors decryptWalletData JSON_parse password rs)) <> "" ->
  let w' := snd (unlockWallets password w) in
  fst (WalletManager.shouldShowUnlockScreen w') = Ok false /\
  fst (WalletManager.isWalletLocked w') = Ok false.
Proof.
  intros Hhash Hsalt Hvalid Hstored Hrs Htext. cbv zeta.
  pose proof (unlock_store_shape password w rs Hhash Hsalt Hvalid Hstored Hrs) as Hshape.
  cbv zeta in Hshape.
  set (kept := survivors decryptWalletData JSON_parse password rs) in *.
  set (base := <["isWalletLocked" := JStr "false"]>
                 (<["wallets" := JStr (JSON_stringify (JArr kept))]> (storage w))) in *.
  set (w' := snd (unlockWallets password w)) in *.
  assert (Hflag : read w' "isWalletLocked" = JStr "false").
  { unfold read. rewrite Hshape. unfold base.
    destruct kept as [| first rest]; [by store_lookup |].
    destruct (truthy (read w "activeWalletId")); [by store_lookup |].
    destruct (get_field first "address"); by store_lookup. }
  assert (Hws : read w' "wallets" = JStr (JSON_stringify (JArr kept))).
  { unfold read. rewrite Hshape. unfold base.
    destruct kept as [| first rest]; [by store_lookup |].
    destruct (truthy (read w "activeWalletId")); [by store_lookup |].
    destruct (get_field first "address"); by store_lookup. }
  rewrite shouldShowUnlockScreen_eval, isWalletLocked_eval. simpl.
  rewrite Hflag, Hws. simpl.
  apply String.eqb_neq in Htext. rewrite Htext. simpl.
  by rewrite andb_false_r.
Qed.


(** What a call with a verified password does when no record can be taken
    from the store. *)
Lemma decrypt_stored_unusable (password : string) (v : JsVal) (w : World) :
  unusable_records JSON_parse v -> truthy v = true ->
  exists e : JsError,
    WalletManager.decrypt_stored decryptWalletData JSON_parse password v
      (WalletManager.mkFrame w [])
    = (Ok (),
       WalletManager.mkFrame
         (mkWorld (storage w)
            (trace w ++ [ConsoleError "Failed to parse encrypted wallets:" [] (Some e)]))
         []).
Proof.
  intros Hbad Htruthy. destruct w as [st tr].
  unfold WalletManager.decrypt_stored, try_catch, bind, lift_res, throw, ret,
    WalletManager.in_world, zoom, emit, modify.
  destruct v as [| | b | q | s | items | fs]; simpl in *; try done;
    try (eexists; reflexivity).
  destruct Hbad as [-> | Hbad]; [done |].
  unfold WalletManager.parse.
  destruct (JSON_parse s) as [parsed |]; [| eexists; reflexivity].
  destruct (iterate parsed); [done | eexists; reflexivity].
Qed.

(** X6. With a password that verifies, a missing or unreadable encrypted
    wallet entry does not make the unlock fail: it resolves with the empty
    list, writes the empty list and the flag "false", leaves the pointer alone
    and logs at most the one line that says the entry could not be parsed. *)
Theorem unlock_with_unusable_records (password : string) (w : World) :
  truthy (read w "walletPasswordHash") = true ->
  truthy (read w "walletPasswordSalt") = true ->
  verifyPassword password (read w "walletPasswordHash") (read w "walletPasswordSalt") = true ->
  unusable_records JSON_parse (read w "encryptedWallets") ->
  exists w' : World,
    unlockWallets password w = (Ok [], w') /\
    storage w' = <["isWalletLocked" := JStr "false"]>
                   (<["wallets" := JStr (JSON_stringify (JArr []))]> (storage w)) /\
    (trace w' = trace w \/
     exists e, trace w' =
               trace w ++ [ConsoleError "Failed to parse encrypted wallets:" [] (Some e)]).
Proof.
  intros Hhash Hsalt Hvalid Hbad.
  unfold WalletManager.unlockWallets, WalletManager.unlock_body, try_catch, zoom.
  unfold bind at 1. unfold WalletManager.in_world at 1, zoom, ExtensionStorageManager.get,
    gets. cbn [fst snd WalletManager.world WalletManager.decryptedWallets].
  unfold bind at 1. unfold WalletManager.in_world at 1, zoom.
  cbn [fst snd WalletManager.world WalletManager.decryptedWallets].
  rewrite Hhash, Hsalt, Hvalid. cbn [negb orb].
  unfold bind at 1. unfold WalletManager.in_world at 1, zoom.
  cbn [fst snd WalletManager.world WalletManager.decryptedWallets].
  unfold bind at 1.
  destruct (truthy (read w "encryptedWallets")) eqn:Htruthy.
  - destruct (decrypt_stored_unusable password _ w Hbad Htruthy) as [e ->].
    eexists. split; [reflexivity |]. split; [reflexivity |]. right. by exists e.
  - destruct w as [st tr]. eexists. split; [reflexivity |]. split; [reflexivity |].
    by left.
Qed.

End WalletManagerCycle.

(** ** More on the popup: what mount loads, what it leaves alone, and what the
    handlers persist *)

Section PopupLifecycle.
Import PopupApp.

Variable JSON_parse : string -> option JsVal.
Variable JSON_stringify : JsVal -> string.

#[local] Abbreviation request_cell :=
  (fun (v : JsVal) (s : State) =>
     mkState (wallet s) (wallets s) (isLocked s) (isLoading s) (isPopupMode s)
       v (contractRequest s)).
#[local] Abbreviation call_cell :=
  (fun (v : JsVal) (s : State) =>
     mkState (wallet s) (wallets s) (isLocked s) (isLoading s) (isPopupMode s)
       (connectionRequest s) v).

(** What the wallet-loading half leaves in the component. *)
Lemma load_wallets_state (p : Page) :
  ui (snd (load_wallets JSON_parse p)) =
  if gate (host p) then
    mkState (wallet (ui p)) (wallets (ui p)) true false (isPopupMode (ui p))
      (connectionRequest (ui p)) (contractRequest (ui p))
  else
    let sel := selection JSON_parse (read (host p) "wallets") (read (host p) "activeWalletId") in
    mkState (activeWallet sel) (loadedWallets sel) false (isLoading (ui p))
      (isPopupMode (ui p)) (connectionRequest (ui p)) (contractRequest (ui p)).
Proof.
  destruct p as [u [st tr]].
  unfold load_wallets, bind, in_host, zoom. rewrite shouldShowUnlockScreen_eval.
  cbn [fst snd host ui]. fold (gate (mkWorld st tr)).
  destruct (gate (mkWorld st tr)); [done |].
  unfold ExtensionStorageManager.get, gets, selection. cbn [fst snd host ui].
  destruct (truthy (read (mkWorld st tr) "wallets")).
  - destruct (select_wallets JSON_parse _ _ _) as [[[] | e] locals]; done.
  - done.
Qed.

(** The component a freshly mounted popup ends up with, in terms of the store
    it was mounted over. *)
Lemma mount_state (win : Window) (w : World) :
  ui (snd (loadInitialData JSON_parse win (mkPage initial w))) =
  let sel := selection JSON_parse (read w "wallets") (read w "activeWalletId") in
  mkState
    (if gate w then JNull else activeWallet sel)
    (if gate w then [] else loadedWallets sel)
    (gate w) false
    (bool_decide (is_Some (String.index 0 "popup.html" (pathname win)))
     || (innerWidth win <=? 500))
    (pending_value JSON_parse (read w "pendingConnectionRequest"))
    (pending_value JSON_parse (read w "pendingContractRequest")).
Proof.
  rewrite loadInitialData_steps. cbv zeta. cbn [snd ui].
  set (b := bool_decide (is_Some (String.index 0 "popup.html" (pathname win)))
            || (innerWidth win <=? 500)).
  set (p1 := snd (setIsPopupMode b (mkPage initial w))).
  set (p2 := snd (load_pending JSON_parse "pendingConnectionRequest" _ setConnectionRequest p1)).
  set (p3 := snd (load_pending JSON_parse "pendingContractRequest" _ setContractRequest p2)).
  assert (H2 : ui p2 = request_cell
                         (pending_value JSON_parse (read w "pendingConnectionRequest")) (ui p1)).
  { unfold p2. rewrite (load_pending_ui JSON_parse _ _ request_cell).
    unfold pending_value. change (read (host p1) "pendingConnectionRequest")
      with (read w "pendingConnectionRequest").
    destruct (truthy (read w "pendingConnectionRequest")); [| done].
    by destruct (parse_if_string JSON_parse (read w "pendingConnectionRequest")). }
  assert (Hread2 : forall k, k <> "pendingConnectionRequest" -> read (host p2) k = read w k).
  { intros k Hk. unfold read, p2.
    by rewrite (load_pending_lookup_other JSON_parse k "pendingConnectionRequest" _
                  request_cell). }
  assert (H3 : ui p3 = call_cell
                         (pending_value JSON_parse (read w "pendingContractRequest")) (ui p2)).
  { unfold p3. rewrite (load_pending_ui JSON_parse _ _ call_cell).
    unfold pending_value. rewrite Hread2 by done.
    destruct (truthy (read w "pendingContractRequest")); [| by rewrite H2].
    destruct (parse_if_string JSON_parse (read w "pendingContractRequest")); [done |].
    by rewrite H2. }
  assert (Hread3 : forall k, k <> "pendingConnectionRequest" -> k <> "pendingContractRequest" ->
                     read (host p3) k = read w k).
  { intros k Hk1 Hk2. rewrite <- (Hread2 k Hk1). unfold read, p3.
    by rewrite (load_pending_lookup_other JSON_parse k "pendingContractRequest" _ call_cell). }
  assert (Hgate : gate (host p3) = gate w).
  { unfold gate. by rewrite !Hread3. }
  rewrite load_wallets_state, Hgate, !Hread3, H3, H2 by done.
  by destruct (gate w).
Qed.

Lemma find_by_address_found (ws : list JsVal) (id found : JsVal) :
  find_by_address ws id = Ok found ->
  found = JUndefined \/
  (found ∈ ws /\ exists a, get_field found "address" = Ok a /\ strict_eq a id = true).
Proof.
  induction ws as [| w ws IH]; simpl.
  - intros [= <-]. by left.
  - destruct (get_field w "address") as [a | e] eqn:Ha; [| done].
    destruct (strict_eq a id) eqn:Heq.
    + intros [= <-]. right. split; [left | by exists a].
    + intros Hrest. destruct (IH Hrest) as [-> | [Hin Haddr]]; [by left | right].
      split; [by right | done].
Qed.

(** What [loadInitialData] selects: nothing from an empty or unreadable list;
    otherwise a member of the list, the first one unless the pointer names
    another by its address. *)
Lemma selection_shape (stored pointer : JsVal) :
  let sel := selection JSON_parse stored pointer in
  (loadedWallets sel = [] /\ activeWallet sel = JNull) \/
  (exists first rest,
     loadedWallets sel = first :: rest /\
     activeWallet sel ∈ loadedWallets sel /\
     (activeWallet sel = first \/
      exists a, get_field (activeWallet sel) "address" = Ok a /\
                strict_eq a pointer = true)).
Proof.
  cbv zeta. unfold selection. destruct (truthy stored); [| by left].
  unfold select_wallets, bind, lift_res, modify, ret.
  destruct (parse_if_string JSON_parse stored) as [parsed | e]; [| by left].
  destruct parsed as [| | | | | items |]; try by left.
  destruct items as [| first rest]; [by left |]. right. exists first, rest.
  cbn [fst snd loadedWallets activeWallet].
  destruct (truthy pointer); cbn [fst snd loadedWallets activeWallet].
  - destruct (find_by_address (first :: rest) pointer) as [found | e] eqn:Hfind;
      cbn [fst snd loadedWallets activeWallet].
    + destruct (truthy found) eqn:Htruthy; cbn [fst snd loadedWallets activeWallet].
      * destruct (find_by_address_found _ _ _ Hfind) as [-> | [Hin Haddr]]; [done |].
        split; [done |]. split; [done | by right].
      * split; [done |]. split; [left | by left].
    + split; [done |]. split; [left | by left].
  - split; [done |]. split; [left | by left].
Qed.

(** X7. Mounted over a store whose gate is closed, the popup loads no wallet:
    its wallet list is empty, no wallet is selected, it is locked, and it does
    not show the dashboard or the welcome screen, whatever the [wallets] entry
    of the store holds. *)
Theorem gated_mount_loads_no_wallet (win : Window) (w : World) :
  gate w = true ->
  let s' := ui (snd (loadInitialData JSON_parse win (mkPage initial w))) in
  wallets s' = [] /\ wallet s' = JNull /\ isLocked s' = true /\
  render s' <> WelcomeScreen /\
  forall selected all, render s' <> WalletDashboard selected all.
Proof.
  intros Hgate. cbv zeta. rewrite mount_state. cbv zeta. rewrite Hgate.
  split; [done |]. split; [done |]. split; [done |].
  unfold render. simpl. split; [| intros selected all]; by repeat case_match.
Qed.

(** X8. Whatever the store holds, the wallet a freshly mounted popup has
    selected is one of the wallets it has loaded: either it has loaded none
    and selected none, or the selected wallet is a member of the loaded list,
    namely its first entry unless the stored pointer equals the address of the
    selected one. *)
Theorem mounted_wallet_is_loaded (win : Window) (w : World) :
  let s' := ui (snd (loadInitialData JSON_parse win (mkPage initial w))) in
  (wallets s' = [] /\ wallet s' = JNull) \/
  (gate w = false /\
   wallet s' ∈ wallets s' /\
   (Some (wallet s') = head (wallets s') \/
    exists a, get_field (wallet s') "address" = Ok a /\
              strict_eq a (read w "activeWalletId") = true)).
Proof.
  cbv zeta. rewrite mount_state. cbv zeta. cbn [wallet wallets].
  destruct (gate w); [by left |].
  destruct (selection_shape (read w "wallets") (read w "activeWalletId"))
    as [[-> ->] | (first & rest & Hloaded & Hin & Hwhich)]; [by left | right].
  split; [done |]. split; [done |]. rewrite Hloaded. simpl.
  destruct Hwhich as [-> | Hmatch]; [by left | by right].
Qed.

(** What reading a pending request does to the store and to the trace. *)
Lemma load_pending_passive (key label : string) (setRequest : JsVal -> M Page ()) (p : Page) :
  (forall v q, host (snd (setRequest v q)) = host q) ->
  let p' := snd (load_pending JSON_parse key label setRequest p) in
  (storage (host p') = storage (host p) \/
   storage (host p') = delete key (storage (host p))) /\
  exists log, trace (host p') = trace (host p) ++ log /\ Forall (fun e => is_log e = true) log.
Proof.
  intros Hset. destruct p as [u [st tr]]. cbv zeta.
  unfold load_pending, bind, in_host, zoom, ExtensionStorageManager.get, gets, try_catch,
    lift_res, emit, modify, ExtensionStorageManager.remove. simpl.
  destruct (truthy (read (mkWorld st tr) key)).
  - destruct (parse_if_string JSON_parse (read (mkWorld st tr) key)) as [v | e]; simpl.
    + specialize (Hset v (mkPage u (mkWorld st tr))).
      destruct (setRequest v (mkPage u (mkWorld st tr))) as [[[] | e] [u' h']];
        simpl in *; subst h'; simpl.
      * split; [by left |]. exists []. by rewrite app_nil_r.
      * split; [by right |]. eexists. split; [done |]. by repeat constructor.
    + split; [by right |]. eexists. split; [done |]. by repeat constructor.
  - split; [by left |]. exists []. by rewrite app_nil_r.
Qed.

Lemma load_wallets_passive (p : Page) :
  let p' := snd (load_wallets JSON_parse p) in
  storage (host p') = storage (host p) /\
  exists log, trace (host p') = trace (host p) ++ log /\ Forall (fun e => is_log e = true) log.
Proof.
  cbv zeta. split; [by destruct (load_wallets_ok JSON_parse p) |].
  destruct p as [u [st tr]].
  unfold load_wallets, bind, in_host, zoom. rewrite shouldShowUnlockScreen_eval.
  cbn [fst snd host ui].
  destruct (truthy (read (mkWorld st tr) "walletPasswordHash") && _).
  { exists []. simpl. by rewrite app_nil_r. }
  unfold ExtensionStorageManager.get, gets. cbn [fst snd host ui].
  destruct (if truthy (read (mkWorld st tr) "wallets") then _ else _) as [[[] | e] locals].
  - exists []. simpl. by rewrite app_nil_r.
  - eexists. simpl. split; [done |]. by repeat constructor.
Qed.

(** X9. Mounting the popup is passive.  It never writes to the store: every
    entry afterwards is the entry before, except that a pending-request entry
    may have been removed.  And it does nothing observable but log: it sends
    no message to Background, opens nothing and does not close the window. *)
Theorem mount_is_passive (win : Window) :
  only_drops_requests (loadInitialData JSON_parse win) /\
  only_logs (loadInitialData JSON_parse win).
Proof.
  assert (Hall : forall p,
    let p' := snd (loadInitialData JSON_parse win p) in
    (forall key,
       storage (host p') !! key = storage (host p) !! key \/
       (is_pending_key key /\ storage (host p') !! key = None)) /\
    exists log, trace (host p') = trace (host p) ++ log /\
                Forall (fun e => is_log e = true) log).
  { intros p. cbv zeta. rewrite loadInitialData_steps. cbv zeta. cbn [snd host].
    set (b := bool_decide (is_Some (String.index 0 "popup.html" (pathname win)))
              || (innerWidth win <=? 500)).
    set (p1 := snd (setIsPopupMode b p)).
    assert (H1 : host p1 = host p) by (by destruct p as [u [st tr]]).
    assert (Hset1 : forall v q, host (snd (setConnectionRequest v q)) = host q)
      by (by intros v [u h]).
    assert (Hset2 : forall v q, host (snd (setContractRequest v q)) = host q)
      by (by intros v [u h]).
    pose proof (load_pending_passive "pendingConnectionRequest"
                  "Failed to parse connection request:" setConnectionRequest p1 Hset1) as H2.
    cbv zeta in H2.
    set (p2 := snd (load_pending JSON_parse "pendingConnectionRequest" _
                      setConnectionRequest p1)) in *.
    pose proof (load_pending_passive "pendingContractRequest"
                  "Failed to parse contract request:" setContractRequest p2 Hset2) as H3.
    cbv zeta in H3.
    set (p3 := snd (load_pending JSON_parse "pendingContractRequest" _
                      setContractRequest p2)) in *.
    pose proof (load_wallets_passive p3) as H4. cbv zeta in H4.
    destruct H2 as [Hst2 (log2 & Htr2 & Hlog2)], H3 as [Hst3 (log3 & Htr3 & Hlog3)],
      H4 as [Hst4 (log4 & Htr4 & Hlog4)].
    rewrite H1 in *. split.
    - intros key. rewrite Hst4.
      destruct Hst3 as [-> | ->], Hst2 as [-> | ->].
      + by left.
      + destruct (decide (key = "pendingConnectionRequest")) as [-> | Hne].
        * right. split; [by left | apply lookup_delete_eq].
        * left. by rewrite lookup_delete_ne.
      + destruct (decide (key = "pendingContractRequest")) as [-> | Hne].
        * right. split; [by right | apply lookup_delete_eq].
        * left. by rewrite lookup_delete_ne.
      + destruct (decide (key = "pendingContractRequest")) as [-> | Hne];
          [right; split; [by right | apply lookup_delete_eq] |].
        rewrite lookup_delete_ne by done.
        destruct (decide (key = "pendingConnectionRequest")) as [-> | Hne'].
        * right. split; [by left | apply lookup_delete_eq].
        * left. by rewrite lookup_delete_ne.
    - exists (log2 ++ log3 ++ log4). split.
      + by rewrite Htr4, Htr3, Htr2, <- !app_assoc.
      + by rewrite !Forall_app. }
  split; intros p; [intros key |]; by destruct (Hall p).
Qed.

Lemma truthy_get_field (v : JsVal) (name : string) :
  truthy v = true -> exists x, get_field v name = Ok x.
Proof. destruct v; try done; intros _; eexists; reflexivity. Qed.


(** The page after a decision: same component, the entry gone, the message
    sent and the window closed. *)
#[local] Abbreviation settled :=
  (fun (p : Page) (key : string) (msg : JsVal) =>
     mkPage (ui p)
       (mkWorld (delete key (storage (host p)))
          (trace (host p) ++ [SendMessage msg; WindowClose]))).

Lemma remount_without_request (win : Window) (w : World) (key : string) :
  storage w !! key = None ->
  pending_value JSON_parse (read w key) = JNull.
Proof. intros Hnone. unfold pending_value, read. by rewrite Hnone. Qed.

(** X10. A decision on a contract request settles it.  While the popup holds
    a contract request, [handleContractApprove] and [handleContractReject] each
    send exactly one [CONTRACT_RESULT] message for the request's origin, with
    the result or the error, remove the [pendingContractRequest] entry and
    close the window; a popup mounted afterwards holds no contract request.
    While it holds none, both do nothing at all. *)
Theorem contract_decision_settles_request (p : Page) (result error : JsVal) :
  (truthy (contractRequest (ui p)) = false ->
   handleContractApprove result p = (Ok (), p) /\
   handleContractReject error p = (Ok (), p)) /\
  (truthy (contractRequest (ui p)) = true ->
   exists origin,
     get_field (contractRequest (ui p)) "origin" = Ok origin /\
     handleContractApprove result p =
     (Ok (), settled p "pendingContractRequest"
               (JObj [("type", JStr "CONTRACT_RESULT"); ("origin", origin);
                      ("approved", JBool true); ("result", result)])) /\
     handleContractReject error p =
     (Ok (), settled p "pendingContractRequest"
               (JObj [("type", JStr "CONTRACT_RESULT"); ("origin", origin);
                      ("approved", JBool false); ("error", error)])) /\
     forall win msg,
       contractRequest
         (ui (snd (loadInitialData JSON_parse win
                     (mkPage initial (host (settled p "pendingContractRequest" msg))))))
       = JNull).
Proof.
  destruct p as [u [st tr]]. simpl. split.
  - intros Hnone. unfold handleContractApprove, handleContractReject, bind, gets. simpl.
    by rewrite Hnone.
  - intros Hreq. destruct (truthy_get_field _ "origin" Hreq) as [origin Horigin].
    exists origin. split; [done |].
    unfold handleContractApprove, handleContractReject, bind, gets, lift_res, in_host, zoom,
      emit, modify, ExtensionStorageManager.remove, set_storage. simpl.
    rewrite Hreq, Horigin. simpl. rewrite <- !app_assoc. simpl.
    split; [done |]. split; [done |].
    intros win msg. rewrite mount_state. cbv zeta. cbn [contractRequest].
    apply (remount_without_request win). simpl. apply lookup_delete_eq.
Qed.

(** X11. A decision on a connection request settles it in the same way, with
    a [CONNECTION_RESULT] message; an approval carries the address of the
    selected wallet.  An approval with no wallet selected throws before
    anything is sent: the page is unchanged and the request is still pending. *)
Theorem connection_decision_settles_request (p : Page) (selected : JsVal) :
  (truthy (connectionRequest (ui p)) = false ->
   handleConnectionApprove selected p = (Ok (), p) /\
   handleConnectionReject p = (Ok (), p)) /\
  (truthy (connectionRequest (ui p)) = true ->
   exists origin,
     get_field (connectionRequest (ui p)) "origin" = Ok origin /\
     handleConnectionReject p =
     (Ok (), settled p "pendingConnectionRequest"
               (JObj [("type", JStr "CONNECTION_RESULT"); ("origin", origin);
                      ("approved", JBool false)])) /\
     (forall address,
        get_field selected "address" = Ok address ->
        handleConnectionApprove selected p =
        (Ok (), settled p "pendingConnectionRequest"
                  (JObj [("type", JStr "CONNECTION_RESULT"); ("origin", origin);
                         ("approved", JBool true); ("address", address)]))) /\
     (nullish selected = true ->
      exists e, handleConnectionApprove selected p = (Throw e, p)) /\
     forall win msg,
       connectionRequest
         (ui (snd (loadInitialData JSON_parse win
                     (mkPage initial (host (settled p "pendingConnectionRequest" msg))))))
       = JNull).
Proof.
  destruct p as [u [st tr]]. simpl. split.
  - intros Hnone. unfold handleConnectionApprove, handleConnectionReject, bind, gets. simpl.
    by rewrite Hnone.
  - intros Hreq. destruct (truthy_get_field _ "origin" Hreq) as [origin Horigin].
    exists origin. split; [done |].
    unfold handleConnectionApprove, handleConnectionReject, bind, gets, lift_res, in_host,
      zoom, emit, modify, ExtensionStorageManager.remove, set_storage. simpl.
    rewrite Hreq, Horigin. simpl. rewrite <- !app_assoc. simpl.
    split; [done |]. split.
    { intros address ->. simpl. by rewrite <- !app_assoc. }
    split.
    { intros Hnull. destruct selected; try done; eexists; reflexivity. }
    intros win msg. rewrite mount_state. cbv zeta. cbn [connectionRequest].
    apply (remount_without_request win). simpl. apply lookup_delete_eq.
Qed.









Lemma disconnectWallet_eval (u : State) (st : gmap string JsVal) (tr : list Effect) :
  disconnectWallet (mkPage u (mkWorld st tr)) =
  (Ok (),
   mkPage (mkState JNull [] true (isLoading u) (isPopupMode u)
             (connectionRequest u) (contractRequest u))
     (mkWorld (<["isWalletLocked" := JStr "true"]>
                 (delete "activeWalletId" (delete "wallets" st))) tr)).
Proof. reflexivity. Qed.

(** X14. [disconnectWallet] never throws and leaves the popup locked with no
    wallet loaded or selected, over a store that holds neither the decrypted
    wallets nor the pointer.  A popup mounted afterwards loads no wallet
    either: it is locked exactly when a password is recorded, and with no
    request pending it shows the unlock screen in that case and the welcome
    screen otherwise. *)
Theorem disconnect_then_remount (win : Window) (p : Page) :
  let p1 := snd (disconnectWallet p) in
  let s' := ui (snd (loadInitialData JSON_parse win (mkPage initial (host p1)))) in
  fst (disconnectWallet p) = Ok () /\
  wallet (ui p1) = JNull /\ wallets (ui p1) = [] /\ isLocked (ui p1) = true /\
  read (host p1) "wallets" = JUndefined /\ read (host p1) "activeWalletId" = JUndefined /\
  read (host p1) "isWalletLocked" = JStr "true" /\
  wallets s' = [] /\ wallet s' = JNull /\
  isLocked s' = truthy (read (host p) "walletPasswordHash") /\
  (storage (host p) !! "pendingConnectionRequest" = None ->
   storage (host p) !! "pendingContractRequest" = None ->
   render s' = if truthy (read (host p) "walletPasswordHash") then UnlockWallet
               else WelcomeScreen).
Proof.
  destruct p as [u [st tr]]. cbv zeta. rewrite disconnectWallet_eval.
  cbn [fst snd ui host wallet wallets isLocked].
  set (w1 := mkWorld _ tr).
  assert (Hws : read w1 "wallets" = JUndefined)
    by (unfold read, w1; simpl; by store_lookup).
  assert (Hptr : read w1 "activeWalletId" = JUndefined)
    by (unfold read, w1; simpl; by store_lookup).
  assert (Hflag : read w1 "isWalletLocked" = JStr "true")
    by (unfold read, w1; simpl; by store_lookup).
  assert (Hsame : forall k, k <> "wallets" -> k <> "activeWalletId" -> k <> "isWalletLocked" ->
                    read w1 k = read (mkWorld st tr) k)
    by (intros k H1 H2 H3; unfold read, w1; simpl; by store_lookup).
  assert (Hgate : gate w1 = truthy (read (mkWorld st tr) "walletPasswordHash")).
  { unfold gate. rewrite Hflag, Hws, Hsame by done. simpl. by rewrite andb_true_r. }
  split; [done |]. split; [done |]. split; [done |]. split; [done |].
  split; [done |]. split; [done |]. split; [done |].
  rewrite mount_state. cbv zeta. rewrite Hgate, Hws.
  cbn [wallet wallets isLocked]. unfold selection at 1 2. simpl truthy. cbv iota.
  cbn [loadedWallets activeWallet].
  split; [by destruct (truthy _) |]. split; [by destruct (truthy _) |]. split; [done |].
  intros Hconn Hcontract. simpl in Hconn, Hcontract.
  assert (Hc1 : read w1 "pendingConnectionRequest" = JUndefined)
    by (rewrite Hsame by done; unfold read; simpl; by rewrite Hconn).
  assert (Hc2 : read w1 "pendingContractRequest" = JUndefined)
    by (rewrite Hsame by done; unfold read; simpl; by rewrite Hcontract).
  unfold render.
  cbn [isLoading connectionRequest contractRequest isLocked wallet wallets].
  rewrite Hc1, Hc2. unfold pending_value. simpl.
  by destruct (truthy (read (mkWorld st tr) "walletPasswordHash")).
Qed.

End PopupLifecycle.

(** ** The SDK's connection state *)

Section SdkSession.

Import OctraSDK.

Variable octra : Handshake.
Variable hostname : string.
Variable gt_zero : JsVal -> bool.

Lemma keeps_ret {A} (a : A) : keeps_session (ret a : M Sdk A).
Proof. by intros s. Qed.

Lemma keeps_throw {A} (e : JsError) : keeps_session (throw e : M Sdk A).
Proof. by intros s. Qed.

Lemma keeps_lift_res {A} (r : Res A) : keeps_session (lift_res r : M Sdk A).
Proof. by intros s. Qed.

Lemma keeps_gets {A} (f : Sdk -> A) : keeps_session (gets f).
Proof. by intros s. Qed.

Lemma keeps_record (e : Event) : keeps_session (record e).
Proof. by intros s. Qed.

Lemma keeps_rethrow {A} (fallback : string) (e : JsError) :
  keeps_session (rethrow fallback e : M Sdk A).
Proof. by intros s. Qed.

Lemma keeps_bind {A B} (m : M Sdk A) (k : A -> M Sdk B) :
  keeps_session m -> (forall a, keeps_session (k a)) -> keeps_session (bind m k).
Proof.
  intros Hm Hk s. unfold bind. specialize (Hm s).
  destruct (m s) as [[a|e] s1]; simpl in *; [|done].
  by rewrite Hk.
Qed.

Lemma keeps_try_catch {A} (m : M Sdk A) (h : JsError -> M Sdk A) :
  keeps_session m -> (forall e, keeps_session (h e)) -> keeps_session (try_catch m h).
Proof.
  intros Hm Hh s. unfold try_catch. specialize (Hm s).
  destruct (m s) as [[a|e] s1]; simpl in *; [done|].
  by rewrite Hh.
Qed.

Lemma keeps_request (call : ProviderCall) : keeps_session (request call).
Proof.
  unfold request. apply keeps_bind; [apply keeps_gets|]. intros [answer|].
  - apply keeps_bind; [apply keeps_record|]. intros _. apply keeps_lift_res.
  - apply keeps_throw.
Qed.

Ltac keeps_step :=
  first [ apply keeps_ret | apply keeps_throw | apply keeps_lift_res | apply keeps_gets
        | apply keeps_record | apply keeps_rethrow | apply keeps_request
        | apply keeps_bind; [|intros ?] | apply keeps_try_catch; [|intros ?]
        | match goal with
          | |- keeps_session (if ?b then _ else _) => destruct b
          | |- keeps_session (match ?o with Some _ => _ | None => _ end) => destruct o
          end ].

Lemma keeps_viewCall (options : JsVal) : keeps_session (viewCall options).
Proof. unfold viewCall. repeat keeps_step. Qed.

Lemma keeps_callContract (options : JsVal) : keeps_session (callContract options).
Proof. unfold callContract. repeat keeps_step. Qed.

Lemma keeps_sendTransaction (options : JsVal) : keeps_session (sendTransaction options).
Proof. unfold sendTransaction. repeat keeps_step. Qed.

Lemma keeps_getBalance (address : JsVal) : keeps_session (getBalance address).
Proof. unfold getBalance. repeat keeps_step. Qed.

Lemma keeps_signMessage (msg : JsVal) : keeps_session (signMessage msg).
Proof. unfold signMessage. repeat keeps_step. Qed.

Lemma keeps_getNetwork : keeps_session getNetwork.
Proof. unfold getNetwork. repeat keeps_step. Qed.

Lemma session_fields (s s' : Sdk) :
  session s' = session s ->
  connectedAddress s' = connectedAddress s /\ isConnected s' = isConnected s
  /\ provider s' = provider s.
Proof. unfold session. intros H. by injection H. Qed.

Lemma no_stale_session (s s' : Sdk) :
  session s' = session s -> no_stale_address s -> no_stale_address s'.
Proof.
  intros H Hs. destruct (session_fields _ _ H) as (Ha & Hc & _).
  unfold no_stale_address. rewrite Ha, Hc. exact Hs.
Qed.

Lemma connect_after (options : JsVal) (s : Sdk) :
  let s' := snd (connect octra hostname options s) in
  provider s' = provider s /\ (session s' = session s \/ isConnected s' = true).
Proof.
  unfold connect, isAvailable, bind, gets. simpl.
  destruct (bool_decide (is_Some (provider s))); simpl; [|by split; [|left]].
  set (given := match options with JUndefined => JObj [] | _ => options end).
  destruct (field_or given "appName" (JStr hostname)) as [appName|e]; [|by split; [|left]].
  destruct (field_or given "appIcon" JNull) as [appIcon|e]; [|by split; [|left]].
  destruct (field_or given "permissions" (JArr [JStr "view_address"]))
    as [permissions|e]; [|by split; [|left]].
  unfold try_catch, rethrow, throw, ret.
  destruct (connect_answer octra permissions) as [result|e]; [|by split; [|left]].
  destruct (get_field result "address") as [address|e]; simpl; by split; [|right].
Qed.

Lemma disconnect_eval (s : Sdk) :
  exists log, disconnect octra s = (Ok (), mkSdk JNull false (provider s) log).
Proof.
  unfold disconnect, bind, gets. simpl.
  destruct (provider s) as [answer|] eqn:Hp.
  - unfold try_catch, bind, lift_res, ret.
    destruct (disconnect_answer octra) as [v|e];
      unfold set_connected, set_address, modify, record; simpl; rewrite ?Hp; by eexists.
  - unfold ret, set_connected, set_address, modify. simpl. rewrite Hp. by eexists.
Qed.

Lemma after_no_stale (s : Sdk) (a : Action) :
  no_stale_address s -> no_stale_address (after octra hostname gt_zero s a).
Proof.
  intros Hs. destruct a; simpl.
  - destruct (connect_after options s) as [_ [H|H]].
    + by apply (no_stale_session s).
    + intros Hc. simpl in H. congruence.
  - destruct (disconnect_eval s) as [log ->]. by intros _.
  - by apply (no_stale_session s); [apply keeps_viewCall|].
  - by apply (no_stale_session s); [apply keeps_callContract|].
  - by apply (no_stale_session s); [apply keeps_sendTransaction|].
  - by apply (no_stale_session s); [apply keeps_getBalance|].
  - by apply (no_stale_session s); [apply keeps_signMessage|].
  - by apply (no_stale_session s); [apply keeps_getNetwork|].
  - unfold on_connect, bind, set_connected, set_address, modify, lift_res. simpl.
    destruct (get_field data "address"); simpl; by intros Hc.
  - by intros _.
  - unfold on_accountsChanged, bind, lift_res.
    destruct (App.length_positive gt_zero accounts) as [[|]|e]; simpl; [by intros Hc|by intros _|done].
Qed.

Lemma after_provider (s : Sdk) (a : Action) :
  provider (after octra hostname gt_zero s a) = provider s.
Proof.
  destruct a; simpl.
  - apply connect_after.
  - by destruct (disconnect_eval s) as [log ->].
  - apply session_fields, keeps_viewCall.
  - apply session_fields, keeps_callContract.
  - apply session_fields, keeps_sendTransaction.
  - apply session_fields, keeps_getBalance.
  - apply session_fields, keeps_signMessage.
  - apply session_fields, keeps_getNetwork.
  - unfold on_connect, bind, set_connected, set_address, modify, lift_res. simpl.
    by destruct (get_field data "address").
  - done.
  - unfold on_accountsChanged, bind, lift_res.
    by destruct (App.length_positive gt_zero accounts) as [[|]|e].
Qed.

(** X15.  Whatever sequence of method calls and provider events an instance
    goes through after its construction, returning or throwing, an instance
    whose [isConnected] is false holds [null] as its connected address, and
    its provider is the one detected at construction. *)
Theorem disconnected_instance_has_no_address
    (detected : option Provider) (actions : list Action) :
  let s := fold_left (after octra hostname gt_zero) actions (fresh detected) in
  no_stale_address s /\ provider s = detected.
Proof.
  simpl.
  assert (H : no_stale_address (fresh detected) /\ provider (fresh detected) = detected)
    by (split; [by intros _|done]).
  revert H. generalize (fresh detected). induction actions as [|a actions IH]; intros s [Hs Hp].
  - done.
  - simpl. apply IH. split; [by apply after_no_stale|by rewrite after_provider].
Qed.

Lemma guard_closed (s : Sdk) :
  isConnected s = false ->
  (forall options, viewCall options s = (Throw (Error not_connected), s))
  /\ (forall options, callContract options s = (Throw (Error not_connected), s))
  /\ (forall options, sendTransaction options s = (Throw (Error not_connected), s))
  /\ (forall address, getBalance address s = (Throw (Error not_connected), s))
  /\ (forall msg, signMessage msg s = (Throw (Error not_connected), s)).
Proof.
  intros Hc.
  split_and!; intros x;
    unfold viewCall, callContract, sendTransaction, getBalance, signMessage, bind, gets;
    simpl; by rewrite Hc.
Qed.

(** X16.  [disconnect] never rejects, whatever the provider's own
    [disconnect] does or whether a provider is there at all; it leaves the
    instance not connected with a [null] address and the same provider, and
    from then on each of the five guarded operations rejects with the
    not-connected error without touching the instance. *)
Theorem disconnect_always_resets (s : Sdk) :
  exists s',
    disconnect octra s = (Ok (), s')
    /\ isConnected s' = false /\ connectedAddress s' = JNull /\ provider s' = provider s
    /\ (forall options, viewCall options s' = (Throw (Error not_connected), s'))
    /\ (forall options, callContract options s' = (Throw (Error not_connected), s'))
    /\ (forall options, sendTransaction options s' = (Throw (Error not_connected), s'))
    /\ (forall address, getBalance address s' = (Throw (Error not_connected), s'))
    /\ (forall msg, signMessage msg s' = (Throw (Error not_connected), s')).
Proof.
  destruct (disconnect_eval s) as [log H]. eexists. split; [exact H|].
  split_and!; try done; by apply guard_closed.
Qed.

Lemma get_field_obj (fs : list (string * JsVal)) (name : string) :
  get_field (JObj fs) name = Ok (given fs name).
Proof. done. Qed.

Lemma field_or_obj (fs : list (string * JsVal)) (name : string) (dflt : JsVal) :
  exists v, field_or (JObj fs) name dflt = Ok v.
Proof.
  unfold field_or. rewrite get_field_obj. destruct (given fs name); by eexists.
Qed.

(** X17.  On a connected instance, a contract operation whose options lack a
    truthy [contractAddress] or [methodName], and a transfer whose options
    lack a truthy [to] or [amount] (zero included), reject with the
    validation message and make no request of the provider: the instance,
    its event log included, is returned unchanged. *)
Theorem missing_fields_make_no_request (s : Sdk) (fs : list (string * JsVal)) :
  isConnected s = true ->
  (truthy (given fs "contractAddress") && truthy (given fs "methodName") = false ->
     viewCall (JObj fs) s = (Throw (Error "contractAddress and methodName are required"), s)
     /\ callContract (JObj fs) s
        = (Throw (Error "contractAddress and methodName are required"), s))
  /\ (truthy (given fs "to") && truthy (given fs "amount") = false ->
        sendTransaction (JObj fs) s = (Throw (Error "to and amount are required"), s)).
Proof.
  intros Hc. split; [intros Hm; split|intros Hm].
  - unfold viewCall, bind, gets. simpl. rewrite Hc. simpl.
    destruct (field_or_obj fs "params" (JArr [])) as [v1 ->].
    destruct (field_or_obj fs "description" JNull) as [v2 ->].
    fold (given fs "contractAddress") (given fs "methodName").
    rewrite <- negb_andb, Hm. done.
  - unfold callContract, bind, gets. simpl. rewrite Hc. simpl.
    destruct (field_or_obj fs "params" (JArr [])) as [v1 ->].
    destruct (field_or_obj fs "value" (JStr "0")) as [v2 ->].
    destruct (field_or_obj fs "gasLimit" (JNum 100000)) as [v3 ->].
    destruct (field_or_obj fs "gasPrice" (JNum (1 # 1000))) as [v4 ->].
    destruct (field_or_obj fs "description" JNull) as [v5 ->].
    fold (given fs "contractAddress") (given fs "methodName").
    rewrite <- negb_andb, Hm. done.
  - unfold sendTransaction, bind, gets. simpl. rewrite Hc. simpl.
    destruct (field_or_obj fs "message" JNull) as [v1 ->].
    fold (given fs "to") (given fs "amount").
    rewrite <- negb_andb, Hm. done.
Qed.

Lemma request_rejected (s : Sdk) (answer : Provider) (call : ProviderCall) (e : JsError) :
  provider s = Some answer -> answer call = Throw e ->
  request call s = (Throw e, snd (record (Request call) s)).
Proof.
  intros Hp He. destruct s as [a c p log]. simpl in Hp. subst p.
  unfold request, bind, gets, lift_res. simpl. by rewrite He.
Qed.

(** X18.  When the provider rejects a request of a connected instance, the
    operation rejects with a plain [Error] that carries the provider's
    message, or the operation's own fallback when that message is empty; the
    one request made is on the event log and the connection state is as it
    was. *)
Theorem provider_rejection_is_rewrapped
    (s : Sdk) (answer : Provider) (e : JsError) (fs : list (string * JsVal))
    (address msg : JsVal) :
  isConnected s = true ->
  provider s = Some answer ->
  (forall call, answer call = Throw e) ->
  getBalance address s
  = (Throw (wrapped "Failed to get balance" e),
     snd (record (Request (GetBalance (or_else address (connectedAddress s)))) s))
  /\ signMessage msg s
     = (Throw (wrapped "Failed to sign message" e), snd (record (Request (SignMessage msg)) s))
  /\ (truthy (given fs "contractAddress") && truthy (given fs "methodName") = true ->
        fst (viewCall (JObj fs) s) = Throw (wrapped "View call failed" e)
        /\ fst (callContract (JObj fs) s) = Throw (wrapped "Contract call failed" e))
  /\ (truthy (given fs "to") && truthy (given fs "amount") = true ->
        fst (sendTransaction (JObj fs) s) = Throw (wrapped "Transaction failed" e)).
Proof.
  intros Hc Hp He. destruct s as [own c p log]. simpl in Hc, Hp. subst c p.
  assert (Hreq : forall call,
            request call (mkSdk own true (Some answer) log)
            = (Throw e, mkSdk own true (Some answer) (log ++ [Request call])))
    by (intros call;
        by rewrite (request_rejected (mkSdk own true (Some answer) log) answer call e
                      eq_refl (He call))).
  split_and!.
  - unfold getBalance, bind, gets. simpl. unfold try_catch. by rewrite Hreq.
  - unfold signMessage, bind, gets. simpl. unfold try_catch, bind. by rewrite Hreq.
  - intros Hm. split.
    + unfold viewCall, bind, gets. simpl.
      destruct (field_or_obj fs "params" (JArr [])) as [v1 ->].
      destruct (field_or_obj fs "description" JNull) as [v2 ->].
      fold (given fs "contractAddress") (given fs "methodName").
      rewrite <- negb_andb, Hm. simpl. unfold try_catch, bind. by rewrite Hreq.
    + unfold callContract, bind, gets. simpl.
      destruct (field_or_obj fs "params" (JArr [])) as [v1 ->].
      destruct (field_or_obj fs "value" (JStr "0")) as [v2 ->].
      destruct (field_or_obj fs "gasLimit" (JNum 100000)) as [v3 ->].
      destruct (field_or_obj fs "gasPrice" (JNum (1 # 1000))) as [v4 ->].
      destruct (field_or_obj fs "description" JNull) as [v5 ->].
      fold (given fs "contractAddress") (given fs "methodName").
      rewrite <- negb_andb, Hm. simpl. unfold try_catch, bind. by rewrite Hreq.
  - intros Hm.
    unfold sendTransaction, bind, gets. simpl.
    destruct (field_or_obj fs "message" JNull) as [v1 ->].
    fold (given fs "to") (given fs "amount").
    rewrite <- negb_andb, Hm. simpl. unfold try_catch, bind. by rewrite Hreq.
Qed.

Lemma connect_eval (s : Sdk) (answer : Provider) (fs : list (string * JsVal)) :
  provider s = Some answer ->
  exists appName permissions,
    field_or (JObj fs) "appName" (JStr hostname) = Ok appName
    /\ field_or (JObj fs) "permissions" (JArr [JStr "view_address"]) = Ok permissions
    /\ connect octra hostname (JObj fs) s
       = try_catch
           (let! result := lift_res (connect_answer octra permissions) in
            set_connected true ;;
            let! address := lift_res (get_field result "address") in
            set_address address ;;
            ret (JObj [("success", JBool true); ("address", address); ("appName", appName)]))
           (rethrow "Connection failed") s.
Proof.
  intros Hp.
  destruct (field_or_obj fs "appName" (JStr hostname)) as [appName Ha].
  destruct (field_or_obj fs "appIcon" JNull) as [appIcon Hi].
  destruct (field_or_obj fs "permissions" (JArr [JStr "view_address"])) as [permissions Hq].
  exists appName, permissions. split; [done|]. split; [done|].
  unfold connect, isAvailable. unfold bind at 1, gets at 1. rewrite Hp.
  rewrite bool_decide_eq_true_2 by done. simpl negb. cbv iota.
  unfold bind at 1, lift_res at 1. rewrite Ha.
  unfold bind at 1, lift_res at 1. rewrite Hi.
  unfold bind at 1, lift_res at 1. by rewrite Hq.
Qed.

(** X19.  [connect] without a provider rejects with the not-installed error
    and leaves the instance as it was; with a provider whose [connect]
    rejects it rejects with that message, or [Connection failed] when the
    message is empty, again leaving the instance as it was; and when the
    provider answers with an object it resolves with that object's address
    and the application name, the host name when none was given, and the
    instance is connected under that address. *)
Theorem connect_outcomes (s : Sdk) (fs : list (string * JsVal)) :
  (provider s = None ->
     connect octra hostname (JObj fs) s
     = (Throw (Error "Octra wallet extension is not installed or not available"), s))
  /\ (forall answer, provider s = Some answer ->
      exists appName permissions,
        appName = (match given fs "appName" with JUndefined => JStr hostname | v => v end)
        /\ permissions = (match given fs "permissions" with
                          | JUndefined => JArr [JStr "view_address"]
                          | v => v
                          end)
        /\ (forall e, connect_answer octra permissions = Throw e ->
              connect octra hostname (JObj fs) s = (Throw (wrapped "Connection failed" e), s))
        /\ (forall result, connect_answer octra permissions = Ok (JObj result) ->
              connect octra hostname (JObj fs) s
              = (Ok (JObj [("success", JBool true); ("address", given result "address");
                           ("appName", appName)]),
                 mkSdk (given result "address") true (provider s) (events s)))).
Proof.
  split.
  - intros Hp. unfold connect, isAvailable, bind, gets. simpl. by rewrite Hp.
  - intros answer Hp.
    destruct (connect_eval s answer fs Hp) as (appName & permissions & Ha & Hq & ->).
    exists appName, permissions.
    unfold field_or in Ha, Hq. rewrite get_field_obj in Ha, Hq.
    split; [by destruct (given fs "appName"); injection Ha|].
    split; [by destruct (given fs "permissions"); injection Hq|].
    split.
    + intros e He. unfold try_catch, bind, lift_res. by rewrite He.
    + intros result Hr. unfold try_catch, bind, lift_res. by rewrite Hr.
Qed.

(** X20.  When the provider's [connect] resolves with [null] or [undefined],
    [connect] rejects, yet the instance is left reporting itself connected,
    with the address it had before: [isConnected] is assigned before the
    answer's address is read. *)
Theorem connect_empty_answer_leaves_connected
    (s : Sdk) (answer : Provider) (fs : list (string * JsVal)) (result : JsVal) :
  provider s = Some answer ->
  nullish result = true ->
  (forall permissions, connect_answer octra permissions = Ok result) ->
  exists m s',
    connect octra hostname (JObj fs) s = (Throw (Error m), s')
    /\ isWalletConnected s' = (Ok true, s')
    /\ getConnectedAddress s' = (Ok (connectedAddress s), s').
Proof.
  intros Hp Hn Hr.
  destruct (connect_eval s answer fs Hp) as (appName & permissions & _ & _ & ->).
  unfold try_catch, bind, lift_res. rewrite Hr.
  destruct result; try discriminate Hn; simpl; by eexists _, _.
Qed.

(** X21.  After the provider announces a non-empty list of accounts, the
    instance is connected under the first of them, and a balance query with
    no address of its own asks the provider for the balance of that
    account. *)
Theorem account_switch_redirects_balance
    (s : Sdk) (answer : Provider) (first : JsVal) (others : list JsVal) :
  provider s = Some answer ->
  exists s1,
    on_accountsChanged gt_zero (JArr (first :: others)) s = (Ok (), s1)
    /\ connectedAddress s1 = first /\ isConnected s1 = true
    /\ events (snd (getBalance JUndefined s1)) = events s ++ [Request (GetBalance first)].
Proof.
  intros Hp. eexists. split; [reflexivity|]. split; [done|]. split; [done|].
  unfold getBalance, bind, gets, try_catch, request, lift_res. simpl. rewrite Hp. simpl.
  change (or_else JUndefined first) with first.
  destruct (answer (GetBalance first)) as [result|e]; simpl.
  - by destruct (get_field result "balance").
  - done.
Qed.

End SdkSession.

(** ** The matcher and the two patterns *)

Section RegexFacts.

Import Stdlib.Strings.Ascii Regex.

Lemma append_nil (s : string) : "" +:+ s = s.
Proof. reflexivity. Qed.

Lemma append_cons (c : Ascii.ascii) (s1 s2 : string) :
  String c s1 +:+ s2 = String c (s1 +:+ s2).
Proof. reflexivity. Qed.

Ltac app_simpl := rewrite ?append_cons, ?append_nil.
Ltac app_simpl_in H := rewrite ?append_cons, ?append_nil in H.

Lemma append_empty (s1 s2 : string) : s1 +:+ s2 = "" -> s1 = "" /\ s2 = "".
Proof. destruct s1; app_simpl; [done|discriminate]. Qed.

Lemma all_chars_append (p : Ascii.ascii -> bool) (s1 s2 : string) :
  all_chars p (s1 +:+ s2) = all_chars p s1 && all_chars p s2.
Proof.
  induction s1 as [|c s1 IH]; app_simpl; simpl; [done|]. rewrite IH. by rewrite andb_assoc.
Qed.

Lemma nullable_Matches (r : Re) : nullable r = true -> Matches r "".
Proof.
  induction r as [| |p|r1 IH1 r2 IH2|r1 IH1 r2 IH2|r IH]; simpl; intros H; try done.
  - constructor.
  - apply andb_true_iff in H as [H1 H2].
    change "" with ("" +:+ ""). constructor; auto.
  - apply orb_true_iff in H as [H|H]; [apply MAltL|apply MAltR]; auto.
  - constructor.
Qed.

Lemma Matches_nullable (r : Re) (s : string) : Matches r s -> s = "" -> nullable r = true.
Proof.
  induction 1 as [|p c Hp|r1 r2 s1 s2 H1 IH1 H2 IH2|r1 r2 s H IH|r1 r2 s H IH
                 |r|r s1 s2 H1 IH1 H2 IH2]; simpl; intros Hs; try done.
  - apply append_empty in Hs as [-> ->]. by rewrite IH1, IH2.
  - by rewrite IH.
  - rewrite IH by done. apply orb_true_r.
Qed.

Lemma deriv_Matches (c : Ascii.ascii) (r : Re) (s : string) :
  Matches (deriv c r) s -> Matches r (String c s).
Proof.
  revert s.
  induction r as [| |p|r1 IH1 r2 IH2|r1 IH1 r2 IH2|r IH]; simpl; intros s H.
  - inversion H.
  - inversion H.
  - destruct (p c) eqn:Hp; inversion H; subst. by constructor.
  - assert (Hleft : forall s, Matches (Seq (deriv c r1) r2) s -> Matches (Seq r1 r2) (String c s)).
    { intros t Ht. inversion Ht as [| |? ? s1 s2 Ha Hb| | | |]; subst.
      change (String c (s1 +:+ s2)) with (String c s1 +:+ s2). constructor; auto. }
    destruct (nullable r1) eqn:Hn; [|by apply Hleft].
    inversion H as [| | |? ? ? Ha|? ? ? Hb| |]; subst; [by apply Hleft|].
    change (String c s) with ("" +:+ String c s).
    constructor; [by apply nullable_Matches|auto].
  - inversion H; subst; [apply MAltL|apply MAltR]; auto.
  - inversion H as [| |? ? s1 s2 Ha Hb| | | |]; subst.
    change (String c (s1 +:+ s2)) with (String c s1 +:+ s2). constructor; auto.
Qed.

Lemma Matches_deriv (r : Re) (s0 : string) :
  Matches r s0 -> forall c s, s0 = String c s -> Matches (deriv c r) s.
Proof.
  induction 1 as [|p c0 Hp|r1 r2 s1 s2 H1 IH1 H2 IH2|r1 r2 s H IH|r1 r2 s H IH
                 |r|r s1 s2 H1 IH1 H2 IH2]; simpl; intros c t Hs; try done.
  - injection Hs as -> <-. rewrite Hp. constructor.
  - destruct s1 as [|a s1]; app_simpl_in Hs.
    + rewrite (Matches_nullable r1 "" H1 eq_refl). apply MAltR. by apply IH2.
    + injection Hs as -> <-.
      assert (Matches (Seq (deriv c r1) r2) (s1 +:+ s2)) by (constructor; auto).
      destruct (nullable r1); [by apply MAltL|done].
  - apply MAltL. by apply IH.
  - apply MAltR. by apply IH.
  - destruct s1 as [|a s1]; app_simpl_in Hs.
    + by apply IH2.
    + injection Hs as -> <-. constructor; auto.
Qed.

Lemma test_Matches (r : Re) (s : string) : test r s = true <-> Matches r s.
Proof.
  revert r. induction s as [|c s IH]; intros r; simpl.
  - split; [apply nullable_Matches|]. intros H. by apply (Matches_nullable r "").
  - rewrite IH. split; [apply deriv_Matches|]. intros H. by apply (Matches_deriv r (String c s)).
Qed.

Lemma Matches_lit (t s : string) : Matches (lit t) s <-> s = t.
Proof.
  revert s. induction t as [|c t IH]; intros s; simpl.
  - split; [by inversion 1|intros ->; constructor].
  - split.
    + inversion 1 as [| |? ? s1 s2 Ha Hb| | | |]; subst.
      inversion Ha as [|? a Hp| | | | |]; subst.
      apply Ascii.eqb_eq in Hp as <-. apply IH in Hb as ->. done.
    + intros ->. change (String c t) with (String c "" +:+ t).
      constructor; [constructor; apply Ascii.eqb_refl|by apply IH].
Qed.

Lemma Matches_times_class (p : Ascii.ascii -> bool) (n : nat) (s : string) :
  Matches (times n (Class p)) s <-> String.length s = n /\ all_chars p s = true.
Proof.
  revert s. induction n as [|n IH]; intros s; simpl.
  - split; [by inversion 1|]. intros [Hl _]. destruct s; [constructor|done].
  - split.
    + inversion 1 as [| |? ? s1 s2 Ha Hb| | | |]; subst.
      inversion Ha as [|? a Hp| | | | |]; subst.
      apply IH in Hb as [Hl Hall]. app_simpl. simpl. by rewrite Hl, Hp, Hall.
    + intros [Hl Hall]. destruct s as [|c s]; [done|]. simpl in *.
      apply andb_true_iff in Hall as [Hp Hall]. injection Hl as Hl.
      change (String c s) with (String c "" +:+ s).
      constructor; [by constructor|]. by apply IH.
Qed.

Lemma Matches_star_class (p : Ascii.ascii -> bool) (s : string) :
  Matches (Star (Class p)) s <-> all_chars p s = true.
Proof.
  split.
  - intros H. remember (Star (Class p)) as r eqn:Hr.
    induction H as [|q c Hq|r1 r2 s1 s2 H1 IH1 H2 IH2|r1 r2 s H IH|r1 r2 s H IH
                   |r|r s1 s2 H1 IH1 H2 IH2]; try done.
    injection Hr as ->.
    inversion H1 as [|? a Hp| | | | |]; subst. app_simpl. simpl. rewrite Hp. by apply IH2.
  - induction s as [|c s IH]; simpl; intros H; [constructor|].
    apply andb_true_iff in H as [Hp H].
    change (String c s) with (String c "" +:+ s).
    constructor; [by constructor|auto].
Qed.

Lemma Matches_plus_class (p : Ascii.ascii -> bool) (s : string) :
  Matches (plus (Class p)) s <-> s <> "" /\ all_chars p s = true.
Proof.
  unfold plus. split.
  - inversion 1 as [| |? ? s1 s2 Ha Hb| | | |]; subst.
    inversion Ha as [|? a Hp| | | | |]; subst.
    apply Matches_star_class in Hb. app_simpl. simpl. by rewrite Hp, Hb.
  - intros [Hne H]. destruct s as [|c s]; [done|]. simpl in H.
    apply andb_true_iff in H as [Hp H].
    change (String c s) with (String c "" +:+ s).
    constructor; [by constructor|by apply Matches_star_class].
Qed.

Lemma Matches_seq (r1 r2 : Re) (s : string) :
  Matches (Seq r1 r2) s <-> exists s1 s2, s = s1 +:+ s2 /\ Matches r1 s1 /\ Matches r2 s2.
Proof.
  split.
  - inversion 1; subst. by eexists _, _.
  - intros (s1 & s2 & -> & H1 & H2). by constructor.
Qed.

Lemma isOctraAddress_shape (input : string) :
  ONS.isOctraAddress input = true
  <-> exists body,
        input = "oct" +:+ body /\ String.length body = 44%nat
        /\ all_chars ONS.base58 body = true.
Proof.
  unfold ONS.isOctraAddress, ONS.addressRegex.
  rewrite test_Matches, Matches_seq. split.
  - intros (s1 & s2 & -> & H1 & H2). apply Matches_lit in H1 as ->.
    apply Matches_times_class in H2. by exists s2.
  - intros (body & -> & Hl & Hall). exists "oct", body.
    split; [done|]. split; [by apply Matches_lit|by apply Matches_times_class].
Qed.

Lemma isONSDomain_shape (input : string) :
  ONS.isONSDomain input = true
  <-> exists name,
        input = name +:+ ".oct" /\ name <> "" /\ all_chars ONS.domain_char name = true.
Proof.
  unfold ONS.isONSDomain, ONS.onsRegex.
  rewrite test_Matches, Matches_seq. split.
  - intros (s1 & s2 & -> & H1 & H2). apply Matches_lit in H2 as ->.
    apply Matches_plus_class in H1. by exists s1.
  - intros (name & -> & Hne & Hall). exists name, ".oct".
    split; [done|]. split; [by apply Matches_plus_class|by apply Matches_lit].
Qed.

(** X22.  [isOctraAddress] accepts exactly the strings of 47 characters that
    start with [oct] and continue with 44 characters of the base-58 alphabet,
    which has no [0], [O], [I] or [l]. *)
Theorem isOctraAddress_accepts (input : string) :
  ONS.isOctraAddress input = true
  <-> String.length input = 47%nat
      /\ String.substring 0 3 input = "oct"
      /\ all_chars ONS.base58 (String.substring 3 44 input) = true.
Proof.
  rewrite isOctraAddress_shape. split.
  - intros (body & -> & Hl & Hall). app_simpl. simpl. rewrite Hl.
    split; [done|]. split; [by destruct body|].
    replace (String.substring 0 44 body) with body; [done|].
    rewrite <- Hl. clear. induction body as [|c body IH]; simpl; [done|by rewrite <- IH].
  - intros (Hl & Hp & Hall).
    destruct input as [|a [|b [|c body]]]; try done.
    simpl in Hp, Hl, Hall. injection Hl as Hl.
    assert (Hb : String.substring 0 44 body = body).
    { rewrite <- Hl. clear. induction body as [|x body IH]; simpl; [done|by rewrite IH]. }
    rewrite Hb in Hall. exists body. split; [|done].
    destruct body; simpl in Hp; by injection Hp as -> -> ->.
Qed.

Lemma base58_not_dot (c : Ascii.ascii) : ONS.base58 c = true -> Ascii.eqb "."%char c = false.
Proof.
  intros H. destruct (Ascii.eqb_spec "."%char c) as [<-|]; [|done].
  by vm_compute in H.
Qed.

Lemma all_chars_impl (p q : Ascii.ascii -> bool) (s : string) :
  (forall c, p c = true -> q c = true) -> all_chars p s = true -> all_chars q s = true.
Proof.
  intros Hpq. induction s as [|c s IH]; simpl; [done|].
  intros [Hp Hs]%andb_true_iff. by rewrite (Hpq c Hp), IH.
Qed.

(** X23.  No string is both an Octra address and an ONS domain, so the order
    in which [validateRecipientInput] tries the two patterns does not change
    its answer. *)
Theorem address_is_not_a_domain (input : string) :
  ONS.isOctraAddress input = true -> ONS.isONSDomain input = false.
Proof.
  intros Ha. destruct (ONS.isONSDomain input) eqn:Hd; [exfalso|done].
  apply isOctraAddress_shape in Ha as (body & -> & Hl & Hall).
  apply isONSDomain_shape in Hd as (name & Heq & _ & _).
  set (nodot := fun c => negb (Ascii.eqb "."%char c)).
  assert (H1 : all_chars nodot ("oct" +:+ body) = true).
  { rewrite all_chars_append. simpl.
    apply (all_chars_impl ONS.base58); [|done].
    intros c Hc. unfold nodot. by rewrite base58_not_dot. }
  rewrite Heq, all_chars_append in H1. simpl in H1.
  by rewrite andb_false_r in H1.
Qed.

End RegexFacts.

(** ** Recipient validation and resolution *)

Section OnsFacts.

Import Regex ONS.

Variable trim : string -> string.
Variable fetch : string -> Res Response.
Variable ONS_RESOLVER_URL : string.
Variable show : Z -> string.

#[local] Abbreviation validate := (validateRecipientInput trim).
#[local] Abbreviation resolve := (resolveRecipientAddress trim fetch ONS_RESOLVER_URL show).
#[local] Abbreviation url_of := (resolve_url ONS_RESOLVER_URL).

(** The three fields of a validation result agree: the input is valid
    exactly when its type is not [invalid], and exactly when no error text is
    attached; type [address] is given only to a trimmed input that is an
    Octra address, and type [ons] only to one that is an ONS domain. *)
Lemma validation_fields_agree (input : string) :
  let v := validate input in
  (isValid v = true <-> type v <> invalid)
  /\ (isValid v = true <-> error v = None)
  /\ (type v = address -> isOctraAddress (trim input) = true)
  /\ (type v = ons -> isONSDomain (trim input) = true).
Proof.
  unfold validateRecipientInput.
  destruct (String.eqb input "" || (String.length (trim input) =? 0)%nat); simpl.
  { split_and!; (split || idtac); done. }
  destruct (isOctraAddress (trim input)) eqn:Ha; simpl.
  { split_and!; (split || idtac); done. }
  destruct (isONSDomain (trim input)) eqn:Hd; simpl.
  { split_and!; (split || idtac); done. }
  split_and!; (split || idtac); done.
Qed.

Lemma substring_prefix (s t : string) : String.substring 0 (String.length s) (s +:+ t) = s.
Proof.
  induction s as [|c s IH]; [by destruct t|].
  change (String c s +:+ t) with (String c (s +:+ t)). simpl. by rewrite IH.
Qed.

Lemma substring_suffix (s t : string) :
  String.substring (String.length s) (String.length t) (s +:+ t) = t.
Proof.
  induction s as [|c s IH].
  - change ("" +:+ t) with t. simpl. clear. induction t as [|c t IH]; simpl; [done|by rewrite IH].
  - change (String c s +:+ t) with (String c (s +:+ t)). simpl. exact IH.
Qed.

Lemma length_append (s t : string) :
  String.length (s +:+ t) = (String.length s + String.length t)%nat.
Proof.
  induction s as [|c s IH]; [done|].
  change (String c s +:+ t) with (String c (s +:+ t)). simpl. by rewrite IH.
Qed.

Lemma url_of_domain (name : string) :
  url_of (name +:+ ".oct") = ONS_RESOLVER_URL +:+ "/api/domains/resolve/" +:+ name.
Proof.
  unfold resolve_url, endsWith, slice_off. rewrite length_append.
  change (String.length ".oct") with 4%nat.
  replace (String.length name + 4 - 4)%nat with (String.length name) by lia.
  pose proof (substring_suffix name ".oct") as Hs.
  change (String.length ".oct") with 4%nat in Hs. rewrite Hs, substring_prefix.
  replace (4 <=? String.length name + 4)%nat with true by (symmetry; apply Nat.leb_le; lia).
  done.
Qed.

Lemma resolveONSDomain_eval (domain : string) (n : Net) :
  exists v rest,
    resolveONSDomain fetch ONS_RESOLVER_URL show domain n
    = (Ok v, n ++ Fetch (url_of domain) :: rest)
    /\ forallb is_console_err rest = true
    /\ (v <> JNull -> answered_by fetch (url_of domain) v).
Proof.
  unfold resolveONSDomain, try_catch, bind, log, modify, lift_res. simpl.
  destruct (fetch (url_of domain)) as [response|e] eqn:Hf; simpl.
  2:{ eexists _, [_]. rewrite <- app_assoc. by split_and!. }
  destruct (ok response) eqn:Hok; simpl.
  2:{ destruct (status response =? 404); simpl.
      - eexists _, []. by split_and!.
      - eexists _, [_]. rewrite <- app_assoc. by split_and!. }
  destruct (json response) as [data|e] eqn:Hj; simpl.
  2:{ eexists _, [_]. rewrite <- app_assoc. by split_and!. }
  destruct (get_field data "verified") as [verified|e] eqn:Hv; simpl.
  2:{ eexists _, [_]. rewrite <- app_assoc. by split_and!. }
  destruct (truthy verified) eqn:Ht; simpl.
  2:{ eexists _, []. by split_and!. }
  destruct (get_field data "status") as [state|e] eqn:Hs; simpl.
  2:{ eexists _, [_]. rewrite <- app_assoc. by split_and!. }
  destruct (strict_eq_str state "active") eqn:Hact; simpl.
  2:{ eexists _, []. by split_and!. }
  apply strict_eq_str_true in Hact as ->.
  destruct (get_field data "address") as [v|e] eqn:Hadr; simpl.
  2:{ eexists _, [_]. rewrite <- app_assoc. by split_and!. }
  exists v, []. split_and!; [done|done|]. intros _.
  by exists response, data, verified.
Qed.

(** X24.  [resolveRecipientAddress] never rejects.  For an input that is not
    an ONS domain it touches neither network nor console; for a domain it
    makes exactly one request, to the resolver path of the name without its
    [.oct] suffix, and anything after that is console output.  Its result
    carries an error text exactly when it carries no address. *)
Theorem resolveRecipientAddress_never_rejects (input : string) (n : Net) :
  exists r n',
    resolve input n = (Ok r, n')
    /\ (resolved_error r = None <-> resolved r <> JNull)
    /\ (type (validate input) <> ons -> n' = n)
    /\ (type (validate input) = ons ->
        exists name rest,
          trim input = name +:+ ".oct"
          /\ n' = n ++ Fetch (ONS_RESOLVER_URL +:+ "/api/domains/resolve/" +:+ name) :: rest
          /\ forallb is_console_err rest = true).
Proof.
  destruct (validation_fields_agree input) as (Hv1 & Hv2 & _ & Hons).
  unfold resolveRecipientAddress. cbv zeta in *.
  destruct (validate input) as [valid kind err] eqn:Hv. simpl in *.
  destruct valid; simpl.
  - destruct kind.
    + eexists _, _. split; [reflexivity|]. simpl. split_and!; try done.
    + pose proof (Hons eq_refl) as Hd.
      apply isONSDomain_shape in Hd as (name & Hname & _).
      destruct (resolveONSDomain_eval (trim input) n) as (v & rest & Hr & Hrest & _).
      unfold try_catch, bind. rewrite Hr. rewrite Hname, url_of_domain.
      destruct (truthy v) eqn:Ht; eexists _, _; (split; [reflexivity|]); simpl.
      * split_and!; try done.
        -- split; [intros _ ->; done|done].
        -- intros _. by exists name, rest.
      * split_and!; try done.
        intros _. by exists name, rest.
    + exfalso. by apply Hv1.
  - eexists _, _. split; [reflexivity|]. simpl. split_and!; try done.
    + split; [|done]. intros He. apply Hv2 in He. done.
    + intros ->. by destruct Hv1 as [_ Hv1]; discriminate Hv1.
Qed.

(** X25.  An address that [resolveRecipientAddress] hands back is either the
    trimmed input itself, which then is an Octra address, or a truthy value
    that the resolver returned in the record of a domain that is verified
    and active. *)
Theorem resolved_address_provenance (input : string) (n n' : Net) (r : Resolution) :
  resolve input n = (Ok r, n') ->
  resolved r <> JNull ->
  (resolved_type r = address /\ resolved r = JStr (trim input)
   /\ isOctraAddress (trim input) = true)
  \/ (resolved_type r = ons /\ truthy (resolved r) = true
      /\ isONSDomain (trim input) = true
      /\ answered_by fetch (url_of (trim input)) (resolved r)).
Proof.
  destruct (validation_fields_agree input) as (_ & _ & Hadr & Hons).
  unfold resolveRecipientAddress. cbv zeta in *.
  destruct (validate input) as [valid kind err] eqn:Hv. simpl in *.
  destruct valid; simpl.
  - destruct kind.
    + intros [= <- <-] _. left. simpl. by split_and!; [| |apply Hadr].
    + destruct (resolveONSDomain_eval (trim input) n) as (v & rest & Hr & _ & Hans).
      unfold try_catch, bind. rewrite Hr.
      destruct (truthy v) eqn:Ht; intros [= <- <-]; simpl; [|done].
      intros Hv'. right. split_and!; [done|done|by apply Hons|by apply Hans].
    + by intros [= <- <-].
  - by intros [= <- <-].
Qed.

End OnsFacts.

(** ** The tab page across disconnect and unlock *)

Section TabLifecycle.

Import App.

Variable JSON_parse : string -> option JsVal.
Variable decodeURIComponent : string -> option string.
Variable gt_zero : JsVal -> bool.

#[local] Abbreviation tab_mount := (mount JSON_parse decodeURIComponent gt_zero).
#[local] Abbreviation tab_unlock := handleUnlock.

Ltac render_done := unfold render; simpl; rewrite ?andb_false_r; simpl; done.

Lemma read_url_request_effect (p : Page) :
  exists r request,
    read_url_request JSON_parse decodeURIComponent p
    = (r, mkPage (mkState (wallet (ui p)) (wallets (ui p)) (isLocked (ui p)) request) (host p))
    /\ (search (host p) !! "action" = None -> r = Ok () /\ request = connectionRequest (ui p)).
Proof.
  destruct p as [[w ws locked request] h].
  unfold read_url_request, bind, urlParam, gets. simpl.
  destruct (search h !! "action") as [action|] eqn:Ha; simpl.
  2:{ eexists _, _. split; [reflexivity|done]. }
  destruct (String.eqb action "connect"); simpl.
  2:{ eexists _, _. split; [reflexivity|done]. }
  destruct (truthy (from_option JStr JNull (search h !! "origin"))
            && truthy (from_option JStr JNull (search h !! "permissions"))); simpl.
  2:{ eexists _, _. split; [reflexivity|done]. }
  unfold lift_res.
  destruct (decode decodeURIComponent (from_option JStr JNull (search h !! "origin")));
    [|eexists _, _; split; [reflexivity|done]].
  destruct (decode decodeURIComponent
              (or_else (from_option JStr JNull (search h !! "appName")) (JStr "")));
    [|eexists _, _; split; [reflexivity|done]].
  destruct (decode decodeURIComponent
              (or_else (from_option JStr JNull (search h !! "appIcon")) (JStr "")));
    [|eexists _, _; split; [reflexivity|done]].
  destruct (decode decodeURIComponent (from_option JStr JNull (search h !! "permissions")))
    as [decoded|]; [|eexists _, _; split; [reflexivity|done]].
  destruct (match decoded with
            | JStr s => WalletManager.parse JSON_parse s
            | _ => Ok decoded
            end); eexists _, _; (split; [reflexivity|done]).
Qed.

(** X26.  After [disconnectWallet] the tab shows the unlock screen, and the
    wallet list and the active-wallet pointer are gone from [localStorage].
    A tab opened on that store afterwards, when none of its effects throws,
    holds no wallet and shows the unlock screen if a password is recorded
    and the welcome screen if none is, whatever its URL carries; when the URL
    effect throws it shows nothing.  With no [action] in the URL no effect
    throws. *)
Theorem tab_disconnect_then_reopen (p : Page) :
  let p1 := snd (disconnectWallet p) in
  let reopened := tab_mount (mkPage initial (host p1)) in
  render (ui p1) = UnlockWallet
  /\ localStorage (host p1) !! "wallets" = None
  /\ localStorage (host p1) !! "activeWalletId" = None
  /\ (fst reopened = Ok () ->
      wallet (ui (snd reopened)) = JNull
      /\ shown reopened
         = Some (if truthy (from_option JStr JNull
                              (localStorage (host p) !! "walletPasswordHash"))
                 then UnlockWallet else WelcomeScreen))
  /\ (forall e, fst reopened = Throw e ->
      fst (read_url_request JSON_parse decodeURIComponent (mkPage initial (host p1)))
      = Throw e
      /\ shown reopened = None)
  /\ (search (host p) !! "action" = None -> fst reopened = Ok ()).
Proof.
  destruct p as [[w ws locked request] [store params log]].
  cbv zeta. unfold disconnectWallet, bind, setItem, removeItem, setWallet, setWallets,
    setIsLocked, set_ui, modify. simpl.
  set (store1 := delete "activeWalletId" (delete "wallets" (<["isWalletLocked" := "true"]> store))).
  assert (Hw : store1 !! "wallets" = None) by (unfold store1; by store_lookup).
  assert (Ha : store1 !! "activeWalletId" = None) by (unfold store1; by store_lookup).
  assert (Hl : store1 !! "isWalletLocked" = Some "true") by (unfold store1; by store_lookup).
  assert (Hh : store1 !! "walletPasswordHash" = store !! "walletPasswordHash")
    by (unfold store1; by store_lookup).
  split; [render_done|]. split; [done|]. split; [done|].
  set (P := mkPage initial (mkHost store1 params log)).
  assert (Hmount : exists r request' b,
            tab_mount P
            = (r, mkPage (mkState JNull (JArr []) b request') (mkHost store1 params log))
            /\ (r = Ok () ->
                b = truthy (from_option JStr JNull (store !! "walletPasswordHash")))
            /\ (forall e, r = Throw e ->
                fst (read_url_request JSON_parse decodeURIComponent P) = Throw e)
            /\ (params !! "action" = None -> r = Ok ())).
  { unfold mount, bind.
    destruct (read_url_request_effect P) as (r & request' & Hread & Hnone).
    rewrite Hread. simpl in Hnone.
    destruct r as [[]|e].
    2:{ eexists _, _, _. split; [reflexivity|]. split; [done|]. split; [by intros ? [= ->]|].
        intros Hact. by destruct (Hnone Hact). }
    unfold checkWalletStatus, try_catch, bind, getItem, gets. simpl.
    rewrite Hl, Hh. simpl.
    destruct (truthy (from_option JStr JNull (store !! "walletPasswordHash"))) eqn:Hhash;
      simpl; rewrite ?Hw; simpl; eexists _, _, _; (split; [reflexivity|by split_and!]). }
  destruct Hmount as (r & request' & b & -> & Hb & He & Hnone). simpl.
  split; [|split; [|done]].
  - intros ->. split; [done|]. rewrite <- (Hb eq_refl). unfold shown. simpl.
    destruct b; f_equal; render_done.
  - intros e ->. split; [by apply He|done].
Qed.

Lemma decode_param (params : gmap string string) (name s d : string) :
  params !! name = Some s -> decodeURIComponent s = Some d ->
  decode decodeURIComponent (from_option JStr JNull (params !! name)) = Ok (JStr d).
Proof. intros -> Hd. simpl. by rewrite Hd. Qed.

Lemma decode_optional (v : JsVal) :
  (forall s, v = JStr s -> is_Some (decodeURIComponent s)) ->
  is_Some (decodeURIComponent "") ->
  exists d, decode decodeURIComponent (or_else v (JStr "")) = Ok d.
Proof.
  intros Hv [e He]. unfold or_else. destruct (truthy v) eqn:Ht.
  - destruct v; simpl; try by eexists.
    destruct (Hv _ eq_refl) as [d ->]. by eexists.
  - simpl. rewrite He. by eexists.
Qed.

(** X27.  A connection request carried by the tab's URL is not lost while the
    wallet is locked: on a store with a recorded password and no explicit
    unlocked flag the tab mounts without error and shows the unlock screen,
    and once [handleUnlock] has selected a wallet the tab shows the
    connection approval for that wallet with the decoded origin and the
    parsed permissions of the URL. *)
Theorem url_request_survives_unlock
    (h : Host) (origin permissions origin' permissions' : string) (granted : JsVal) :
  search h !! "action" = Some "connect" ->
  search h !! "origin" = Some origin -> origin <> "" ->
  search h !! "permissions" = Some permissions -> permissions <> "" ->
  (forall name s, search h !! name = Some s -> is_Some (decodeURIComponent s)) ->
  is_Some (decodeURIComponent "") ->
  decodeURIComponent origin = Some origin' ->
  decodeURIComponent permissions = Some permissions' ->
  JSON_parse permissions' = Some granted ->
  truthy (from_option JStr JNull (localStorage h !! "walletPasswordHash")) = true ->
  localStorage h !! "isWalletLocked" <> Some "false" ->
  let q := snd (tab_mount (mkPage initial h)) in
  fst (tab_mount (mkPage initial h)) = Ok ()
  /\ render (ui q) = UnlockWallet
  /\ exists request,
       get_field request "origin" = Ok (JStr origin')
       /\ get_field request "permissions" = Ok granted
       /\ forall unlockedWallets,
            let q' := snd (tab_unlock unlockedWallets q) in
            truthy (wallet (ui q')) = true ->
            render (ui q') = ConnectionApproval request (wallet (ui q')).
Proof.
  intros Hact Ho Hone Hp Hpne Hdec Hempty Hdo Hdp Hparse Hhash Hflag.
  destruct h as [store params log]. simpl in *.
  destruct (decode_optional (from_option JStr JNull (params !! "appName"))) as [name Hname];
    [|done|].
  { intros s Hs. destruct (params !! "appName") as [t|] eqn:Ht; [|done].
    injection Hs as <-. by apply (Hdec "appName"). }
  destruct (decode_optional (from_option JStr JNull (params !! "appIcon"))) as [icon Hicon];
    [|done|].
  { intros s Hs. destruct (params !! "appIcon") as [t|] eqn:Ht; [|done].
    injection Hs as <-. by apply (Hdec "appIcon"). }
  assert (Hread :
    read_url_request JSON_parse decodeURIComponent (mkPage initial (mkHost store params log))
    = (Ok (), mkPage (mkState JNull (JArr []) false
                        (JObj [("origin", JStr origin'); ("appName", name);
                               ("appIcon", icon); ("permissions", granted)]))
                (mkHost store params log))).
  { unfold read_url_request, bind, urlParam, gets. simpl.
    rewrite Hact. simpl.
    assert (Et : truthy (from_option JStr JNull (params !! "origin"))
                 && truthy (from_option JStr JNull (params !! "permissions")) = true).
    { rewrite Ho, Hp. simpl.
      destruct (String.eqb_spec origin ""); [done|].
      by destruct (String.eqb_spec permissions ""). }
    rewrite Et. unfold lift_res.
    rewrite (decode_param params "origin" origin origin' Ho Hdo).
    rewrite Hname, Hicon.
    rewrite (decode_param params "permissions" permissions permissions' Hp Hdp).
    unfold WalletManager.parse. by rewrite Hparse. }
  assert (Hlocked : forall request,
    checkWalletStatus JSON_parse gt_zero
      (mkPage (mkState JNull (JArr []) false request) (mkHost store params log))
    = (Ok (), mkPage (mkState JNull (JArr []) true request) (mkHost store params log))).
  { intros request. unfold checkWalletStatus, try_catch, bind, getItem, gets. simpl.
    rewrite Hhash.
    assert (Ef : strict_eq_str (from_option JStr JNull (store !! "isWalletLocked")) "false"
                 = false).
    { apply strict_eq_str_false. destruct (store !! "isWalletLocked"); simpl; congruence. }
    by rewrite Ef. }
  assert (Hmount :
    tab_mount (mkPage initial (mkHost store params log))
    = (Ok (), mkPage (mkState JNull (JArr []) true
                        (JObj [("origin", JStr origin'); ("appName", name);
                               ("appIcon", icon); ("permissions", granted)]))
                (mkHost store params log))).
  { unfold mount, bind. by rewrite Hread, Hlocked. }
  cbv zeta. rewrite Hmount. simpl.
  split; [done|]. split; [done|].
  exists (JObj [("origin", JStr origin'); ("appName", name); ("appIcon", icon);
                ("permissions", granted)]).
  split; [reflexivity|]. split; [reflexivity|].
  intros unlockedWallets.
  assert (Hkeep : forall q0 : Page,
            connectionRequest (ui q0)
            = JObj [("origin", JStr origin'); ("appName", name); ("appIcon", icon);
                    ("permissions", granted)] ->
            let q' := snd (tab_unlock unlockedWallets q0) in
            connectionRequest (ui q') = connectionRequest (ui q0)
            /\ isLocked (ui q') = false).
  { intros [[w0 ws0 l0 r0] h0] _. unfold handleUnlock, bind, setWallets, setIsLocked,
      set_ui, modify. simpl.
    destruct unlockedWallets as [|first rest]; [done|].
    unfold getItem, gets, select_active, bind, setWallet, set_ui, modify, lift_res,
      find_wallet.
    generalize (find_by_address (first :: rest)). intros found. simpl.
    destruct (truthy (from_option JStr JNull (localStorage h0 !! "activeWalletId"))); [|done].
    by destruct (found (from_option JStr JNull (localStorage h0 !! "activeWalletId"))). }
  destruct (Hkeep (mkPage (mkState JNull (JArr []) true
                             (JObj [("origin", JStr origin'); ("appName", name);
                                    ("appIcon", icon); ("permissions", granted)]))
                     (mkHost store params log)) eq_refl) as [Hreq Hopen].
  cbv zeta in *. intros Hw. unfold render. rewrite Hreq, Hopen, Hw. done.
Qed.

End TabLifecycle.

(** ** The faucet service *)

Section FaucetFacts.

Import ONS Faucet.

Variable fetch : string -> option string -> Res Response.
Variable API_BASE_URL : string.
Variable JSON_stringify : JsVal -> string.

Lemma query_eval (path failure label : string) (fallback : JsVal) (n : Net) :
  let url := API_BASE_URL +:+ path in
  query fetch API_BASE_URL path failure label fallback n
  = match fetch url None with
    | Ok response =>
        if ok response then
          match json response with
          | Ok v => (Ok v, n ++ [Fetch url])
          | Throw e => (Ok fallback, n ++ [Fetch url; ConsoleErr label e])
          end
        else (Ok fallback, n ++ [Fetch url; ConsoleErr label (Error failure)])
    | Throw e => (Ok fallback, n ++ [Fetch url; ConsoleErr label e])
    end.
Proof.
  cbv zeta. unfold query, try_catch, bind, log, modify, lift_res, throw, ret. simpl.
  destruct (fetch (API_BASE_URL +:+ path) None) as [response|e]; simpl.
  2:{ by rewrite <- app_assoc. }
  destruct (ok response); simpl.
  2:{ by rewrite <- app_assoc. }
  destruct (json response) as [data|e]; simpl; [done|].
  by rewrite <- app_assoc.
Qed.

(** X28.  [getFaucetStats], [getPrivateFaucetStats] and [checkEligibility]
    never reject and make exactly one request.  When the response is [ok]
    and its body is JSON, each returns that body as it is and logs nothing.
    In every other case, a rejected request, a response that is not [ok] or
    a body that is not JSON, it logs one console error under its own label
    and returns its fallback: all-zero statistics, or a verdict of not
    eligible. *)
Theorem faucet_queries_never_reject (address : string) (n : Net) :
  let answers (m : M Net JsVal) (path failure label : string) (fallback : JsVal) :=
    let url := API_BASE_URL +:+ path in
    (forall response v,
       fetch url None = Ok response -> ok response = true -> json response = Ok v ->
       m n = (Ok v, n ++ [Fetch url]))
    /\ (forall response e,
          fetch url None = Ok response -> ok response = true -> json response = Throw e ->
          m n = (Ok fallback, n ++ [Fetch url; ConsoleErr label e]))
    /\ (forall response,
          fetch url None = Ok response -> ok response = false ->
          m n = (Ok fallback, n ++ [Fetch url; ConsoleErr label (Error failure)]))
    /\ (forall e,
          fetch url None = Throw e ->
          m n = (Ok fallback, n ++ [Fetch url; ConsoleErr label e])) in
  answers (getFaucetStats fetch API_BASE_URL) "/api/faucet/stats"
    "Failed to fetch stats" "Failed to fetch faucet stats:" (no_stats (JNum 0))
  /\ answers (getPrivateFaucetStats fetch API_BASE_URL) "/api/faucet/stats-private"
       "Failed to fetch private stats" "Failed to fetch private faucet stats:"
       (no_stats (JStr "Private OCT"))
  /\ answers (checkEligibility fetch API_BASE_URL address)
       ("/api/faucet/eligibility/" +:+ address)
       "Failed to check eligibility" "Failed to check eligibility:" not_eligible.
Proof.
  cbv zeta. unfold getFaucetStats, getPrivateFaucetStats, checkEligibility.
  split_and!; intros; rewrite query_eval; cbv zeta;
    repeat match goal with H : _ = _ |- _ => rewrite H end; reflexivity.
Qed.

Lemma claim_eval (path fallback label recipientAddress recaptchaToken : string) (n : Net) :
  fallback <> "" ->
  let url := API_BASE_URL +:+ path in
  let body := JSON_stringify (JObj [("address", JStr recipientAddress);
                                    ("recaptchaToken", JStr recaptchaToken)]) in
  exists v rest success,
    claim fetch API_BASE_URL JSON_stringify path fallback label recipientAddress
      recaptchaToken n
    = (Ok v, n ++ Fetch url :: rest)
    /\ forallb is_console_err rest = true
    /\ get_field v "success" = Ok (JBool success)
    /\ (success = true <->
        exists response data,
          fetch url (Some body) = Ok response /\ ok response = true
          /\ json response = Ok data /\ nullish data = false)
    /\ (success = false -> exists e, get_field v "error" = Ok e /\ truthy e = true).
Proof.
  intros Hfb. cbv zeta.
  unfold claim, try_catch, bind, log, modify, lift_res, ret. simpl.
  set (url := API_BASE_URL +:+ path).
  set (body := JSON_stringify _).
  destruct (fetch url (Some body)) as [response|e] eqn:Hf; simpl.
  2:{ eexists _, [_], false. rewrite <- app_assoc.
      split_and!; [done|done|done| |by eauto].
      split; [done|]. by intros (? & ? & ? & _). }
  destruct (json response) as [data|e] eqn:Hj; simpl.
  2:{ eexists _, [_], false. rewrite <- app_assoc.
      split_and!; [done|done|done| |by eauto].
      split; [done|]. intros (r & d & Hr & _ & Hd & _). congruence. }
  destruct (ok response) eqn:Hok; simpl.
  - destruct (get_field data "txHash") as [txHash|e] eqn:Ht; simpl.
    + eexists _, [], true. split_and!; [done|done|done| |done].
      split; [|done]. intros _. exists response, data.
      split_and!; try done. by destruct data.
    + eexists _, [_], false. rewrite <- app_assoc.
      split_and!; [done|done|done| |by eauto].
      split; [done|]. intros (r & d & Hr & _ & Hd & Hn).
      assert (d = data) as -> by congruence. by destruct data.
  - assert (Hno : ~ exists r d, Ok response = Ok r /\ ok r = true
                                /\ json r = Ok d /\ nullish d = false).
    { intros (r & d & Hr & Hk & _). congruence. }
    destruct (get_field data "error") as [error|e] eqn:He; simpl.
    2:{ eexists _, [_], false. rewrite <- app_assoc.
        split_and!; [done|done|done|split; [done|intros H; exfalso; exact (Hno H)]|by eauto]. }
    destruct (get_field data "nextClaimTime") as [next|e] eqn:Hn; simpl.
    2:{ eexists _, [_], false. rewrite <- app_assoc.
        split_and!; [done|done|done|split; [done|intros H; exfalso; exact (Hno H)]|by eauto]. }
    eexists _, [], false.
    split_and!; [done|done|done|split; [done|intros H; exfalso; exact (Hno H)]|].
    intros _. eexists. split; [reflexivity|].
    unfold or_else. destruct (truthy error) eqn:Htr; [done|]. simpl.
    by destruct (String.eqb_spec fallback "").
Qed.

(** X29.  [sendFaucetTransaction] and [sendPrivateFaucetTransaction] never
    reject and make exactly one request.  The result says [success: true]
    exactly when the response was [ok] and its body was JSON other than
    [null]; every other result carries a truthy error text. *)
Theorem faucet_claims_report_outcome (recipientAddress recaptchaToken : string) (n : Net) :
  let body := JSON_stringify (JObj [("address", JStr recipientAddress);
                                    ("recaptchaToken", JStr recaptchaToken)]) in
  let reports (m : M Net JsVal) (path : string) :=
    exists v rest success,
      m n = (Ok v, n ++ Fetch (API_BASE_URL +:+ path) :: rest)
      /\ forallb is_console_err rest = true
      /\ get_field v "success" = Ok (JBool success)
      /\ (success = true <->
          exists response data,
            fetch (API_BASE_URL +:+ path) (Some body) = Ok response /\ ok response = true
            /\ json response = Ok data /\ nullish data = false)
      /\ (success = false -> exists e, get_field v "error" = Ok e /\ truthy e = true) in
  reports (sendFaucetTransaction fetch API_BASE_URL JSON_stringify recipientAddress
             recaptchaToken) "/api/faucet/claim"
  /\ reports (sendPrivateFaucetTransaction fetch API_BASE_URL JSON_stringify
                recipientAddress recaptchaToken) "/api/faucet/claim-private".
Proof.
  cbv zeta. unfold sendFaucetTransaction, sendPrivateFaucetTransaction. split.
  - by apply (claim_eval "/api/faucet/claim" "Claim failed" "Faucet claim error:").
  - by apply (claim_eval "/api/faucet/claim-private" "Private claim failed"
                "Private faucet claim error:").
Qed.

End FaucetFacts.

(** ** Worked instances *)

(** On the sample store the unlock leaves the salt where it was. *)
Lemma unlockWallets_frame_witness :
  storage (snd (WalletManager.unlockWallets Sample.verifyPassword Sample.decryptWalletData
                  Sample.JSON_parse Sample.JSON_stringify "hunter2" Sample.locked_store))
  !! "walletPasswordSalt" = Some (JStr "c2FsdA").
Proof.
  rewrite (unlockWallets_frame Sample.verifyPassword Sample.decryptWalletData
             Sample.JSON_parse Sample.JSON_stringify "hunter2" Sample.locked_store
             "walletPasswordSalt"); [reflexivity | discriminate | discriminate | discriminate].
Defined.

(** On the sample store the right password opens the gate. *)
Lemma unlock_opens_the_gate_witness :
  let w' := snd (WalletManager.unlockWallets Sample.verifyPassword Sample.decryptWalletData
                   Sample.JSON_parse Sample.JSON_stringify "hunter2" Sample.locked_store) in
  fst (WalletManager.shouldShowUnlockScreen w') = Ok false /\
  fst (WalletManager.isWalletLocked w') = Ok false.
Proof.
  apply (unlock_opens_the_gate Sample.verifyPassword Sample.decryptWalletData
           Sample.JSON_parse Sample.JSON_stringify "hunter2" Sample.locked_store
           [Sample.record "oct1alice" (JStr (Sample.wallet_json "oct1alice"));
            Sample.record "oct1carol" (JNum 7);
            Sample.record "oct1bob" (JStr (Sample.wallet_json "oct1bob"))]).
  - reflexivity.
  - reflexivity.
  - reflexivity.
  - reflexivity.
  - repeat constructor.
  - vm_compute. discriminate.
Defined.


(** An encrypted-wallets entry that is not JSON unlocks to the empty list. *)
Lemma unlock_with_unusable_records_witness :
  exists w' : World,
    WalletManager.unlockWallets Sample.verifyPassword Sample.decryptWalletData
      Sample.JSON_parse Sample.JSON_stringify "hunter2" SamplePlatform.store_with_damaged_list
    = (Ok [], w').
Proof.
  destruct (unlock_with_unusable_records Sample.verifyPassword Sample.decryptWalletData
              Sample.JSON_parse Sample.JSON_stringify "hunter2"
              SamplePlatform.store_with_damaged_list) as (w' & Hrun & _).
  - reflexivity.
  - reflexivity.
  - reflexivity.
  - right. exact I.
  - exists w'. exact Hrun.
Defined.

(** The locked sample popup loads no wallet. *)
Lemma gated_mount_loads_no_wallet_witness :
  PopupApp.wallets
    (PopupApp.ui (snd (PopupApp.loadInitialData Sample.JSON_parse popup_window
                         (PopupApp.mkPage PopupApp.initial locked_with_request)))) = [].
Proof.
  apply (gated_mount_loads_no_wallet Sample.JSON_parse popup_window locked_with_request).
  reflexivity.
Defined.



(** A view call without a method name and a transfer of nothing stop at the
    validation. *)
Lemma missing_fields_make_no_request_witness :
  OctraSDK.viewCall (JObj [("contractAddress", JStr "oct1c"); ("amount", JNum 0)])
    SamplePlatform.connected_sdk
  = (Throw (Error "contractAddress and methodName are required"),
     SamplePlatform.connected_sdk)
  /\ OctraSDK.sendTransaction (JObj [("contractAddress", JStr "oct1c"); ("amount", JNum 0)])
       SamplePlatform.connected_sdk
     = (Throw (Error "to and amount are required"), SamplePlatform.connected_sdk).
Proof.
  destruct (missing_fields_make_no_request SamplePlatform.connected_sdk
              [("contractAddress", JStr "oct1c"); ("amount", JNum 0)]) as [Hcall Hsend].
  - reflexivity.
  - split; [apply Hcall | apply Hsend]; reflexivity.
Defined.

(** A provider that rejects with an empty message: the fallback text is
    used. *)
Lemma provider_rejection_is_rewrapped_witness :
  fst (OctraSDK.getBalance JUndefined SamplePlatform.connected_sdk)
  = Throw (Error "Failed to get balance")
  /\ fst (OctraSDK.viewCall
            (JObj [("contractAddress", JStr "oct1c"); ("methodName", JStr "getCredits")])
            SamplePlatform.connected_sdk)
     = Throw (Error "View call failed").
Proof.
  destruct (provider_rejection_is_rewrapped SamplePlatform.connected_sdk
              SamplePlatform.offline (Error "")
              [("contractAddress", JStr "oct1c"); ("methodName", JStr "getCredits")]
              JUndefined (JStr "hello")) as (Hbal & _ & Hview & _).
  - reflexivity.
  - reflexivity.
  - intros call. reflexivity.
  - split; [by rewrite Hbal|]. by destruct (Hview eq_refl) as [-> _].
Defined.

(** A wallet whose [connect] resolves with [null] leaves the fresh instance
    connected without an address. *)
Lemma connect_empty_answer_leaves_connected_witness :
  exists (m : string) (s' : OctraSDK.Sdk),
    OctraSDK.connect SamplePlatform.silent_wallet "dapp.example" (JObj []) Sample.fresh_sdk
    = (Throw (Error m), s')
    /\ OctraSDK.isWalletConnected s' = (Ok true, s')
    /\ OctraSDK.getConnectedAddress s' = (Ok JNull, s').
Proof.
  apply (connect_empty_answer_leaves_connected SamplePlatform.silent_wallet "dapp.example"
           Sample.fresh_sdk Sample.provider [] JNull).
  - reflexivity.
  - reflexivity.
  - intros permissions. reflexivity.
Defined.

(** After the wallet switches to another account the balance asked for is
    that account's. *)
Lemma account_switch_redirects_balance_witness :
  exists s1 : OctraSDK.Sdk,
    OctraSDK.on_accountsChanged Sample.gt_zero (JArr [JStr "oct1bob"]) Sample.fresh_sdk
    = (Ok (), s1)
    /\ OctraSDK.connectedAddress s1 = JStr "oct1bob"
    /\ OctraSDK.isConnected s1 = true
    /\ OctraSDK.events (snd (OctraSDK.getBalance JUndefined s1))
       = [OctraSDK.Request (OctraSDK.GetBalance (JStr "oct1bob"))].
Proof.
  apply (account_switch_redirects_balance Sample.gt_zero Sample.fresh_sdk Sample.provider
           (JStr "oct1bob") []).
  reflexivity.
Defined.

(** The sample address is an address and not a domain. *)
Lemma address_is_not_a_domain_witness :
  ONS.isOctraAddress SamplePlatform.alice_address = true
  /\ ONS.isONSDomain SamplePlatform.alice_address = false.
Proof.
  split; [vm_compute; reflexivity|].
  apply (address_is_not_a_domain SamplePlatform.alice_address).
  vm_compute. reflexivity.
Defined.

(** The sample domain, typed with blanks around it, resolves to the address
    of its verified record. *)
Lemma resolved_address_provenance_witness :
  answered_by SamplePlatform.fetch
    (ONS.resolve_url "http://localhost:3001" (SamplePlatform.trim "  alice.oct "))
    (JStr SamplePlatform.alice_address).
Proof.
  destruct (resolved_address_provenance SamplePlatform.trim SamplePlatform.fetch
              "http://localhost:3001" SamplePlatform.show "  alice.oct " []
              [ONS.Fetch "http://localhost:3001/api/domains/resolve/alice"]
              (ONS.mkResolution (JStr SamplePlatform.alice_address) ONS.ons None))
    as [(Hkind & _)|(_ & _ & _ & Hanswer)].
  - vm_compute. reflexivity.
  - discriminate.
  - discriminate Hkind.
  - exact Hanswer.
Defined.

(** The locked sample tab keeps the connection request of its URL and shows
    it once a wallet is unlocked. *)
Lemma url_request_survives_unlock_witness :
  let q := snd (App.mount Sample.JSON_parse Sample.decodeURIComponent Sample.gt_zero
                  (App.mkPage App.initial SamplePlatform.tab_with_url_request)) in
  App.render (App.ui q) = UnlockWallet
  /\ exists request,
       App.render (App.ui (snd (App.handleUnlock [Sample.wallet "oct1alice"] q)))
       = ConnectionApproval request (Sample.wallet "oct1alice").
Proof.
  destruct (url_request_survives_unlock Sample.JSON_parse Sample.decodeURIComponent
              Sample.gt_zero SamplePlatform.tab_with_url_request
              "https://dapp.example" "[]" "https://dapp.example" "[]" (JArr []))
    as (_ & Hlocked & request & _ & _ & Hshown).
  - reflexivity.
  - reflexivity.
  - discriminate.
  - reflexivity.
  - discriminate.
  - intros name s _. by eexists.
  - by eexists.
  - reflexivity.
  - reflexivity.
  - reflexivity.
  - reflexivity.
  - discriminate.
  - split; [exact Hlocked|]. exists request.
    apply (Hshown [Sample.wallet "oct1alice"]). reflexivity.
Defined.
